(** * Concept tagging with neural networks: the training harness and the
      encoder-decoder model

    A shallow embedding of [src/run_model.py] and [src/models/encoder.py].
    Python values are a tagged union, exceptions are an inductive type,
    effectful code runs in a state-and-exception monad, and the layers of the
    tensor library are parameters of a section. *)

From Stdlib Require Import String Ascii.
From Stdlib Require Import ZArith List Bool Lia PeanoNat.
From Stdlib Require Import DecimalString.
From Stdlib Require Import PrimFloat.
Import ListNotations.

Local Open Scope string_scope.
Local Open Scope list_scope.

Set Warnings "-inexact-float".

Infix "+++" := String.append (right associativity, at level 60).

(** ** Python: exceptions, results, dictionaries *)

Inductive exn : Type :=
| TypeError (msg : string)
| KeyError (key : string)
| AttributeError (msg : string)
| AssertionError (msg : string)
| ValueError (msg : string)
| IndexError (msg : string)
| RuntimeError (msg : string)
| UnboundLocalError (name : string)
| SystemExit (code : Z).

Inductive result (A : Type) : Type :=
| Ok (a : A)
| Raise (e : exn).

Arguments Ok {A} a.
Arguments Raise {A} e.

(** A computation over a mutable state [S] that may raise: the state reached
    when the exception is raised is kept. *)
Definition M (S A : Type) : Type := S -> result A * S.

Definition ret {S A} (a : A) : M S A := fun s => (Ok a, s).

Definition raise {S A} (e : exn) : M S A := fun s => (Raise e, s).

Definition bind {S A B} (m : M S A) (k : A -> M S B) : M S B :=
  fun s => match m s with
           | (Ok a, s') => k a s'
           | (Raise e, s') => (Raise e, s')
           end.

Definition lift {S A} (r : result A) : M S A := fun s => (r, s).

Definition modify {S} (f : S -> S) : M S unit := fun s => (Ok tt, f s).

Definition rbind {A B} (r : result A) (k : A -> result B) : result B :=
  match r with
  | Ok a => k a
  | Raise e => Raise e
  end.

Declare Scope res_scope.
Delimit Scope res_scope with res.
Notation "x <- m ;; k" := (rbind m (fun x => k))
  (at level 61, m at next level, right associativity) : res_scope.

Declare Scope py_scope.
Delimit Scope py_scope with py.
Notation "x <- m ;; k" := (bind m (fun x => k))
  (at level 61, m at next level, right associativity) : py_scope.
Notation "m ;;; k" := (bind m (fun _ => k))
  (at level 61, right associativity) : py_scope.

(** A [dict] keeps insertion order; assigning an existing key replaces its
    value in place. *)
Section Dict.
Context {K V : Type} (eqb : K -> K -> bool).

Fixpoint dict_get (d : list (K * V)) (k : K) : option V :=
  match d with
  | [] => None
  | (k', v) :: d' => if eqb k k' then Some v else dict_get d' k
  end.

Fixpoint dict_set (d : list (K * V)) (k : K) (v : V) : list (K * V) :=
  match d with
  | [] => [(k, v)]
  | (k', v') :: d' =>
      if eqb k k' then (k, v) :: d' else (k', v') :: dict_set d' k v
  end.

Definition dict_mem (d : list (K * V)) (k : K) : bool :=
  match dict_get d k with Some _ => true | None => false end.
End Dict.

Definition nl : string := String (ascii_of_nat 10) EmptyString.

Definition string_of_Z (z : Z) : string := NilEmpty.string_of_int (Z.to_int z).

(** ** [write_predictions] *)

(** What a sequence handed to [write_predictions] holds: label indexes, or
    strings (tokens, or labels that are not indexed). *)
Inductive item : Type :=
| IInt (z : Z)
| IStr (s : string).

(** [str(x)], the conversion of the format [%s]. *)
Definition py_str (x : item) : string :=
  match x with
  | IInt z => string_of_Z z
  | IStr s => s
  end.

(** [zip] of three sequences stops at the shortest. *)
Fixpoint zip3 {A B C} (a : list A) (b : list B) (c : list C) : list (A * B * C) :=
  match a, b, c with
  | x :: a', y :: b', z :: c' => (x, y, z) :: zip3 a' b' c'
  | _, _, _ => []
  end.

(** The class vocabulary maps a class name to its index. *)
Definition vocab : Type := list (string * Z).

(** [{v: k for k, v in class_vocab.items()}] *)
Definition invert (class_vocab : vocab) : list (Z * string) :=
  fold_left (fun d kv => dict_set Z.eqb d (snd kv) (fst kv)) class_vocab [].

(** [index_to_class[x]]: the keys are integers, a string is never one. *)
Definition getitem (index_to_class : list (Z * string)) (x : item) : result string :=
  match x with
  | IInt z =>
      match dict_get Z.eqb index_to_class z with
      | Some c => Ok c
      | None => Raise (KeyError (string_of_Z z))
      end
  | IStr s => Raise (KeyError s)
  end.

(** The file system: path to content. *)
Definition fs : Type := list (string * string).

(** [open(path, "w")] creates or truncates. *)
Definition fs_open (path : string) : M fs unit :=
  modify (fun files => dict_set String.eqb files path "").

(** [file.write(s)] *)
Definition fs_write (path : string) (s : string) : M fs unit :=
  modify (fun files =>
    match dict_get String.eqb files path with
    | Some old => dict_set String.eqb files path (old +++ s)
    | None => dict_set String.eqb files path s
    end).

Local Open Scope py_scope.

(** The inner loop of [write_predictions]: one line per zipped triple. *)
Fixpoint write_sequence (index_to_class : list (Z * string)) (indexed_labels : bool)
    (path : string) (rows : list (item * item * item)) : M fs unit :=
  match rows with
  | [] => ret tt
  | (word, concept, predicted_concept) :: rest =>
      conc <- lift (if indexed_labels then getitem index_to_class concept
                    else Ok (py_str concept)) ;;
      pred <- lift (getitem index_to_class predicted_concept) ;;
      fs_write path (py_str word +++ " " +++ conc +++ " " +++ pred +++ nl) ;;;
      write_sequence index_to_class indexed_labels path rest
  end.

(** The outer loop: the lines of an example, then an empty line. *)
Fixpoint write_examples (index_to_class : list (Z * string)) (indexed_labels : bool)
    (path : string) (seqs : list (list item * list item * list item)) : M fs unit :=
  match seqs with
  | [] => ret tt
  | (tokens_seq, labels_seq, predictions_seq) :: rest =>
      write_sequence index_to_class indexed_labels path
        (zip3 tokens_seq labels_seq predictions_seq) ;;;
      fs_write path nl ;;;
      write_examples index_to_class indexed_labels path rest
  end.

Definition write_predictions (tokens labels predictions : list (list item))
    (path : string) (indexed_labels : bool) (class_vocab : vocab) : M fs unit :=
  let index_to_class := invert class_vocab in
  fs_open path ;;;
  write_examples index_to_class indexed_labels path (zip3 tokens labels predictions).

(** The file the interface describes for aligned triples of a token, a gold
    index and a predicted index: one line [token gold predicted] per triple,
    the indexes replaced by their class names, and an empty line after each
    example. *)
Definition class_name (index_to_class : list (Z * string)) (z : Z) : string :=
  match dict_get Z.eqb index_to_class z with
  | Some c => c
  | None => ""
  end.

Definition render_line (index_to_class : list (Z * string)) (t : item * Z * Z) : string :=
  py_str (fst (fst t)) +++ " " +++ class_name index_to_class (snd (fst t))
    +++ " " +++ class_name index_to_class (snd t) +++ nl.

Definition render_example (index_to_class : list (Z * string))
    (ex : list (item * Z * Z)) : string :=
  fold_right (fun t rest => render_line index_to_class t +++ rest) nl ex.

Definition render (index_to_class : list (Z * string))
    (examples : list (list (item * Z * Z))) : string :=
  fold_right (fun ex rest => render_example index_to_class ex +++ rest) "" examples.

(** The three arguments of [write_predictions] that hold aligned triples. *)
Definition tokens_of (examples : list (list (item * Z * Z))) : list (list item) :=
  map (map (fun t => fst (fst t))) examples.
Definition labels_of (examples : list (list (item * Z * Z))) : list (list item) :=
  map (map (fun t => IInt (snd (fst t)))) examples.
Definition predictions_of (examples : list (list (item * Z * Z))) : list (list item) :=
  map (map (fun t => IInt (snd t))) examples.

(** Every index of the triples is a key of the inverted vocabulary. *)
Definition known (index_to_class : list (Z * string))
    (examples : list (list (item * Z * Z))) : Prop :=
  forall ex t, In ex examples -> In t ex ->
    dict_mem Z.eqb index_to_class (snd (fst t)) = true /\
    dict_mem Z.eqb index_to_class (snd t) = true.

(** ** Regrouping the flattened stream (training and evaluation loops) *)

(** The four lists the loops of [train_model] and [evaluate_model] update. *)
Record regroup_state : Type := {
  tmp_pred : list Z;
  tmp_true : list Z;
  y_predicted : list (list Z);
  y_true : list (list Z)
}.

(** The body of [for index, label in zip(indices, labels)]. *)
Definition regroup_step (st : regroup_state) (il : Z * Z) : regroup_state :=
  let ival := fst il in
  let labelval := snd il in
  if negb (labelval =? -1)%Z then
    {| tmp_pred := tmp_pred st ++ [ival];
       tmp_true := tmp_true st ++ [labelval];
       y_predicted := y_predicted st;
       y_true := y_true st |}
  else
    {| tmp_pred := [];
       tmp_true := [];
       y_predicted := y_predicted st ++ [tmp_pred st];
       y_true := y_true st ++ [tmp_true st] |}.

(** One batch: [tmp_pred] and [tmp_true] start empty, the loop runs over the
    zipped stream, and what the two temporaries hold when the stream ends is
    not appended anywhere. *)
Definition regroup_batch (indices labels : list Z)
    (y_predicted0 y_true0 : list (list Z)) : list (list Z) * list (list Z) :=
  let st := fold_left regroup_step (combine indices labels)
              {| tmp_pred := []; tmp_true := [];
                 y_predicted := y_predicted0; y_true := y_true0 |} in
  (y_predicted st, y_true st).

(** ** Batches *)

(** An example: token indexes paired with their label indexes. *)
Definition example : Type := list (Z * Z).

Definition batch : Type := list example.

Definition max_length (b : batch) : nat :=
  fold_right Nat.max 0 (map (@length (Z * Z)%type) b).

Definition pad_to {A} (n : nat) (fill : A) (l : list A) : list A :=
  l ++ repeat fill (n - length l).

(** Modelled from the spec: [data_manager.batch_sequence] is not among the
    sources.  Section 4.1: from N examples of lengths L_1..L_N it gives the
    token indexes as an (N, max L_i) tensor padded with the padding index, the
    label indexes as an (N, max L_i) tensor padded with -1, and the original
    lengths. *)
Definition batch_sequence (padding_index : Z) (b : batch)
    : list (list Z) * list (list Z) * list nat :=
  let T := max_length b in
  (map (fun e => pad_to T padding_index (map fst e)) b,
   map (fun e => pad_to T (-1)%Z (map snd e)) b,
   map (@length (Z * Z)%type) b).

(** [labels.view(-1)] *)
Definition flat_labels (padding_index : Z) (b : batch) : list Z :=
  concat (snd (fst (batch_sequence padding_index b))).

(** ** Python values and calls *)

(** The objects the launcher passes around. *)
Inductive value : Type :=
| VNone
| VBool (b : bool)
| VInt (z : Z)
| VFloat (x : float)
| VStr (s : string)
| VSeqs (l : list (list item))   (* a list of sequences *)
| VVocab (d : vocab)             (* a dict from class name to index *)
| VArray (rows cols : nat).      (* a 2-D weight array, kept by its shape *)

(** The dictionary of run parameters. *)
Definition params : Type := list (string * value).

(** [d[k]] *)
Definition subscript (d : params) (k : string) : result value :=
  match dict_get String.eqb d k with
  | Some v => Ok v
  | None => Raise (KeyError k)
  end.

(** Truth value of an object; an array of weights has none. *)
Definition truth (v : value) : result bool :=
  match v with
  | VNone => Ok false
  | VBool b => Ok b
  | VInt z => Ok (negb (z =? 0)%Z)
  | VFloat x => Ok (negb (PrimFloat.eqb x 0%float))
  | VStr s => Ok (negb (String.eqb s ""))
  | VSeqs l => Ok (match l with [] => false | _ => true end)
  | VVocab d => Ok (match d with [] => false | _ => true end)
  | VArray _ _ =>
      Raise (ValueError "The truth value of an array with more than one element is ambiguous")
  end.

(** [v == s] for a string literal [s]. *)
Definition eq_str (v : value) (s : string) : bool :=
  match v with
  | VStr s' => String.eqb s' s
  | _ => false
  end.

(** A formal parameter and its default, if it has one. *)
Record param : Type := { pname : string; pdefault : option value }.

Definition required (n : string) : param := {| pname := n; pdefault := None |}.
Definition optional (n : string) (d : value) : param := {| pname := n; pdefault := Some d |}.

Local Open Scope res_scope.

(** Binding of the positional arguments of a call, left to right; a parameter
    left without argument takes its default or the call fails. *)
Fixpoint bind_args (fname : string) (ps : list param) (args : list value)
    : result params :=
  match ps, args with
  | [], [] => Ok []
  | [], _ :: _ =>
      Raise (TypeError (fname +++ "() takes fewer positional arguments than were given"))
  | p :: ps', a :: args' =>
      env <- bind_args fname ps' args' ;;
      Ok ((pname p, a) :: env)
  | p :: ps', [] =>
      match pdefault p with
      | Some d =>
          env <- bind_args fname ps' [] ;;
          Ok ((pname p, d) :: env)
      | None =>
          Raise (TypeError (fname +++ "() missing required positional argument: " +++ pname p))
      end
  end.

(** The parameters left without a positional argument: each takes its
    keyword argument, else its default, else the call fails. *)
Fixpoint bind_rest (fname : string) (ps : list param) (kwargs : params) : result params :=
  match ps with
  | [] => Ok []
  | p :: ps' =>
      match dict_get String.eqb kwargs (pname p), pdefault p with
      | Some v, _ | None, Some v =>
          env <- bind_rest fname ps' kwargs ;;
          Ok ((pname p, v) :: env)
      | None, None =>
          Raise (TypeError (fname +++ "() missing required positional argument: " +++ pname p))
      end
  end.

Fixpoint bind_positional (fname : string) (ps : list param) (args : list value)
    (kwargs : params) : result params :=
  match ps, args with
  | _, [] => bind_rest fname ps kwargs
  | [], _ :: _ =>
      Raise (TypeError (fname +++ "() takes fewer positional arguments than were given"))
  | p :: ps', a :: args' =>
      env <- bind_positional fname ps' args' kwargs ;;
      Ok ((pname p, a) :: env)
  end.

(** Binding of a call with positional and keyword arguments.  The keywords
    are looked at first, in the order they are given: each must name a
    parameter, and one that no positional argument has filled. *)
Definition bind_call (fname : string) (ps : list param) (args : list value)
    (kwargs : params) : result params :=
  let names := map pname ps in
  let named l k := existsb (String.eqb k) l in
  match find (fun kv => negb (named names (fst kv))
                        || named (firstn (length args) names) (fst kv)) kwargs with
  | Some kv =>
      if named names (fst kv)
      then Raise (TypeError (fname +++ "() got multiple values for argument " +++ fst kv))
      else Raise (TypeError (fname +++ "() got an unexpected keyword argument " +++ fst kv))
  | None => bind_positional fname ps args kwargs
  end.

(** The value of a bound parameter. *)
Definition arg (env : params) (n : string) : value :=
  match dict_get String.eqb env n with
  | Some v => v
  | None => VNone
  end.

(** ** [EncoderDecoderRNN.__init__] *)

(** What the constructor stores in [self]. *)
Record EncoderDecoderRNN : Type := {
  device : value;
  hidden_dim : Z;
  tagset_size : Z;
  embedding_dim : Z;
  decoder_embedding_size : Z;
  w2v_weights : value;
  bidirectional : bool;
  drop_rate : value;
  freeze : value;
  max_norm_emb1 : value;
  max_norm_emb2 : value;
  gru_encoder_hidden_size : Z;     (* hidden size of [gru_encoder] *)
  embedding_decoder_num : Z        (* rows of [embedding_decoder] *)
}.

Definition EncoderDecoderRNN_params : list param :=
  [ required "device"; required "w2v_weights"; required "decoder_embedding_size";
    required "hidden_dim"; required "tagset_size";
    optional "drop_rate" (VFloat 0.5%float); optional "bidirectional" (VBool false);
    optional "freeze" (VBool true); optional "max_norm_emb1" (VInt 10);
    optional "max_norm_emb2" (VInt 10) ].

(** [w.shape[1]]: only an array has a shape. *)
Definition shape1 (w : value) : result Z :=
  match w with
  | VArray _ cols => Ok (Z.of_nat cols)
  | _ => Raise (AttributeError "object has no attribute 'shape'")
  end.

(** A layer size must be an integer. *)
Definition as_int (v : value) : result Z :=
  match v with
  | VInt z => Ok z
  | VBool b => Ok (Z.b2z b)
  | _ => Raise (TypeError "an integer is required")
  end.

(** [nn.Dropout(p)] tests [p < 0 or p > 1]: a number outside of the interval
    is refused, a number that compares false on both sides passes, and an
    object that has no order with a number makes the comparison fail. *)
Definition Dropout (p : value) : result unit :=
  match p with
  | VFloat x =>
      if PrimFloat.ltb x 0%float || PrimFloat.ltb 1%float x
      then Raise (ValueError "dropout probability has to be between 0 and 1")
      else Ok tt
  | VInt z =>
      if (z <? 0)%Z || (1 <? z)%Z
      then Raise (ValueError "dropout probability has to be between 0 and 1")
      else Ok tt
  | VBool _ => Ok tt
  | VArray _ _ =>
      Raise (ValueError "The truth value of an array with more than one element is ambiguous")
  | _ => Raise (TypeError "'<' not supported between instances")
  end.

(** [nn.GRU(input_size, hidden_size)]: the hidden size is positive. *)
Definition GRU (hidden_size : Z) : result unit :=
  if (hidden_size <=? 0)%Z then Raise (ValueError "hidden_size must be greater than zero")
  else Ok tt.

(** The weight of [nn.Embedding(rows, cols)] and of [nn.Linear(cols, rows)]:
    no dimension of a tensor is negative. *)
Definition new_weight (rows cols : Z) : result unit :=
  if (rows <? 0)%Z || (cols <? 0)%Z
  then Raise (RuntimeError "Trying to create tensor with negative dimension")
  else Ok tt.

(** The constructor, lines 25 to 51, in the order in which its statements can
    fail: the shape of the weights (line 30), the dropout (36), the truth of
    [freeze] (40), the truth of [bidirectional] and the hidden size of the
    encoder (42), the table of the tags (47), the decoder (48) and the
    projection (50). *)
Definition EncoderDecoderRNN_init (args : list value) (kwargs : params)
    : result EncoderDecoderRNN :=
  env <- bind_call "__init__" EncoderDecoderRNN_params args kwargs ;;
  embedding_dim_ <- shape1 (arg env "w2v_weights") ;;
  _ <- Dropout (arg env "drop_rate") ;;
  _ <- truth (arg env "freeze") ;;
  bidirectional_ <- truth (arg env "bidirectional") ;;
  hidden_dim_ <- as_int (arg env "hidden_dim") ;;
  let encoder_hidden_size := (hidden_dim_ / (if negb bidirectional_ then 1 else 2))%Z in
  _ <- GRU encoder_hidden_size ;;
  tagset_size_ <- as_int (arg env "tagset_size") ;;
  decoder_embedding_size_ <- as_int (arg env "decoder_embedding_size") ;;
  _ <- new_weight (tagset_size_ + 1) decoder_embedding_size_ ;;
  _ <- GRU hidden_dim_ ;;
  _ <- new_weight tagset_size_ hidden_dim_ ;;
  Ok {| device := arg env "device";
        hidden_dim := hidden_dim_;
        tagset_size := tagset_size_;
        embedding_dim := embedding_dim_;
        decoder_embedding_size := decoder_embedding_size_;
        w2v_weights := arg env "w2v_weights";
        bidirectional := bidirectional_;
        drop_rate := arg env "drop_rate";
        freeze := arg env "freeze";
        max_norm_emb1 := arg env "max_norm_emb1";
        max_norm_emb2 := arg env "max_norm_emb2";
        gru_encoder_hidden_size := encoder_hidden_size;
        embedding_decoder_num := (tagset_size_ + 1)%Z |}.

(** A module is an object that the constructor returned. *)
Definition built (self : EncoderDecoderRNN) : Prop :=
  exists args kwargs, EncoderDecoderRNN_init args kwargs = Ok self.

(** [max_norm] of an embedding is [None] or a number. *)
Definition max_norm_ok (v : value) : bool :=
  match v with
  | VNone | VInt _ | VFloat _ | VBool _ => true
  | _ => false
  end.

(** The modules on which [forward] can decode: there is a tag to predict, the
    two halves of a bidirectional hidden state make up [hidden_dim], and the
    maximal norms of the two embeddings are numbers or [None]. *)
Definition decodes (self : EncoderDecoderRNN) : Prop :=
  built self /\
  (0 < tagset_size self)%Z /\
  (bidirectional self = true -> Z.even (hidden_dim self) = true) /\
  max_norm_ok (max_norm_emb1 self) = true /\
  max_norm_ok (max_norm_emb2 self) = true.

(** The rows of the table of token embeddings, [w2v_weights.shape[0]]. *)
Definition num_embeddings (self : EncoderDecoderRNN) : Z :=
  match w2v_weights self with
  | VArray rows _ => Z.of_nat rows
  | _ => 0
  end.

(** ** The observable effects of a run *)

Inductive event : Type :=
| Construct (cls : string)     (* a model class is instantiated *)
| ZeroGrad                     (* [model.zero_grad()] *)
| Forward                      (* [model(batch)] *)
| NllLoss                      (* [nll_loss(predicted, labels, ignore_index=-1)] *)
| NegLogLikelihood             (* [model.neg_log_likelihood(batch)] *)
| Backward                     (* [loss.backward()] *)
| OptimizerStep                (* [optimizer.step()] *)
| RecordLoss                   (* [error.append(loss.item())] *)
| SchedulerStep                (* [scheduler.step(np.mean(error))] *)
| Print (s : string)
| System (cmd : string) (args : list value)   (* [os.system(cmd % args)] *)
| EvalMode                     (* [model.eval()] *)
| TrainMode.                   (* [model.train()] *)

Record world : Type := { files : fs; log : list event }.

Definition emit (e : event) : M world unit :=
  modify (fun w => {| files := files w; log := log w ++ [e] |}).

(** A computation on the files, run in the world. *)
Definition with_files {A} (m : M fs A) : M world A :=
  fun w => let (r, f) := m (files w) in (r, {| files := f; log := log w |}).

(** ** The launcher: [parse_args], [pick_model_transform] *)

Definition possible_models : list string :=
  ["recurrent"; "rnn"; "gru"; "lstm2ch"; "encoder"; "attention"; "conv";
   "init_hidden"; "lstmcrf"].
Definition possible_sequences : list string := ["tokens"].
Definition possible_datasets : list string := ["movies"; "atis"; "vui"].

Definition longopts : list string :=
  ["model="; "batch="; "epochs="; "lr="; "dev"; "save="; "class="; "help";
   "sequence="; "vector"; "write="; "embedding="; "bidirectional";
   "hidden_size="; "unfreeze"; "drop="; "decay="; "embedding_norm=";
   "char_embedding="; "dataset="].

(** [x in l] for strings. *)
Definition py_in (x : string) (l : list string) : bool := existsb (String.eqb x) l.

(** [assert b, msg] *)
Definition assert (b : bool) (msg : string) : result unit :=
  if b then Ok tt else Raise (AssertionError msg).

(** [dict(opts)]: a later pair replaces an earlier one with the same key. *)
Definition dict_of (pairs : list (string * string)) : list (string * string) :=
  fold_left (fun d kv => dict_set String.eqb d (fst kv) (snd kv)) pairs [].

(** [opts.get(k, None)] *)
Definition get_or_none (opts : list (string * string)) (k : string) : value :=
  match dict_get String.eqb opts k with
  | Some s => VStr s
  | None => VNone
  end.

(** [opts.get(k, "")] *)
Definition get_or_empty (opts : list (string * string)) (k : string) : string :=
  match dict_get String.eqb opts k with
  | Some s => s
  | None => ""
  end.

(** The sizes along the second dimension, one per entry of the first. *)
Definition shape2 {A} (x : list (list A)) : list nat := map (@length A) x.

(** An (n, 1) tensor of indexes between 0 and [hi]. *)
Definition valid_input (n : nat) (hi : Z) (input : list (list Z)) : Prop :=
  shape2 input = repeat 1 n /\
  Forall (Forall (fun i => (0 <= i <= hi)%Z)) input.

(** An (n, 1, c) tensor. *)
Definition step_output {A} (n c : nat) (x : list (list (list A))) : Prop :=
  shape2 x = repeat 1 n /\
  Forall (Forall (fun row => length row = c)) x.

(** The configurations the error-handling design calls valid: a supported
    model, sequence and dataset, a positive learning rate, batch size and
    epoch count, and a dropout, decay and embedding norm that are not
    negative. *)
Definition listed_valid (lr drop decay embedding_norm : float) (batch_ epochs : Z)
    (sequence model_ dataset : string) : bool :=
  PrimFloat.ltb 0%float lr && PrimFloat.leb 0%float drop && PrimFloat.leb 0%float decay
  && PrimFloat.leb 0%float embedding_norm && (0 <? batch_)%Z && (0 <? epochs)%Z
  && py_in sequence possible_sequences && py_in model_ possible_models
  && py_in dataset possible_datasets.

(** The same with a positive hidden size. *)
Definition valid_config (lr drop decay embedding_norm : float) (batch_ epochs hidden_size : Z)
    (sequence model_ dataset : string) : bool :=
  listed_valid lr drop decay embedding_norm batch_ epochs sequence model_ dataset
  && (0 <? hidden_size)%Z.

(** The class that line 358 to 393 instantiate for a model name. *)
Definition class_of (name : string) : string :=
  if String.eqb name "recurrent" || String.eqb name "gru" || String.eqb name "rnn"
  then "recurrent.Recurrent"
  else if String.eqb name "lstm2ch" then "lstm_2ch.LSTMN2CH"
  else if String.eqb name "encoder" then "encoder.EncoderDecoderRNN"
  else if String.eqb name "attention" then "attention.Attention"
  else if String.eqb name "conv" then "conv.CNN"
  else if String.eqb name "init_hidden" then "init_hidden.INIT"
  else if String.eqb name "lstmcrf" then "lstmcrf.LstmCrf"
  else "".

(** The number of steps of the scheduler that a log records. *)
Definition scheduler_steps (l : list event) : nat :=
  length (filter (fun e => match e with SchedulerStep => true | _ => false end) l).

(** A computation that raises from the state [s]. *)
Definition raises {S A} (m : M S A) (s : S) : Prop :=
  exists e s', m s = (Raise e, s').

Section Program.

(** The conversions [float(s)] and [int(s)] of a string, and [getopt.getopt];
    each fails on malformed input. *)
Variable py_float : string -> result float.
Variable py_int : string -> result Z.
Variable getopt : list string -> list string -> result (list (string * string) * list string).

(** [float(opts.get(k, d))] *)
Definition get_float (opts : list (string * string)) (k : string) (d : float)
    : result float :=
  match dict_get String.eqb opts k with
  | Some s => py_float s
  | None => Ok d
  end.

(** [int(opts.get(k, d))] *)
Definition get_int (opts : list (string * string)) (k : string) (d : Z) : result Z :=
  match dict_get String.eqb opts k with
  | Some s => py_int s
  | None => Ok d
  end.

(** [parse_args] once the options are a dictionary and [--help] is absent:
    lines 284 to 339.  Printing the parameters is left out. *)
Definition parse_opts (opts : list (string * string)) : result params :=
  lr <- get_float opts "--lr" 0.01%float ;;
  _ <- assert (PrimFloat.ltb 0%float lr) "learning rate should be greater than 0" ;;
  drop <- get_float opts "--drop" 0.00%float ;;
  _ <- assert (PrimFloat.leb 0%float drop) "dropout rate should be greater or equal to 0" ;;
  decay <- get_float opts "--decay" 0.00%float ;;
  _ <- assert (PrimFloat.leb 0%float decay) "decay should be greater or equal to 0" ;;
  embedding_norm <- get_float opts "--embedding_norm" 10.00%float ;;
  _ <- assert (PrimFloat.leb 0%float embedding_norm)
         "embedding_norm should be greater or equal to 0" ;;
  batch_ <- get_int opts "--batch" 80 ;;
  _ <- assert (0 <? batch_)%Z "batch size should be greater than 0" ;;
  epochs <- get_int opts "--epochs" 30 ;;
  _ <- assert (0 <? epochs)%Z "epochs size should be greater than 0" ;;
  hidden_size <- get_int opts "--hidden_size" 200 ;;
  _ <- assert (0 <? hidden_size)%Z "hidden size should be greater than 0" ;;
  let sequence := get_or_empty opts "--sequence" in
  _ <- assert (py_in sequence possible_sequences)
         "sequence to use should be among the following" ;;
  let model_ := get_or_empty opts "--model" in
  _ <- assert (py_in model_ possible_models) "use a model from the possible models" ;;
  let dataset := get_or_empty opts "--dataset" in
  _ <- assert (py_in dataset possible_datasets)
         "use a dataset from the possible datasets" ;;
  Ok ([ ("lr", VFloat lr); ("drop", VFloat drop); ("decay", VFloat decay);
        ("embedding_norm", VFloat embedding_norm); ("batch", VInt batch_);
        ("epochs", VInt epochs); ("hidden_size", VInt hidden_size);
        ("model", VStr model_); ("dataset", VStr dataset);
        ("sequence", VStr sequence);
        ("save", get_or_none opts "--save");
        ("write", get_or_none opts "--write");
        ("dev", VBool (dict_mem String.eqb opts "--dev"));
        ("bidirectional", VBool (dict_mem String.eqb opts "--bidirectional"));
        ("unfreeze", VBool (dict_mem String.eqb opts "--unfreeze")) ]
      ++ (if String.eqb dataset "movies"
          then [("embedding",
                 match dict_get String.eqb opts "--embedding" with
                 | Some s => VStr s
                 | None => VStr "../data/movies/w2v_trimmed.pickle"
                 end)]
          else [])
      ++ [("char_embedding", get_or_none opts "--char_embedding")]).

Definition parse_args (args : list string) : result params :=
  match getopt args longopts with
  | Raise _ => Raise (SystemExit 2)
  | Ok (opts, _) =>
      let opts := dict_of opts in
      if dict_mem String.eqb opts "--help" then Raise (SystemExit 0)
      else parse_opts opts
  end.

(** The collaborators of [data_manager] and the model classes of the other
    architectures, none of them among the sources. *)
Variables other_model init_transform drop_transform : Type.
Variable w2v_matrix_vocab_generator : value -> result (vocab * value).
Variable class_vocab_movies : vocab.
Variable InitTransform : value -> vocab -> vocab -> option vocab -> result init_transform.
Variable DropTransform : float -> Z -> Z -> result drop_transform.
Variable construct : string -> list value -> result other_model.

Inductive model : Type :=
| Encoder (m : EncoderDecoderRNN)
| Other (cls : string) (m : other_model).

(** [isinstance(model, lstmcrf.LstmCrf)] *)
Definition is_LstmCrf (m : model) : bool :=
  match m with
  | Other cls _ => String.eqb cls "lstmcrf.LstmCrf"
  | Encoder _ => false
  end.

(** [vocab[k]] *)
Definition vocab_item (v : vocab) (k : string) : result Z :=
  match dict_get String.eqb v k with
  | Some i => Ok i
  | None => Raise (KeyError k)
  end.

(** A local variable that is read: it must have been assigned. *)
Definition local {A} (name : string) (x : option A) : result A :=
  match x with
  | Some a => Ok a
  | None => Raise (UnboundLocalError name)
  end.

(** [not v] *)
Definition py_not (v : value) : result value :=
  b <- truth v ;; Ok (VBool (negb b)).

(** [len(class_vocab)] *)
Definition len_vocab (v : vocab) : value := VInt (Z.of_nat (length v)).

(** The argument lists of the constructor calls, lines 359 to 393. *)
Definition recurrent_args (ps : params) (w2v c2v : value) (cv : vocab)
    : result (list value) :=
  m <- subscript ps "model" ;;
  h <- subscript ps "hidden_size" ;;
  d <- subscript ps "drop" ;;
  b <- subscript ps "bidirectional" ;;
  u <- subscript ps "unfreeze" ;;
  f <- py_not u ;;
  n <- subscript ps "embedding_norm" ;;
  Ok [w2v; m; h; len_vocab cv; d; b; f; n; c2v].

Definition lstm2ch_args (ps : params) (w2v : value) (cv : vocab) : result (list value) :=
  h <- subscript ps "hidden_size" ;;
  d <- subscript ps "drop" ;;
  b <- subscript ps "bidirectional" ;;
  n <- subscript ps "embedding_norm" ;;
  Ok [w2v; h; len_vocab cv; d; b; n].

Definition encoder_args (ps : params) (w2v : value) (cv : vocab) : result (list value) :=
  let tag_embedding_size := VInt 20 in
  h <- subscript ps "hidden_size" ;;
  d <- subscript ps "drop" ;;
  b <- subscript ps "bidirectional" ;;
  u <- subscript ps "unfreeze" ;;
  f <- py_not u ;;
  n1 <- subscript ps "embedding_norm" ;;
  n2 <- subscript ps "embedding_norm" ;;
  Ok [w2v; tag_embedding_size; h; len_vocab cv; d; b; f; n1; n2].

Definition attention_args (ps : params) (w2v : value) (cv : vocab) : result (list value) :=
  let tag_embedding_size := VInt 5 in
  let padded_sentence_length := VInt 25 in
  h <- subscript ps "hidden_size" ;;
  d <- subscript ps "drop" ;;
  b <- subscript ps "bidirectional" ;;
  u <- subscript ps "unfreeze" ;;
  f <- py_not u ;;
  n1 <- subscript ps "embedding_norm" ;;
  n2 <- subscript ps "embedding_norm" ;;
  Ok [w2v; tag_embedding_size; h; len_vocab cv; d; b; f; n1; n2; padded_sentence_length].

Definition padded_args (ps : params) (w2v : value) (cv : vocab) : result (list value) :=
  let padded_sentence_length := VInt 25 in
  h <- subscript ps "hidden_size" ;;
  d <- subscript ps "drop" ;;
  b <- subscript ps "bidirectional" ;;
  u <- subscript ps "unfreeze" ;;
  f <- py_not u ;;
  n <- subscript ps "embedding_norm" ;;
  Ok [w2v; h; len_vocab cv; padded_sentence_length; d; b; f; n].

Definition lstmcrf_args (ps : params) (w2v : value) (cv : vocab) : result (list value) :=
  h <- subscript ps "hidden_size" ;;
  d <- subscript ps "drop" ;;
  b <- subscript ps "bidirectional" ;;
  u <- subscript ps "unfreeze" ;;
  f <- py_not u ;;
  n <- subscript ps "embedding_norm" ;;
  Ok [w2v; VVocab cv; h; d; b; f; n].

Local Open Scope py_scope.

(** A call of a class of the other architectures. *)
Definition instantiate (cls : string) (args : result (list value)) : M world (option model) :=
  a <- lift args ;;
  emit (Construct cls) ;;;
  m <- lift (construct cls a) ;;
  ret (Some (Other cls m)).

(** The chain of [if]/[elif] on [params["model"]], lines 358 to 393;
    [None] when no branch assigns [model]. *)
Definition pick_model (ps : params) (w2v c2v : value) (cv : vocab)
    : M world (option model) :=
  m <- lift (subscript ps "model") ;;
  if eq_str m "recurrent" || eq_str m "gru" || eq_str m "rnn" then
    instantiate "recurrent.Recurrent" (recurrent_args ps w2v c2v cv)
  else if eq_str m "lstm2ch" then
    instantiate "lstm_2ch.LSTMN2CH" (lstm2ch_args ps w2v cv)
  else if eq_str m "encoder" then
    a <- lift (encoder_args ps w2v cv) ;;
    emit (Construct "encoder.EncoderDecoderRNN") ;;;
    e <- lift (EncoderDecoderRNN_init a []) ;;
    ret (Some (Encoder e))
  else if eq_str m "attention" then
    instantiate "attention.Attention" (attention_args ps w2v cv)
  else if eq_str m "conv" then
    instantiate "conv.CNN" (padded_args ps w2v cv)
  else if eq_str m "init_hidden" then
    instantiate "init_hidden.INIT" (padded_args ps w2v cv)
  else if eq_str m "lstmcrf" then
    instantiate "lstmcrf.LstmCrf" (lstmcrf_args ps w2v cv)
  else ret None.

Definition pick_model_transform (ps : params)
    : M world (model * init_transform * drop_transform) :=
  emb <- lift (subscript ps "embedding") ;;
  g <- lift (w2v_matrix_vocab_generator emb) ;;
  let w2v_vocab := fst g in
  let w2v_weights_ := snd g in
  dataset <- lift (subscript ps "dataset") ;;
  let class_vocab := if eq_str dataset "movies" then Some class_vocab_movies else None in
  ce <- lift (subscript ps "char_embedding") ;;
  c2v <- lift (match ce with
               | VNone => Ok (None, VNone)
               | _ => rbind (w2v_matrix_vocab_generator ce)
                        (fun g' => Ok (Some (fst g'), snd g'))
               end) ;;
  sequence <- lift (subscript ps "sequence") ;;
  cv <- lift (local "class_vocab" class_vocab) ;;
  init_data_transform <- lift (InitTransform sequence w2v_vocab cv (fst c2v)) ;;
  unk <- lift (vocab_item w2v_vocab "<UNK>") ;;
  padding <- lift (vocab_item w2v_vocab "<padding>") ;;
  drop_data_transform <- lift (DropTransform 0.001%float unk padding) ;;
  picked <- pick_model ps w2v_weights_ (snd c2v) cv ;;
  model_ <- lift (local "model" picked) ;;
  emit (Print "total trainable parameters") ;;;
  ret (model_, init_data_transform, drop_data_transform).

(** The start of the script, lines 405 to 415: the parameters are parsed,
    then the model is built. *)
Definition main_setup (argv : list string)
    : M world (params * (model * init_transform * drop_transform)) :=
  ps <- lift (parse_args argv) ;;
  r <- pick_model_transform ps ;;
  ret (ps, r).

(** ** Tensors *)

Local Open Scope res_scope.

(** [map] of a function that may raise, left to right. *)
Fixpoint mapr {A B} (f : A -> result B) (l : list A) : result (list B) :=
  match l with
  | [] => Ok []
  | x :: l' =>
      y <- f x ;;
      ys <- mapr f l' ;;
      Ok (y :: ys)
  end.

(** Pointwise combination of two lists; it stops at the shorter. *)
Fixpoint map2 {A B C} (f : A -> B -> C) (a : list A) (b : list B) : list C :=
  match a, b with
  | x :: a', y :: b' => f x y :: map2 f a' b'
  | _, _ => []
  end.

(** [l[i] = f(l[i])] *)
Fixpoint update_at {A} (f : A -> A) (i : nat) (l : list A) : list A :=
  match l, i with
  | [], _ => []
  | x :: l', O => f x :: l'
  | x :: l', S i' => x :: update_at f i' l'
  end.

(** The rows of [c] elements of a flat sequence; [fuel] bounds their number. *)
Fixpoint chunks {A} (fuel c : nat) (flat : list A) : list (list A) :=
  match fuel with
  | O => []
  | S fuel' =>
      match flat with
      | [] => []
      | _ :: _ => firstn c flat :: chunks fuel' c (skipn c flat)
      end
  end.

(** [torch.zeros(n, 1).long()] *)
Definition zeros_long (n m : nat) : list (list Z) := repeat (repeat 0%Z m) n.

(** [torch.add(input, alpha, other)] with three positional arguments is the
    overload [input + alpha * other]: it returns a new tensor and leaves its
    arguments as they are ([out] is a keyword argument). *)
Definition torch_add (input : list (list Z)) (alpha : Z) (other : list (list Z))
    : list (list Z) :=
  map2 (map2 (fun a b => (a + alpha * b)%Z)) input other.

(** [x.size()[1]] of a tensor with at least two dimensions. *)
Definition size1 {A} (x : list (list A)) : nat :=
  match x with
  | r :: _ => length r
  | [] => 0
  end.

(** [x.unsqueeze(1)] *)
Definition unsqueeze1 {A} (x : list A) : list (list A) := map (fun e => [e]) x.

(** [x.unsqueeze(0)] *)
Definition unsqueeze0 {A} (x : A) : list A := [x].

(** [x.squeeze(1)] where dimension 1 has size one. *)
Definition squeeze1 {A} (x : list (list (list A))) : list (list A) :=
  map (@concat A) x.

(** The scalars of a floating-point tensor, with zero and the strict order. *)
Variable R : Type.
Variable Rzero : R.
Variable Rltb : R -> R -> bool.

Definition T2 : Type := list (list R).
Definition T3 : Type := list (list (list R)).
Definition T4 : Type := list (list (list (list R))).

(** [torch.zeros(a, b, c)] *)
Definition zeros (a b c : nat) : T3 := repeat (repeat (repeat Rzero c) b) a.

(** [F.relu] *)
Definition relu (x : T3) : T3 :=
  map (map (map (fun v => if Rltb v Rzero then Rzero else v))) x.

(** Index of the first largest entry after position [i], [best] at [ibest]
    being the largest so far. *)
Fixpoint argmax_from (best : R) (ibest i : nat) (row : list R) : nat :=
  match row with
  | [] => ibest
  | v :: row' =>
      if Rltb best v then argmax_from v i (S i) row'
      else argmax_from best ibest (S i) row'
  end.

(** The index that [topk(1)] and [argmax] give on one row. *)
Definition argmax (row : list R) : result Z :=
  match row with
  | [] => Raise (RuntimeError "selected index k out of range")
  | v :: row' => Ok (Z.of_nat (argmax_from v 0 1 row'))
  end.

(** [torch.argmax(predicted, dim=1)] *)
Definition argmax_dim1 (predicted : T2) : result (list Z) := mapr argmax predicted.

(** The indexes of [x.topk(1)] on an (N, 1, C) tensor: shape (N, 1, 1). *)
Definition topk1 (x : T3) : result (list (list (list Z))) :=
  mapr (mapr (fun row => i <- argmax row ;; Ok [i])) x.

(** [torch.cat(xs, dim=1)] *)
Definition cat_dim1 (xs : list T3) : result T3 :=
  match xs with
  | [] => Raise (RuntimeError "torch.cat(): expected a non-empty list of Tensors")
  | x :: rest =>
      fold_left
        (fun acc y =>
           a <- acc ;;
           if Nat.eqb (length a) (length y) then Ok (map2 (@app (list R)) a y)
           else Raise (RuntimeError "Sizes of tensors must match except in dimension 1"))
        rest (Ok x)
  end.

(** [torch.cat((a, b), dim=1)] of two matrices *)
Definition cat2_dim1 (a b : T2) : result T2 :=
  if Nat.eqb (length a) (length b) then Ok (map2 (@app R) a b)
  else Raise (RuntimeError "Sizes of tensors must match except in dimension 1").

(** [x.view(-1, c)] *)
Definition view_rows (c : Z) (x : T3) : result T2 :=
  let flat := concat (concat x) in
  if (c <=? 0)%Z then Raise (RuntimeError "invalid shape for view")
  else if Nat.eqb (length flat mod Z.to_nat c) 0
       then Ok (chunks (length flat) (Z.to_nat c) flat)
       else Raise (RuntimeError "shape is invalid for input size").

(** [x[i]] along the first dimension *)
Definition index0 {A} (x : list A) (i : nat) : result A :=
  match nth_error x i with
  | Some a => Ok a
  | None => Raise (IndexError "index out of bounds for dimension 0")
  end.

(** ** The encoder-decoder model, [models/encoder.py] *)

(** What the module holds besides the tag-embedding table: the weights of the
    other layers, the running statistics of the normalisation, the mode
    (training or evaluation) and the random generator of the dropout. *)
Variable aux : Type.

Record module_state : Type := {
  embedding_decoder_weight : T2;    (* [embedding_decoder.weight] *)
  other : aux
}.

(** The layers of the tensor library, as functions on tensors that their
    checks have let through; the checks themselves are written out where a
    layer is called.  A layer that draws random numbers or updates statistics
    returns the new [aux]; the others read it. *)
Variable embedding_encoder : list (list Z) -> aux -> T3 * aux.
Variable drop : T3 -> aux -> T3 * aux.
Variable gru_encoder : aux -> T3 -> T3 -> T3 * T3.
Variable gru_decoder : aux -> T3 -> T3 -> T3 * T3.
Variable bnorm : T4 -> aux -> T4 * aux.
Variable training : aux -> bool.          (* [self.training] *)
Variable out : aux -> list R -> list R.
Variable softmax : list R -> list R.

(** The renormalisation of one embedding vector to the maximal norm, and the
    value [nn.Embedding] gives an entry of a new table. *)
Variable renorm : list R -> list R.
Variable init_weight : nat -> nat -> R.

(** The index of the padding token. *)
Variable padding_index : Z.

Local Open Scope py_scope.

(** A layer applied to the module. *)
Definition run {A} (f : aux -> A * aux) : M module_state A :=
  fun st =>
    let (a, o) := f (other st) in
    (Ok a, {| embedding_decoder_weight := embedding_decoder_weight st; other := o |}).

Definition read {A} (f : aux -> A) : M module_state A :=
  fun st => (Ok (f (other st)), st).

(** [nn.Embedding(rows, cols)] *)
Definition new_embedding (rows cols : nat) : T2 :=
  map (fun i => map (init_weight i) (seq 0 cols)) (seq 0 rows).

(** The state of the module when the constructor returns. *)
Definition new_module (self : EncoderDecoderRNN) (o : aux) : module_state :=
  {| embedding_decoder_weight :=
       new_embedding (Z.to_nat (embedding_decoder_num self))
                     (Z.to_nat (decoder_embedding_size self));
     other := o |}.

(** The row of index [i] of an embedding table. *)
Definition embedding_row (weight : T2) (i : Z) : result (list R) :=
  if (i <? 0)%Z then Raise (IndexError "index out of range in self")
  else match nth_error weight (Z.to_nat i) with
       | Some row => Ok row
       | None => Raise (IndexError "index out of range in self")
       end.

(** The in-place renormalisation of the row of index [i]. *)
Definition renorm_row (weight : T2) (i : Z) : result T2 :=
  if (i <? 0)%Z || Nat.leb (length weight) (Z.to_nat i)
  then Raise (IndexError "index out of range in self")
  else Ok (update_at renorm (Z.to_nat i) weight).

(** Whether an embedding with this [max_norm] renormalises the rows it looks
    up: not without a norm, and a norm that is no number is refused. *)
Definition renormalises (max_norm : value) : result bool :=
  match max_norm with
  | VNone => Ok false
  | VInt _ | VFloat _ | VBool _ => Ok true
  | _ => Raise (TypeError "embedding_renorm_(): argument 'max_norm' must be float")
  end.

(** [self.embedding_encoder(data)]: every index is a row of the table. *)
Definition embedding_encoder_forward (self : EncoderDecoderRNN) (data : list (list Z))
    : M module_state T3 :=
  lift (renormalises (max_norm_emb1 self)) ;;;
  (if forallb (forallb (fun i => (0 <=? i)%Z && (i <? num_embeddings self)%Z)) data
   then ret tt else raise (IndexError "index out of range in self")) ;;;
  run (embedding_encoder data).

(** [self.embedding_decoder(input)]: the rows that are looked up are first
    renormalised in the table, when the embedding has a maximal norm, then
    read. *)
Definition embedding_decoder (self : EncoderDecoderRNN) (input : list (list Z))
    : M module_state T3 :=
  renorm_rows <- lift (renormalises (max_norm_emb2 self)) ;;
  fun st =>
    match (if renorm_rows
           then fold_left (fun w i => rbind w (fun w' => renorm_row w' i))
                          (concat input) (Ok (embedding_decoder_weight st))
           else Ok (embedding_decoder_weight st)) with
    | Raise e => (Raise e, st)
    | Ok w =>
        (mapr (mapr (embedding_row w)) input,
         {| embedding_decoder_weight := w; other := other st |})
    end.

(** A call of a recurrent layer with batch first, on an input of shape
    (N, T, _) and a hidden state: the layer refuses a hidden state that has
    not [slices] slices of N rows of [hidden_size] features, then a sequence
    without any step.  The width of the input is the layer's by construction
    (both are set from the same field of the module), so that check is left
    out. *)
Definition gru_forward (gru : aux -> T3 -> T3 -> T3 * T3) (slices : nat) (hidden_size : Z)
    (x h : T3) : M module_state (T3 * T3) :=
  if list_eq_dec (list_eq_dec Nat.eq_dec) (map shape2 h)
       (repeat (repeat (Z.to_nat hidden_size) (length x)) slices)
  then
    if Nat.eqb (size1 x) 0
    then raise (RuntimeError "Expected sequence length to be larger than 0 in RNN")
    else read (fun o => gru o x h)
  else raise (RuntimeError "Expected hidden size")%string.

(** [self.bnorm(x)] on an (N, 1, 1, hidden_dim) tensor: in training mode the
    one channel needs more than one value. *)
Definition bnorm_forward (self : EncoderDecoderRNN) (x : T4) : M module_state T4 :=
  t <- read training ;;
  if t && Nat.eqb (length x * Z.to_nat (hidden_dim self)) 1
  then raise (ValueError "Expected more than 1 value per channel when training")
  else run (bnorm x).

(** [init_hidden_encoder]; the recurrent layer has one layer. *)
Definition init_hidden_encoder (self : EncoderDecoderRNN) (batch_size : nat) : T3 :=
  let num_layers := 1 in
  if bidirectional self
  then zeros (num_layers * 2) batch_size (Z.to_nat (hidden_dim self / 2))
  else zeros num_layers batch_size (Z.to_nat (hidden_dim self)).

Definition decoder_forward (self : EncoderDecoderRNN) (starting_input : list (list Z))
    (hidden : T3) : M module_state (T3 * T3) :=
  tag_embedded <- embedding_decoder self starting_input ;;
  tag_embedded <- run (drop tag_embedded) ;;
  let decoder_input := relu tag_embedded in
  g <- gru_forward gru_decoder 1 (hidden_dim self) decoder_input hidden ;;
  let decoder_output := fst g in
  let hidden := snd g in
  decoder_output <- bnorm_forward self (unsqueeze1 decoder_output) ;;
  let decoder_output := squeeze1 decoder_output in
  decoder_output <- run (drop decoder_output) ;;
  decoder_output <- read (fun o => map (map (out o)) decoder_output) ;;
  let decoder_output := map (map softmax) decoder_output in
  ret (decoder_output, hidden).

(** The variables the decoding loop updates. *)
Record decoder_state : Type := {
  decoder_input : list (list Z);
  hidden_decoder : T3;
  results : list T3
}.

(** The body of the loop, lines 109 to 113. *)
Definition decode_step (self : EncoderDecoderRNN) (d : decoder_state)
    : M module_state decoder_state :=
  r <- decoder_forward self (decoder_input d) (hidden_decoder d) ;;
  let decoder_output := fst r in
  topi <- lift (topk1 decoder_output) ;;
  ret {| decoder_input := squeeze1 topi;
         hidden_decoder := snd r;
         results := results d ++ [decoder_output] |}.

(** [for di in range(n)] *)
Fixpoint for_range {S A} (n : nat) (body : A -> M S A) (a : A) : M S A :=
  match n with
  | O => ret a
  | S n' => a' <- body a ;; for_range n' body a'
  end.

(** The first input of the decoder, lines 96 to 98. *)
Definition start_input (self : EncoderDecoderRNN) (batch_size : nat) : list (list Z) :=
  let decoder_input := zeros_long batch_size 1 in
  let _ := torch_add decoder_input (tagset_size self) decoder_input in
  decoder_input.

(** The hand-over of the hidden state, lines 101 to 104. *)
Definition bridge (self : EncoderDecoderRNN) (hidden_encoder : T3) : result T3 :=
  if bidirectional self then
    rbind (index0 hidden_encoder 0) (fun h0 =>
    rbind (index0 hidden_encoder 1) (fun h1 =>
    rbind (cat2_dim1 h0 h1) (fun h => Ok (unsqueeze0 h))))
  else Ok hidden_encoder.

(** [forward] up to the end of the decoding loop, lines 85 to 113: the state
    of the loop and the gold labels.  [self] is a module, an object that the
    constructor returned. *)
Definition forward_decode (self : EncoderDecoderRNN) (b : batch)
    : M module_state (decoder_state * list (list Z)) :=
  let hidden_encoder := init_hidden_encoder self (length b) in
  let packed := batch_sequence padding_index b in
  let data := fst (fst packed) in
  let labels := snd (fst packed) in
  data <- embedding_encoder_forward self data ;;
  data <- run (drop data) ;;
  e <- gru_forward gru_encoder (if bidirectional self then 2 else 1)
         (gru_encoder_hidden_size self) data hidden_encoder ;;
  let encoder_output := fst e in
  let hidden_encoder := snd e in
  let decoder_input := start_input self (length b) in
  hidden_decoder <- lift (bridge self hidden_encoder) ;;
  d <- for_range (size1 encoder_output) (decode_step self)
         {| decoder_input := decoder_input;
            hidden_decoder := hidden_decoder;
            results := [] |} ;;
  ret (d, labels).

Definition forward (self : EncoderDecoderRNN) (b : batch) : M module_state (T2 * list Z) :=
  dl <- forward_decode self b ;;
  results <- lift (cat_dim1 (results (fst dl))) ;;
  logp <- lift (view_rows (tagset_size self) results) ;;
  ret (logp, concat (snd dl)).

(** The batches that the layers of a module accept: there is a token, every
    token index and the padding index are rows of the table of token
    embeddings, and the normalisation gets more than one value. *)
Definition accepted (self : EncoderDecoderRNN) (b : batch) : Prop :=
  0 < max_length b /\
  Forall (Forall (fun tl => (0 <= fst tl < num_embeddings self)%Z)) b /\
  (0 <= padding_index < num_embeddings self)%Z /\
  (1 < Z.of_nat (length b) * hidden_dim self)%Z.

(** ** The training and evaluation loops *)

(** The other model classes, the loss, the gradient computation, the
    optimiser, the scheduler and the data loader.  [DataLoader data batch_size
    k] is the sequence of batches of the [k]-th pass over a shuffling loader
    that could be built. *)
Variable other_call : other_model -> batch -> M module_state (T2 * list Z).
Variable crf_call : other_model -> batch -> M module_state (list Z * list Z).
Variable neg_log_likelihood : other_model -> batch -> M module_state R.
Variable nll_loss : T2 -> list Z -> result R.
Variable backward : R -> M module_state unit.
Variable optimizer_step : module_state -> module_state.
Variable zero_grad : module_state -> module_state.
Variable scheduler_step : float -> module_state -> module_state.
Variable set_training : bool -> module_state -> module_state.
Variable loss_item : R -> float.
Variable np_mean : list float -> float.
Variable DataLoader : list example -> Z -> nat -> list batch.

(** The global [params] of the script. *)
Variable global_params : params.

(** What the loops act on: files and effects, the module with its optimiser,
    and the number of passes the loaders have made. *)
Record trainer : Type := {
  tworld : world;
  tnet : module_state;
  passes : nat
}.

Definition in_world {A} (m : M world A) : M trainer A :=
  fun t => let (r, w) := m (tworld t) in
           (r, {| tworld := w; tnet := tnet t; passes := passes t |}).

Definition in_net {A} (m : M module_state A) : M trainer A :=
  fun t => let (r, n) := m (tnet t) in
           (r, {| tworld := tworld t; tnet := n; passes := passes t |}).

(** An operation on the module, recorded as the event [e]. *)
Definition net_do (e : event) (f : module_state -> module_state) : M trainer unit :=
  in_net (modify f) ;;; in_world (emit e).

(** [DataLoader(data, batch_size, shuffle=True, ...)]: the sampler of a
    shuffling loader needs data to draw from, and a batch has a positive
    size. *)
Definition new_loader (data : list example) (batch_size : Z) : result unit :=
  match data with
  | [] => Raise (ValueError "num_samples should be a positive integer value, but got num_samples=0")
  | _ :: _ =>
      if (batch_size <=? 0)%Z
      then Raise (ValueError "batch_size should be a positive integer value")
      else Ok tt
  end.

(** A learning rate or a weight decay of [torch.optim.Adam] is a number that
    is not negative. *)
Definition not_negative (what : string) (v : value) : result unit :=
  match v with
  | VFloat x => if PrimFloat.leb 0%float x then Ok tt else Raise (ValueError what)
  | VInt z => if (0 <=? z)%Z then Ok tt else Raise (ValueError what)
  | VBool _ => Ok tt
  | VArray _ _ =>
      Raise (ValueError "The truth value of an array with more than one element is ambiguous")
  | _ => Raise (TypeError "'<=' not supported between instances")
  end.

(** [torch.optim.Adam(..., lr=lr, amsgrad=True, weight_decay=decay)] *)
Definition Adam (lr decay : value) : result unit :=
  rbind (not_negative "Invalid learning rate" lr)
        (fun _ => not_negative "Invalid weight_decay value" decay).

(** [for batch in dataloader]: the batches of the next pass. *)
Definition next_pass (data : list example) (batch_size : Z) : M trainer (list batch) :=
  fun t => (Ok (DataLoader data batch_size (passes t)),
            {| tworld := tworld t; tnet := tnet t; passes := S (passes t) |}).

(** [model(batch)] of a model that returns scores. *)
Definition model_call (m : model) (b : batch) : M module_state (T2 * list Z) :=
  match m with
  | Encoder e => forward e b
  | Other _ o => other_call o b
  end.

Definition write_predictions_params : list param :=
  [ required "tokens"; required "labels"; required "predictions"; required "path";
    required "indexed_labels"; required "class_vocab" ].

(** A call [write_predictions(...)] with positional arguments. *)
Definition call_write_predictions (args : list value) : M fs unit :=
  env <- lift (bind_args "write_predictions" write_predictions_params args) ;;
  match arg env "class_vocab" with
  | VVocab cv =>
      match arg env "tokens", arg env "labels", arg env "predictions", arg env "path" with
      | VSeqs t, VSeqs l, VSeqs p, VStr path =>
          i <- lift (truth (arg env "indexed_labels")) ;;
          write_predictions t l p path i cv
      | _, _, _, _ => raise (TypeError "write_predictions: argument of the wrong type")
      end
  | _ => raise (AttributeError "object has no attribute 'items'")
  end.

(** A list of label sequences as an argument. *)
Definition seqs (l : list (list Z)) : value := VSeqs (map (map IInt) l).

(** [template % v] for a template without conversion: only a mapping passes. *)
Definition format_plain (template : string) (v : value) : result string :=
  match v with
  | VVocab _ => Ok template
  | _ => Raise (TypeError "not all arguments converted during string formatting")
  end.

(** [os.system("rm " + path)] *)
Definition fs_remove (path : string) : M fs unit :=
  modify (filter (fun kv => negb (String.eqb (fst kv) path))).

(** What an epoch, or an evaluation, accumulates. *)
Record tally : Type := {
  error : list float;
  preds : list (list Z);      (* [y_predicted] *)
  golds : list (list Z)       (* [y_true] *)
}.

Definition no_tally : tally := {| error := []; preds := []; golds := [] |}.

(** The body of the loop of [evaluate_model], lines 93 to 114. *)
Definition evaluate_batch (m : model) (acc : tally) (b : batch) : M trainer tally :=
  match m with
  | Other cls o =>
      if String.eqb cls "lstmcrf.LstmCrf" then
        r <- in_net (crf_call o b) ;;
        in_world (emit Forward) ;;;
        let g := regroup_batch (fst r) (snd r) (preds acc) (golds acc) in
        ret {| error := error acc; preds := fst g; golds := snd g |}
      else
        r <- in_net (other_call o b) ;;
        in_world (emit Forward) ;;;
        loss <- lift (nll_loss (fst r) (snd r)) ;;
        in_world (emit NllLoss) ;;;
        predicted <- lift (argmax_dim1 (fst r)) ;;
        let g := regroup_batch predicted (snd r) (preds acc) (golds acc) in
        ret {| error := error acc ++ [loss_item loss]; preds := fst g; golds := snd g |}
  | Encoder e =>
      r <- in_net (forward e b) ;;
      in_world (emit Forward) ;;;
      loss <- lift (nll_loss (fst r) (snd r)) ;;
      in_world (emit NllLoss) ;;;
      predicted <- lift (argmax_dim1 (fst r)) ;;
      let g := regroup_batch predicted (snd r) (preds acc) (golds acc) in
      ret {| error := error acc ++ [loss_item loss]; preds := fst g; golds := snd g |}
  end.

(** A loop over a list with an accumulator. *)
Fixpoint for_each {S A B} (body : A -> B -> M S A) (l : list B) (a : A) : M S A :=
  match l with
  | [] => ret a
  | x :: l' => a' <- body a x ;; for_each body l' a'
  end.

Definition evaluate_model (dev_data : list example) (m : model) (batch_size : Z)
    : M trainer unit :=
  lift (new_loader dev_data batch_size) ;;;
  batches <- next_pass dev_data batch_size ;;
  acc <- for_each (evaluate_batch m) batches no_tally ;;
  (if negb (is_LstmCrf m) then in_world (emit (Print "Dev   error")) else ret tt) ;;;
  in_world (emit (Print "Dev stats:")) ;;;
  dataset <- lift (subscript global_params "dataset") ;;
  let class_vocab := if eq_str dataset "movies" then Some class_vocab_movies else None in
  cv <- lift (local "class_vocab" class_vocab) ;;
  in_world (with_files (call_write_predictions
    [seqs (golds acc); seqs (golds acc); seqs (preds acc);
     VStr "../output/dev_pred.txt"; VBool true; VVocab cv])) ;;;
  dataset <- lift (subscript global_params "dataset") ;;
  in_world (emit (System "../output/%s/conlleval.pl < ../output/dev_pred.txt | head -n2"
                         [dataset])) ;;;
  in_world (with_files (fs_remove "../output/dev_pred.txt")) ;;;
  in_world (emit (System "rm ../output/dev_pred.txt" [])).

(** The body of the inner loop of [train_model], lines 164 to 190. *)
Definition train_batch (m : model) (acc : tally) (b : batch) : M trainer tally :=
  lg <- (match m with
         | Other cls o =>
             if String.eqb cls "lstmcrf.LstmCrf" then
               loss <- in_net (neg_log_likelihood o b) ;;
               in_world (emit NegLogLikelihood) ;;;
               ret (loss, (preds acc, golds acc))
             else
               r <- in_net (other_call o b) ;;
               in_world (emit Forward) ;;;
               loss <- lift (nll_loss (fst r) (snd r)) ;;
               in_world (emit NllLoss) ;;;
               indices <- lift (argmax_dim1 (fst r)) ;;
               ret (loss, regroup_batch indices (snd r) (preds acc) (golds acc))
         | Encoder e =>
             r <- in_net (forward e b) ;;
             in_world (emit Forward) ;;;
             loss <- lift (nll_loss (fst r) (snd r)) ;;
             in_world (emit NllLoss) ;;;
             indices <- lift (argmax_dim1 (fst r)) ;;
             ret (loss, regroup_batch indices (snd r) (preds acc) (golds acc))
         end) ;;
  let loss := fst lg in
  in_net (backward loss) ;;;
  in_world (emit Backward) ;;;
  net_do OptimizerStep optimizer_step ;;;
  net_do ZeroGrad zero_grad ;;;
  in_world (emit RecordLoss) ;;;
  ret {| error := error acc ++ [loss_item loss];
         preds := fst (snd lg); golds := snd (snd lg) |}.

(** One iteration of [for epoch in range(epochs)], lines 153 to 209. *)
Definition train_epoch (train_data : list example) (m : model)
    (dev_data : option (list example)) (batch_size : Z) (_ : unit) : M trainer unit :=
  net_do ZeroGrad zero_grad ;;;
  batches <- next_pass train_data batch_size ;;
  acc <- for_each (train_batch m) batches no_tally ;;
  net_do SchedulerStep (scheduler_step (np_mean (error acc))) ;;;
  in_world (emit (Print "----- Training epoch stats for epoch -----")) ;;;
  in_world (emit (Print "Seconds for epoch")) ;;;
  in_world (emit (Print "Train error")) ;;;
  (if negb (is_LstmCrf m) then
     in_world (emit (Print "Train stats:")) ;;;
     in_world (with_files (call_write_predictions
       [seqs (golds acc); seqs (golds acc); seqs (preds acc);
        VStr "../output/train_pred.txt"])) ;;;
     dataset <- lift (subscript global_params "dataset") ;;
     cmd <- lift (format_plain
              "../output/conlleval.pl < ../output/train_pred.txt | head -n2" dataset) ;;
     in_world (emit (System cmd [])) ;;;
     in_world (with_files (fs_remove "../output/train_pred.txt")) ;;;
     in_world (emit (System "rm ../output/train_pred.txt" []))
   else ret tt) ;;;
  match dev_data with
  | Some dev =>
      net_do EvalMode (set_training false) ;;;
      evaluate_model dev m batch_size ;;;
      net_do TrainMode (set_training true)
  | None => ret tt
  end.

Definition train_model (train_data : list example) (m : model)
    (dev_data : option (list example)) (batch_size : Z) (lr : value) (epochs : nat)
    (decay : value) : M trainer unit :=
  lift (Adam lr decay) ;;;
  lift (new_loader train_data batch_size) ;;;
  for_range epochs (train_epoch train_data m dev_data batch_size) tt ;;;
  in_world (emit (Print "total time")).

(** ** [predict] and the rest of the script *)

(** The body of the loop of [predict], lines 41 to 52, on the batch [[x]]. *)
Definition predict_batch (m : model) (y_predicted : list (list Z)) (x : example)
    : M module_state (list (list Z)) :=
  match m with
  | Other cls o =>
      if String.eqb cls "lstmcrf.LstmCrf" then
        r <- crf_call o [x] ;;
        ret (y_predicted ++ [fst r])
      else
        r <- other_call o [x] ;;
        predicted <- lift (argmax_dim1 (fst r)) ;;
        ret (y_predicted ++ [predicted])
  | Encoder e =>
      r <- forward e [x] ;;
      predicted <- lift (argmax_dim1 (fst r)) ;;
      ret (y_predicted ++ [predicted])
  end.

(** [predict]: the loader gives batches of one example in the order of the
    data. *)
Definition predict (m : model) (data : list example) : M module_state (list (list Z)) :=
  for_each (predict_batch m) data [].

(** The data sets of [data_manager], the pickled test table with its columns
    of tokens and of concepts, and the bytes [torch.save] writes. *)
Variable pytorch_dataset :
  list string -> init_transform -> option drop_transform -> result (list example).
Variable read_pickle : string -> result (list (list item) * list (list item)).
Variable state_dict : module_state -> string.

(** The arguments [params["batch"]], [params["lr"]], [params["epochs"]] and
    [params["decay"]] of a call of [train_model]. *)
Record train_args : Type := {
  batch_arg : Z;
  lr_arg : value;
  epochs_arg : nat;
  decay_arg : value
}.

Definition training_args : result train_args :=
  rbind (subscript global_params "batch") (fun b =>
  rbind (subscript global_params "lr") (fun lr =>
  rbind (subscript global_params "epochs") (fun e =>
  rbind (subscript global_params "decay") (fun decay =>
  rbind (as_int b) (fun batch_size =>
  rbind (as_int e) (fun epochs =>
  Ok {| batch_arg := batch_size; lr_arg := lr;
        epochs_arg := Z.to_nat epochs; decay_arg := decay |})))))).

(** The script after [params = parse_args(sys.argv[1:])], lines 407 to 452,
    [params] being the global [global_params].  The lists of pickles and the
    class vocabulary are bound for the dataset movies only; a name of the
    script that is read unbound gives a [NameError], for which the model has
    the constructor of its subclass [UnboundLocalError]. *)
Definition script : M trainer unit :=
  r <- in_world (pick_model_transform global_params) ;;
  let model_ := fst (fst r) in
  let init_data_transform := snd (fst r) in
  let run_data_transform := snd r in
  dev <- lift (rbind (subscript global_params "dev") truth) ;;
  dataset <- lift (subscript global_params "dataset") ;;
  if dev then
    let pickles :=
      if eq_str dataset "movies"
      then Some (["../data/movies/train_split.pickle"], ["../data/movies/dev.pickle"])
      else None in
    train_pickle <- lift (local "train_pickle" (option_map fst pickles)) ;;
    train_data <- lift (pytorch_dataset train_pickle init_data_transform
                          (Some run_data_transform)) ;;
    dev_pickle <- lift (local "dev_pickle" (option_map snd pickles)) ;;
    dev_data <- lift (pytorch_dataset dev_pickle init_data_transform None) ;;
    in_world (emit (Print "training")) ;;;
    a <- lift training_args ;;
    train_model train_data model_ (Some dev_data)
      (batch_arg a) (lr_arg a) (epochs_arg a) (decay_arg a)
  else
    let pickles :=
      if eq_str dataset "movies"
      then Some (["../data/movies/train.pickle"; "../data/dev.pickle"],
                 ["../data/movies/test.pickle"])
      else None in
    let class_vocab := if eq_str dataset "movies" then Some class_vocab_movies else None in
    train_pickles <- lift (local "train_pickles" (option_map fst pickles)) ;;
    train_data <- lift (pytorch_dataset train_pickles init_data_transform
                          (Some run_data_transform)) ;;
    in_world (emit (Print "training")) ;;;
    a <- lift training_args ;;
    train_model train_data model_ None
      (batch_arg a) (lr_arg a) (epochs_arg a) (decay_arg a) ;;;
    in_world (emit (Print "testing")) ;;;
    test_pickle <- lift (local "test_pickle" (option_map snd pickles)) ;;
    test_data <- lift (pytorch_dataset test_pickle init_data_transform None) ;;
    table <- lift (read_pickle "../data/test.pickle") ;;
    net_do EvalMode (set_training false) ;;;
    predictions <- in_net (predict model_ test_data) ;;
    write <- lift (subscript global_params "write") ;;
    (match write with
     | VNone => ret tt
     | _ =>
         cv <- lift (local "class_vocab" class_vocab) ;;
         in_world (with_files (call_write_predictions
           [VSeqs (fst table); VSeqs (snd table); seqs predictions; write;
            VBool false; VVocab cv]))
     end) ;;;
    save <- lift (subscript global_params "save") ;;
    match save with
    | VNone => ret tt
    | VStr path =>
        fun t => in_world (with_files (fs_open path ;;; fs_write path (state_dict (tnet t)))) t
    | _ => raise (TypeError "expected a path")
    end.

(** * Properties of the launcher *)

Lemma raises_bind {S A B} (m : M S A) (k : A -> M S B) (s : S) :
  (forall a s', m s = (Ok a, s') -> raises (k a) s') -> raises (bind m k) s.
Proof.
  intros H. unfold raises, bind in *.
  destruct (m s) as [[a | e] s'] eqn:E.
  - exact (H a s' eq_refl).
  - now exists e, s'.
Qed.

Lemma bind_Ok_inv {S A B} (m : M S A) (k : A -> M S B) (s s2 : S) (b : B) :
  bind m k s = (Ok b, s2) -> exists a s1, m s = (Ok a, s1) /\ k a s1 = (Ok b, s2).
Proof.
  unfold bind. destruct (m s) as [[a | e] s1]; [eauto | discriminate].
Qed.

Lemma rbind_Ok_inv {A B} (r : result A) (k : A -> result B) (b : B) :
  rbind r k = Ok b -> exists a, r = Ok a /\ k a = Ok b.
Proof.
  destruct r as [a | e]; [eauto | discriminate].
Qed.

Lemma lift_Ok {S A} (r : result A) (a : A) (s s' : S) :
  lift r s = (Ok a, s') -> r = Ok a /\ s' = s.
Proof.
  unfold lift. intros H. now inversion H.
Qed.

Lemma encoder_args_form (ps : params) (w2v : value) (cv : vocab) (a : list value) :
  encoder_args ps w2v cv = Ok a ->
  exists h d b f n1 n2, a = [w2v; VInt 20; h; len_vocab cv; d; b; f; n1; n2].
Proof.
  unfold encoder_args, py_not, rbind. intros H.
  destruct (subscript ps "hidden_size") as [h|]; [|discriminate].
  destruct (subscript ps "drop") as [d|]; [|discriminate].
  destruct (subscript ps "bidirectional") as [b|]; [|discriminate].
  destruct (subscript ps "unfreeze") as [u|]; [|discriminate].
  destruct (truth u) as [t|]; [|discriminate].
  destruct (subscript ps "embedding_norm") as [n|]; [|discriminate].
  inversion H. now exists h, d, b, (VBool (negb t)), n, n.
Qed.

(** The nine positional arguments of the call are bound one parameter too
    early: the weights to [device], the tag-embedding size to [w2v_weights],
    and so on; [max_norm_emb2] keeps its default. *)
Lemma encoder_call_binding (w h c d b f n1 n2 : value) :
  bind_call "__init__" EncoderDecoderRNN_params [w; VInt 20; h; c; d; b; f; n1; n2] []
  = Ok [ ("device", w); ("w2v_weights", VInt 20); ("decoder_embedding_size", h);
         ("hidden_dim", c); ("tagset_size", d); ("drop_rate", b);
         ("bidirectional", f); ("freeze", n1); ("max_norm_emb1", n2);
         ("max_norm_emb2", VInt 10) ].
Proof. reflexivity. Qed.

Lemma encoder_call_raises (w h c d b f n1 n2 : value) :
  EncoderDecoderRNN_init [w; VInt 20; h; c; d; b; f; n1; n2] []
  = Raise (AttributeError "object has no attribute 'shape'").
Proof. reflexivity. Qed.

(** The branch of the encoder: when the arguments of the call can be
    evaluated the class is instantiated and its constructor raises. *)
Lemma pick_model_encoder (ps : params) (w2v c2v : value) (cv : vocab) (w : world) :
  dict_get String.eqb ps "model" = Some (VStr "encoder") ->
  pick_model ps w2v c2v cv w
  = match encoder_args ps w2v cv with
    | Ok _ =>
        (Raise (AttributeError "object has no attribute 'shape'"),
         {| files := files w; log := log w ++ [Construct "encoder.EncoderDecoderRNN"] |})
    | Raise e => (Raise e, w)
    end.
Proof.
  intros Hm. unfold pick_model. unfold bind at 1, lift, subscript. rewrite Hm.
  cbn [eq_str String.eqb Ascii.eqb Bool.eqb orb].
  unfold bind at 1, lift.
  destruct (encoder_args ps w2v cv) as [args | e] eqn:Ha; [| reflexivity].
  destruct (encoder_args_form _ _ _ _ Ha) as (h & d & b & f & n1 & n2 & ->).
  unfold bind at 1, emit, modify. unfold bind at 1, lift.
  now rewrite encoder_call_raises.
Qed.

Lemma bind_Raise_inv {S A B} (m : M S A) (k : A -> M S B) (s s2 : S) (e : exn) :
  bind m k s = (Raise e, s2) ->
  m s = (Raise e, s2) \/ exists a s1, m s = (Ok a, s1) /\ k a s1 = (Raise e, s2).
Proof.
  unfold bind. destruct (m s) as [[a | e'] s1]; intros H; [right; eauto | left; now inversion H].
Qed.

Lemma lift_Raise {S A} (r : result A) (e : exn) (s s' : S) :
  lift r s = (Raise e, s') -> s' = s.
Proof.
  unfold lift. intros H. now inversion H.
Qed.

(** C3.  With [model] set to [encoder], [pick_model_transform] raises and
    returns no model, whatever the other parameters and collaborators.  The
    arguments of the call of [EncoderDecoderRNN] are bound one parameter too
    early, so that the constructor fails on the shape of an integer: when the
    arguments can be evaluated the class is instantiated and the run ends in
    that exception, and an exception of [pick_model_transform] is either that
    one, raised after the class was instantiated, or was raised before any
    class was. *)
Theorem pick_model_transform_encoder_raises (ps : params) (w : world) :
  dict_get String.eqb ps "model" = Some (VStr "encoder") ->
  raises (pick_model_transform ps) w /\
  (forall w2v cv a, encoder_args ps w2v cv = Ok a ->
     EncoderDecoderRNN_init a [] = Raise (AttributeError "object has no attribute 'shape'") /\
     exists env, bind_call "__init__" EncoderDecoderRNN_params a [] = Ok env /\
                 arg env "device" = w2v /\ arg env "w2v_weights" = VInt 20) /\
  (forall w2v c2v cv w0 a, encoder_args ps w2v cv = Ok a ->
     pick_model ps w2v c2v cv w0
     = (Raise (AttributeError "object has no attribute 'shape'"),
        {| files := files w0;
           log := log w0 ++ [Construct "encoder.EncoderDecoderRNN"] |})) /\
  (forall e w', pick_model_transform ps w = (Raise e, w') ->
     files w' = files w /\
     (log w' = log w \/
      log w' = log w ++ [Construct "encoder.EncoderDecoderRNN"] /\
      e = AttributeError "object has no attribute 'shape'")).
Proof.
  intros Hm.
  assert (Hnot : forall w2v c2v cv w0 r w1, pick_model ps w2v c2v cv w0 <> (Ok r, w1)).
  { intros w2v c2v cv w0 r w1. rewrite (pick_model_encoder _ _ _ _ _ Hm).
    destruct (encoder_args ps w2v cv); discriminate. }
  split; [| split; [| split]].
  - unfold pick_model_transform.
    repeat (apply raises_bind; intros ? ? ?).
    match goal with
    | H : pick_model _ _ _ _ _ = (Ok _, _) |- _ => exfalso; exact (Hnot _ _ _ _ _ _ H)
    end.
  - intros w2v cv a Ha.
    destruct (encoder_args_form _ _ _ _ Ha) as (h & d & b & f & n1 & n2 & ->).
    split; [reflexivity |].
    eexists. split; [apply encoder_call_binding |]. split; reflexivity.
  - intros w2v c2v cv w0 a Ha. rewrite (pick_model_encoder _ _ _ _ _ Hm). now rewrite Ha.
  - intros e w' H. unfold pick_model_transform in H.
    repeat match type of H with
           | bind (lift _) _ _ = (Raise _, _) =>
               apply bind_Raise_inv in H;
               destruct H as [H | (? & ? & Hl & H)];
               [apply lift_Raise in H; subst w'; split; [reflexivity | now left] |
                apply lift_Ok in Hl; destruct Hl as [_ ->]]
           end.
    apply bind_Raise_inv in H. destruct H as [H | (r & w1 & H & _)];
      [| exfalso; exact (Hnot _ _ _ _ _ _ H)].
    rewrite (pick_model_encoder _ _ _ _ _ Hm) in H.
    destruct (encoder_args ps _ _); inversion H; subst; cbn [files log].
    + split; [reflexivity |]. right. now split.
    + split; [reflexivity | now left].
Qed.

Lemma assert_true (b : bool) (msg : string) : b = true -> assert b msg = Ok tt.
Proof. now intros ->. Qed.

(** C9.  Once the options are read, [--help] is absent and the numbers
    convert, [parse_args] returns the parameters when the configuration is
    valid, a positive hidden size included, and otherwise fails on an
    assertion, so the start of the script fails with it and constructs no
    model. *)
Theorem parse_args_valid (argv rest : list string) (o : list (string * string))
    (lr drop_ decay embedding_norm : float) (batch_ epochs hidden_size : Z) :
  let opts := dict_of o in
  let sequence := get_or_empty opts "--sequence" in
  let model_ := get_or_empty opts "--model" in
  let dataset := get_or_empty opts "--dataset" in
  getopt argv longopts = Ok (o, rest) ->
  dict_mem String.eqb opts "--help" = false ->
  get_float opts "--lr" 0.01%float = Ok lr ->
  get_float opts "--drop" 0.00%float = Ok drop_ ->
  get_float opts "--decay" 0.00%float = Ok decay ->
  get_float opts "--embedding_norm" 10.00%float = Ok embedding_norm ->
  get_int opts "--batch" 80 = Ok batch_ ->
  get_int opts "--epochs" 30 = Ok epochs ->
  get_int opts "--hidden_size" 200 = Ok hidden_size ->
  (valid_config lr drop_ decay embedding_norm batch_ epochs hidden_size
     sequence model_ dataset = true ->
   exists res, parse_args argv = Ok res /\
     subscript res "lr" = Ok (VFloat lr) /\
     subscript res "drop" = Ok (VFloat drop_) /\
     subscript res "decay" = Ok (VFloat decay) /\
     subscript res "embedding_norm" = Ok (VFloat embedding_norm) /\
     subscript res "batch" = Ok (VInt batch_) /\
     subscript res "epochs" = Ok (VInt epochs) /\
     subscript res "hidden_size" = Ok (VInt hidden_size) /\
     subscript res "model" = Ok (VStr model_) /\
     subscript res "dataset" = Ok (VStr dataset) /\
     subscript res "sequence" = Ok (VStr sequence)) /\
  (valid_config lr drop_ decay embedding_norm batch_ epochs hidden_size
     sequence model_ dataset = false ->
   exists msg, parse_args argv = Raise (AssertionError msg) /\
     forall w, main_setup argv w = (Raise (AssertionError msg), w)).
Proof.
  intros opts sequence model_ dataset Hg Hh Hlr Hdrop Hdecay Hnorm Hbatch Hepochs Hhidden.
  assert (Hp : parse_args argv = parse_opts opts).
  { unfold parse_args. rewrite Hg. fold opts. now rewrite Hh. }
  assert (Hs : forall e, parse_args argv = Raise e ->
                 forall w, main_setup argv w = (Raise e, w)).
  { intros e He w. unfold main_setup, bind, lift. now rewrite He. }
  unfold valid_config, listed_valid. split; intros Hv.
  - repeat (apply andb_prop in Hv; destruct Hv as [Hv ?]).
    eexists. split.
    + rewrite Hp. unfold parse_opts.
      rewrite Hlr, Hdrop, Hdecay, Hnorm, Hbatch, Hepochs, Hhidden.
      fold sequence model_ dataset.
      cbn [rbind]. repeat (rewrite assert_true by assumption; cbn [rbind]).
      reflexivity.
    + repeat split; reflexivity.
  - assert (Hcases : exists msg, parse_opts opts = Raise (AssertionError msg)).
    { unfold parse_opts.
      rewrite Hlr, Hdrop, Hdecay, Hnorm, Hbatch, Hepochs, Hhidden.
      fold sequence model_ dataset. cbn [rbind].
      repeat match goal with
             | |- context [assert ?b ?m] =>
                 destruct b eqn:?; cbn [assert rbind];
                 [| eexists; reflexivity]
             end.
      simpl in Hv. discriminate. }
    destruct Hcases as [msg Hmsg]. exists msg. rewrite Hp. split; [exact Hmsg |].
    apply Hs. now rewrite Hp.
Qed.

(** * Properties of the training loop *)

(** The call of line 201 gives four of the six arguments. *)
Lemma call_write_predictions_four (a b c d : value) (files : fs) :
  call_write_predictions [a; b; c; d] files
  = (Raise (TypeError "write_predictions() missing required positional argument: indexed_labels"),
     files).
Proof. reflexivity. Qed.

Lemma train_epoch_raises (train_data : list example) (m : model)
    (dev_data : option (list example)) (batch_size : Z) (t : trainer) :
  is_LstmCrf m = false ->
  raises (train_epoch train_data m dev_data batch_size tt) t.
Proof.
  intros Hm. unfold train_epoch. rewrite Hm. cbn [negb].
  repeat (apply raises_bind; intros ? ? ?).
  match goal with
  | H : bind _ _ _ = (Ok _, _) |- _ =>
      apply bind_Ok_inv in H; destruct H as (? & ? & _ & H);
      apply bind_Ok_inv in H; destruct H as (? & ? & H & _);
      unfold in_world, with_files in H; rewrite call_write_predictions_four in H;
      discriminate H
  end.
Qed.

(** C2.  For a model that is not the CRF and at least one epoch,
    [train_model] does not return: the first epoch ends in an exception. *)
Theorem train_model_raises (train_data : list example) (m : model)
    (dev_data : option (list example)) (batch_size : Z) (lr : value) (epochs : nat)
    (decay : value) (t : trainer) :
  is_LstmCrf m = false ->
  0 < epochs ->
  raises (train_model train_data m dev_data batch_size lr epochs decay) t.
Proof.
  intros Hm He. destruct epochs as [|n]; [lia |].
  unfold train_model. apply raises_bind. intros [] t0 Hl0.
  apply lift_Ok in Hl0. destruct Hl0 as [_ ->].
  apply raises_bind. intros [] t1 Hl.
  apply lift_Ok in Hl. destruct Hl as [_ ->]. cbn [for_range].
  destruct (train_epoch_raises train_data m dev_data batch_size t Hm) as (e & t' & H).
  exists e, t'. unfold bind at 1. unfold bind at 1. now rewrite H.
Qed.

(** * Properties of the encoder-decoder model *)

Lemma shape2_map {A B} (f : list A -> list B) (x : list (list A)) :
  (forall r, length (f r) = length r) -> shape2 (map f x) = shape2 x.
Proof.
  intros Hf. unfold shape2. rewrite map_map. apply map_ext. exact Hf.
Qed.

Lemma shape2_length {A} (x : list (list A)) (n k : nat) :
  shape2 x = repeat k n -> length x = n.
Proof.
  intros H. apply (f_equal (@length nat)) in H.
  unfold shape2 in H. now rewrite length_map, repeat_length in H.
Qed.

Lemma shape2_rows {A} (x : list (list A)) (n k : nat) :
  shape2 x = repeat k n -> Forall (fun r => length r = k) x.
Proof.
  revert n. induction x as [|r x IH]; intros n H; [constructor |].
  destruct n as [|n]; [discriminate |]. cbn in H. injection H as H1 H2.
  constructor; [exact H1 | exact (IH n H2)].
Qed.

Lemma argmax_from_bound (row : list R) (best : R) (ibest i : nat) :
  ibest < i -> argmax_from best ibest i row < i + length row.
Proof.
  revert best ibest i. induction row as [|v row IH]; intros best ibest i Hi; cbn [argmax_from length].
  - lia.
  - destruct (Rltb best v).
    + specialize (IH v i (S i)). lia.
    + specialize (IH best ibest (S i)). lia.
Qed.

Lemma argmax_bound (row : list R) :
  row <> [] ->
  exists i, argmax row = Ok i /\ (0 <= i < Z.of_nat (length row))%Z.
Proof.
  destruct row as [|v row]; [congruence | intros _].
  eexists. split; [reflexivity |].
  pose proof (argmax_from_bound row v 0 1). cbn [length]. lia.
Qed.

Lemma update_at_length {A} (f : A -> A) (i : nat) (l : list A) :
  length (update_at f i l) = length l.
Proof.
  revert i. induction l as [|x l IH]; intros [|i]; cbn [update_at length]; auto.
Qed.

Lemma renorm_rows_Ok (idx : list Z) (w : T2) (hi : Z) :
  Forall (fun i => (0 <= i <= hi)%Z) idx ->
  length w = Z.to_nat (hi + 1) ->
  exists w', fold_left (fun w i => rbind w (fun w' => renorm_row w' i)) idx (Ok w) = Ok w' /\
             length w' = length w.
Proof.
  intros Hidx. revert w. induction Hidx as [|i idx Hi _ IH]; intros w Hw; cbn [fold_left].
  - now exists w.
  - cbn [rbind]. unfold renorm_row.
    destruct (Z.ltb_spec i 0) as [? | _]; [lia |]. cbn [orb].
    destruct (Nat.leb_spec (length w) (Z.to_nat i)) as [? | _]; [lia |].
    destruct (IH (update_at renorm (Z.to_nat i) w)) as (w' & Hw' & Hl).
    { now rewrite update_at_length. }
    exists w'. split; [exact Hw' |]. now rewrite Hl, update_at_length.
Qed.

Lemma embedding_row_Ok (w : T2) (hi i : Z) :
  length w = Z.to_nat (hi + 1) -> (0 <= i <= hi)%Z ->
  exists row, embedding_row w i = Ok row.
Proof.
  intros Hw Hi. unfold embedding_row.
  destruct (Z.ltb_spec i 0) as [? | _]; [lia |].
  destruct (nth_error w (Z.to_nat i)) as [row|] eqn:E; [eauto |].
  apply nth_error_None in E. lia.
Qed.

Lemma mapr_shape {A B} (f : A -> result B) (l : list A) :
  Forall (fun x => exists y, f x = Ok y) l ->
  exists ys, mapr f l = Ok ys /\ length ys = length l.
Proof.
  induction 1 as [|x l [y Hy] _ (ys & Hys & Hl)]; cbn [mapr].
  - now exists [].
  - rewrite Hy, Hys. cbn [rbind]. exists (y :: ys). cbn [length]. now rewrite Hl.
Qed.

Lemma mapr2_shape {A B} (f : A -> result B) (x : list (list A)) :
  Forall (Forall (fun a => exists y, f a = Ok y)) x ->
  exists ys, mapr (mapr f) x = Ok ys /\ shape2 ys = shape2 x.
Proof.
  induction 1 as [|r x Hr _ (ys & Hys & Hs)]; cbn [mapr].
  - now exists [].
  - destruct (mapr_shape f r Hr) as (yr & Hyr & Hl).
    rewrite Hyr, Hys. cbn [rbind]. exists (yr :: ys).
    split; [reflexivity |]. unfold shape2 in *. cbn [map]. now rewrite Hl, Hs.
Qed.

Lemma bind_Ok {S A B} (m : M S A) (k : A -> M S B) (s s' : S) (a : A) :
  m s = (Ok a, s') -> bind m k s = k a s'.
Proof.
  unfold bind. now intros ->.
Qed.

Lemma bind_lift {S A B} (r : result A) (k : A -> M S B) (s : S) (a : A) :
  r = Ok a -> bind (lift r) k s = k a s.
Proof. now intros ->. Qed.

Lemma bind_run {A B} (f : aux -> A * aux) (k : A -> M module_state B) (st : module_state) :
  bind (run f) k st
  = k (fst (f (other st)))
      {| embedding_decoder_weight := embedding_decoder_weight st;
         other := snd (f (other st)) |}.
Proof.
  unfold bind, run. now destruct (f (other st)).
Qed.

Lemma bind_read {A B} (f : aux -> A) (k : A -> M module_state B) (st : module_state) :
  bind (read f) k st = k (f (other st)) st.
Proof. reflexivity. Qed.

(** The table of the tag embedding has one row more than there are tags. *)
Definition state_ok (self : EncoderDecoderRNN) (st : module_state) : Prop :=
  length (embedding_decoder_weight st) = Z.to_nat (tagset_size self + 1).

Lemma renormalises_Ok (v : value) :
  max_norm_ok v = true -> exists r, renormalises v = Ok r.
Proof.
  destruct v; try discriminate; intros _; eexists; reflexivity.
Qed.

Lemma embedding_decoder_Ok (self : EncoderDecoderRNN) (n : nat)
    (input : list (list Z)) (st : module_state) :
  state_ok self st ->
  max_norm_ok (max_norm_emb2 self) = true ->
  valid_input n (tagset_size self) input ->
  exists x st', embedding_decoder self input st = (Ok x, st') /\
                shape2 x = repeat 1 n /\ state_ok self st' /\ other st' = other st.
Proof.
  unfold state_ok. intros Hst Hnorm [Hshape Hidx]. unfold embedding_decoder.
  destruct (renormalises_Ok _ Hnorm) as [r Hr]. rewrite (bind_lift _ _ _ _ Hr).
  assert (Hw : exists w',
             (if r then fold_left (fun w i => rbind w (fun w' => renorm_row w' i))
                                  (concat input) (Ok (embedding_decoder_weight st))
              else Ok (embedding_decoder_weight st)) = Ok w' /\
             length w' = length (embedding_decoder_weight st)).
  { destruct r; [| eauto].
    apply (renorm_rows_Ok _ _ (tagset_size self)); [| exact Hst].
    apply Forall_concat. exact Hidx. }
  destruct Hw as (w' & Hw' & Hl). rewrite Hw'.
  destruct (mapr2_shape (embedding_row w') input) as (x & Hx & Hs).
  { eapply Forall_impl; [| exact Hidx]. intros r0 Hr0.
    eapply Forall_impl; [| exact Hr0]. intros i Hi.
    apply (embedding_row_Ok w' (tagset_size self)); [congruence | exact Hi]. }
  rewrite Hx. eexists _, _. split; [reflexivity |]. cbn.
  split; [congruence |]. split; [congruence | reflexivity].
Qed.

(** What the constructor has checked and set. *)
Lemma built_inv (m : EncoderDecoderRNN) :
  built m ->
  gru_encoder_hidden_size m = (hidden_dim m / (if bidirectional m then 2 else 1))%Z /\
  (0 < gru_encoder_hidden_size m)%Z /\
  (0 < hidden_dim m)%Z /\
  (0 <= tagset_size m)%Z /\
  (0 <= decoder_embedding_size m)%Z /\
  embedding_decoder_num m = (tagset_size m + 1)%Z /\
  exists rows, w2v_weights m = VArray rows (Z.to_nat (embedding_dim m)).
Proof.
  intros (args & kwargs & H). unfold EncoderDecoderRNN_init in H.
  repeat match type of H with
         | rbind _ _ = Ok _ =>
             apply rbind_Ok_inv in H; let a := fresh "x" in let E := fresh "E" in
             destruct H as (a & E & H)
         end.
  inversion H; subst m; clear H.
  cbn [gru_encoder_hidden_size hidden_dim bidirectional tagset_size decoder_embedding_size
       embedding_decoder_num w2v_weights embedding_dim].
  unfold GRU, new_weight in *.
  repeat match goal with
         | E : (if ?c then _ else _) = Ok _ |- _ =>
             destruct c eqn:?; [discriminate E | clear E]
         end.
  repeat match goal with
         | E : (_ || _) = false |- _ => apply orb_false_elim in E; destruct E
         end.
  split; [now destruct x3 |]. split; [lia |]. split; [lia |]. split; [lia |].
  split; [lia |]. split; [reflexivity |].
  unfold shape1 in *. destruct (arg x "w2v_weights"); try discriminate.
  match goal with
  | E : Ok _ = Ok _ |- _ => inversion E; subst
  end.
  eexists. now rewrite Nat2Z.id.
Qed.

(** The module under study and the contracts of its layers: a layer keeps
    the batch and time dimensions of its input, a recurrent layer returns a
    hidden state of the shape it was given, and the projection [out] has one
    entry per tag. *)
Variable self : EncoderDecoderRNN.

Hypothesis embedding_encoder_shape :
  forall idx o, shape2 (fst (embedding_encoder idx o)) = shape2 idx.
Hypothesis drop_shape : forall x o, shape2 (fst (drop x o)) = shape2 x.
Hypothesis gru_encoder_shape : forall o x h, shape2 (fst (gru_encoder o x h)) = shape2 x.
Hypothesis gru_encoder_hidden :
  forall o x h, map shape2 (snd (gru_encoder o x h)) = map shape2 h.
Hypothesis gru_decoder_shape : forall o x h, shape2 (fst (gru_decoder o x h)) = shape2 x.
Hypothesis gru_decoder_hidden :
  forall o x h, map shape2 (snd (gru_decoder o x h)) = map shape2 h.
Hypothesis bnorm_shape : forall x o, map shape2 (fst (bnorm x o)) = map shape2 x.
Hypothesis out_shape : forall o row, length (out o row) = Z.to_nat (tagset_size self).
Hypothesis softmax_shape : forall row, length (softmax row) = length row.

Lemma squeeze_unsqueeze_shape {A} (x : list (list (list A))) (y : list (list (list (list A)))) :
  map shape2 y = map shape2 (unsqueeze1 x) -> shape2 (squeeze1 y) = shape2 x.
Proof.
  revert y. induction x as [|e x IH]; intros [|r y] H; try discriminate; [reflexivity |].
  cbn in H. injection H as Hr Hy.
  unfold squeeze1, shape2 in *. cbn [map]. f_equal.
  - destruct r as [|z [|z' r]]; try discriminate.
    cbn in Hr. injection Hr as Hr. cbn. now rewrite app_nil_r.
  - apply IH. exact Hy.
Qed.

Lemma size1_repeat {A} (x : list (list A)) (k n : nat) :
  shape2 x = repeat k n -> 0 < n -> size1 x = k.
Proof.
  destruct n as [|n]; [lia |]. destruct x as [|r x]; [discriminate |].
  cbn. intros H _. now injection H.
Qed.

(** The recurrent layer runs on a hidden state of its shape and a sequence
    with a step. *)
Lemma gru_forward_Ok (gru : aux -> T3 -> T3 -> T3 * T3) (slices : nat) (hidden_size : Z)
    (x h : T3) (st : module_state) :
  map shape2 h = repeat (repeat (Z.to_nat hidden_size) (length x)) slices ->
  0 < size1 x ->
  gru_forward gru slices hidden_size x h st = (Ok (gru (other st) x h), st).
Proof.
  intros Hh Hx. unfold gru_forward.
  destruct (list_eq_dec _ _ _) as [_ | Hne]; [| contradiction].
  destruct (Nat.eqb_spec (size1 x) 0) as [? | _]; [lia | reflexivity].
Qed.

Lemma bnorm_forward_Ok {B} (x : T4) (k : T4 -> M module_state B) (st : module_state) :
  length x * Z.to_nat (hidden_dim self) <> 1 ->
  bind (bnorm_forward self x) k st = bind (run (bnorm x)) k st.
Proof.
  intros H. unfold bnorm_forward. unfold bind at 2. unfold read at 1. cbv beta iota.
  destruct (Nat.eqb_spec (length x * Z.to_nat (hidden_dim self)) 1) as [? | _];
    [contradiction |].
  unfold bind. cbv beta. now rewrite andb_false_r.
Qed.

(** What a step of the decoder needs besides its input: a norm for the tag
    embedding that is a number or none, an example in the batch, and more
    than one value for the normalisation. *)
Definition step_ok (n : nat) : Prop :=
  max_norm_ok (max_norm_emb2 self) = true /\
  0 < n /\ n * Z.to_nat (hidden_dim self) <> 1.

Lemma decoder_forward_Ok (n : nat) (input : list (list Z)) (hidden : T3) (st : module_state) :
  step_ok n ->
  state_ok self st ->
  valid_input n (tagset_size self) input ->
  map shape2 hidden = [repeat (Z.to_nat (hidden_dim self)) n] ->
  exists o h' st', decoder_forward self input hidden st = (Ok (o, h'), st') /\
                   step_output n (Z.to_nat (tagset_size self)) o /\ state_ok self st' /\
                   map shape2 h' = [repeat (Z.to_nat (hidden_dim self)) n].
Proof.
  intros (Hnorm & Hn & Hval) Hst Hin Hh.
  destruct (embedding_decoder_Ok self n input st Hst Hnorm Hin) as (x & st1 & He & Hx & Hst1 & _).
  unfold decoder_forward. rewrite (bind_Ok _ _ _ _ _ He). rewrite bind_run.
  match goal with
  | |- context [gru_forward gru_decoder 1 _ ?y0 hidden] => set (y := y0)
  end.
  assert (Hy : shape2 y = repeat 1 n).
  { subst y. unfold relu. rewrite shape2_map by (intros r; now rewrite !length_map).
    now rewrite drop_shape. }
  assert (H1 : map shape2 hidden
               = repeat (repeat (Z.to_nat (hidden_dim self)) (length y)) 1).
  { rewrite (shape2_length _ _ _ Hy). exact Hh. }
  assert (H2 : 0 < size1 y).
  { rewrite (size1_repeat _ _ _ Hy Hn). lia. }
  rewrite (bind_Ok _ _ _ _ _ (gru_forward_Ok gru_decoder 1 _ y hidden _ H1 H2)).
  cbn [other embedding_decoder_weight fst snd].
  rewrite bnorm_forward_Ok.
  2:{ unfold unsqueeze1. rewrite length_map.
      match goal with
      | |- length (fst (gru_decoder ?o ?y ?h)) * _ <> 1 =>
          pose proof (gru_decoder_shape o y h) as Hg
      end.
      rewrite Hy in Hg. now rewrite (shape2_length _ _ _ Hg). }
  rewrite bind_run, bind_run, bind_read. cbn [other embedding_decoder_weight].
  eexists _, _, _. split; [reflexivity |]. split; [| split; [exact Hst1 |]].
  - unfold step_output. split.
    + rewrite shape2_map by (intros r; now rewrite !length_map).
      rewrite shape2_map by (intros r; now rewrite !length_map).
      rewrite drop_shape.
      rewrite squeeze_unsqueeze_shape with (x := fst (gru_decoder _ _ hidden))
        by apply bnorm_shape.
      now rewrite gru_decoder_shape.
    + apply Forall_forall. intros r Hr.
      apply in_map_iff in Hr. destruct Hr as (r1 & <- & Hr1).
      apply in_map_iff in Hr1. destruct Hr1 as (r2 & <- & _).
      apply Forall_forall. intros row Hrow.
      apply in_map_iff in Hrow. destruct Hrow as (row1 & <- & Hrow1).
      apply in_map_iff in Hrow1. destruct Hrow1 as (row2 & <- & _).
      now rewrite softmax_shape, out_shape.
  - now rewrite gru_decoder_hidden.
Qed.

Lemma topk1_Ok (n c : nat) (o : T3) :
  step_output n c o -> 0 < c ->
  exists topi, topk1 o = Ok topi /\ valid_input n (Z.of_nat c - 1) (squeeze1 topi).
Proof.
  unfold step_output, valid_input, topk1. intros [Hs Hr] Hc. revert n Hs.
  induction Hr as [|e o He _ IH]; intros n Hs.
  - exists []. destruct n; [| discriminate]. repeat split; constructor.
  - destruct n as [|n]; [discriminate |]. cbn in Hs. injection Hs as He1 Hs.
    destruct e as [|row [|row' e]]; try discriminate.
    apply Forall_inv in He.
    destruct (argmax_bound row) as (i & Hi & Hb).
    { intros ->. cbn in He. lia. }
    destruct (IH n Hs) as (topi & Ht & Hs' & Hv).
    cbn [mapr]. rewrite Hi. cbn [rbind]. rewrite Ht. cbn [rbind].
    eexists. split; [reflexivity |]. cbn. split.
    + f_equal. exact Hs'.
    + constructor; [| exact Hv]. constructor; [lia | constructor].
Qed.

(** What the decoding loop maintains. *)
Definition loop_inv (n : nat) (d : decoder_state) : Prop :=
  valid_input n (tagset_size self) (decoder_input d) /\
  Forall (step_output n (Z.to_nat (tagset_size self))) (results d) /\
  map shape2 (hidden_decoder d) = [repeat (Z.to_nat (hidden_dim self)) n].

Lemma decode_step_Ok (n : nat) (d : decoder_state) (st : module_state) :
  (0 < tagset_size self)%Z -> step_ok n -> state_ok self st -> loop_inv n d ->
  exists o d' st', decode_step self d st = (Ok d', st') /\
                   results d' = results d ++ [o] /\
                   loop_inv n d' /\ state_ok self st'.
Proof.
  intros Hpos Hstep Hst (Hin & Hres & Hh).
  destruct (decoder_forward_Ok n (decoder_input d) (hidden_decoder d) st Hstep Hst Hin Hh)
    as (o & h' & st' & Hf & Ho & Hst' & Hh').
  destruct (topk1_Ok n (Z.to_nat (tagset_size self)) o Ho) as (topi & Ht & Hs & Hv); [lia |].
  unfold decode_step. rewrite (bind_Ok _ _ _ _ _ Hf). cbn [fst snd].
  unfold bind, lift, ret. rewrite Ht.
  eexists o, _, st'. split; [reflexivity |]. cbn [results decoder_input hidden_decoder].
  split; [reflexivity |]. split; [| exact Hst'].
  split; [| split; [| exact Hh']].
  - split; [exact Hs |].
    eapply Forall_impl; [| exact Hv]. intros r Hr.
    eapply Forall_impl; [| exact Hr]. cbv beta. intros i Hi. lia.
  - apply Forall_app. split; [exact Hres | now constructor].
Qed.

Lemma for_range_decode_Ok (k n : nat) (d : decoder_state) (st : module_state) :
  (0 < tagset_size self)%Z -> step_ok n -> state_ok self st -> loop_inv n d ->
  exists d' st', for_range k (decode_step self) d st = (Ok d', st') /\
                 length (results d') = length (results d) + k /\
                 loop_inv n d' /\ state_ok self st'.
Proof.
  intros Hpos Hstep. revert d st. induction k as [|k IH]; intros d st Hst Hinv; cbn [for_range].
  - exists d, st. unfold ret. repeat split; try assumption; try apply Hinv. lia.
  - destruct (decode_step_Ok n d st Hpos Hstep Hst Hinv)
      as (o & d1 & st1 & Hs & Hr & Hinv1 & Hst1).
    rewrite (bind_Ok _ _ _ _ _ Hs).
    destruct (IH d1 st1 Hst1 Hinv1) as (d' & st' & Hf & Hl & Hinv' & Hst').
    exists d', st'. split; [exact Hf |]. split; [| now split].
    rewrite Hl, Hr, length_app. cbn [length]. lia.
Qed.

(** The loop run once more is the loop followed by one step. *)
Lemma for_range_succ {S A} (n : nat) (body : A -> M S A) (a : A) (s : S) :
  for_range (Datatypes.S n) body a s = bind (for_range n body a) body s.
Proof.
  revert a s. induction n as [|n IH]; intros a s.
  - cbn [for_range]. unfold bind, ret. now destruct (body a s) as [[a' | e] s'].
  - specialize (IH). cbn [for_range] in *. unfold bind in *.
    destruct (body a s) as [[a' | e] s']; [| reflexivity].
    exact (IH a' s').
Qed.

Lemma max_length_ge (b : batch) (e : example) : In e b -> length e <= max_length b.
Proof.
  unfold max_length. induction b as [|x b IH]; intros H; [contradiction |].
  cbn [map fold_right]. destruct H as [-> | H]; [lia |]. specialize (IH H). lia.
Qed.

Lemma pad_to_length {A} (n : nat) (fill : A) (l : list A) :
  length l <= n -> length (pad_to n fill l) = n.
Proof.
  intros H. unfold pad_to. rewrite length_app, repeat_length. lia.
Qed.

Lemma batch_sequence_shape (b : batch) :
  shape2 (fst (fst (batch_sequence padding_index b))) = repeat (max_length b) (length b) /\
  shape2 (snd (fst (batch_sequence padding_index b))) = repeat (max_length b) (length b).
Proof.
  unfold batch_sequence, shape2. cbn [fst snd]. rewrite !map_map.
  assert (H : forall e, In e b -> length e <= max_length b) by apply max_length_ge.
  revert H. generalize (max_length b) as T. intros T H.
  induction b as [|e b IH]; [split; reflexivity |].
  cbn [map length repeat].
  rewrite !pad_to_length by (rewrite length_map; apply H; now left).
  destruct IH as [IH1 IH2]; [intros e' He'; apply H; now right |].
  now rewrite IH1, IH2.
Qed.

Lemma size1_shape {A} (x : list (list A)) (b : batch) :
  shape2 x = repeat (max_length b) (length b) -> size1 x = max_length b.
Proof.
  destruct b as [|e b]; destruct x as [|r x]; try discriminate; [reflexivity |].
  cbn [length repeat]. intros H. now injection H.
Qed.

Lemma map2_app_shape {A} (a b : list (list A)) (p q n : nat) :
  shape2 a = repeat p n -> shape2 b = repeat q n ->
  shape2 (map2 (@app A) a b) = repeat (p + q) n.
Proof.
  revert a b. induction n as [|n IH]; intros [|x a] [|y b] Ha Hb; try discriminate;
    [reflexivity |].
  cbn in Ha, Hb. injection Ha as Hx Ha. injection Hb as Hy Hb.
  unfold shape2 in *. cbn [map2 map repeat]. rewrite length_app, Hx, Hy.
  f_equal. now apply IH.
Qed.

Lemma zeros_shape (a b c : nat) : map shape2 (zeros a b c) = repeat (repeat c b) a.
Proof.
  unfold zeros, shape2. rewrite map_repeat. f_equal.
  rewrite map_repeat. now rewrite repeat_length.
Qed.

(** With an even [hidden_dim], or one direction, the state that the bridge
    hands over has the shape the decoder expects. *)
Lemma bridge_shape (o : aux) (data : T3) (n : nat) :
  (bidirectional self = true -> Z.even (hidden_dim self) = true) ->
  exists h, bridge self (snd (gru_encoder o data (init_hidden_encoder self n))) = Ok h /\
            map shape2 h = [repeat (Z.to_nat (hidden_dim self)) n].
Proof.
  intros Heven.
  pose proof (gru_encoder_hidden o data (init_hidden_encoder self n)) as H.
  unfold bridge, init_hidden_encoder in *.
  destruct (bidirectional self).
  - rewrite zeros_shape in H.
    destruct (snd (gru_encoder o data _)) as [|h0 [|h1 [|h2 h]]]; try discriminate.
    cbn in H. injection H as H0 H1.
    cbn [index0 nth_error rbind]. unfold cat2_dim1.
    rewrite (shape2_length _ _ _ H0), (shape2_length _ _ _ H1), Nat.eqb_refl.
    cbn [rbind]. eexists. split; [reflexivity |].
    unfold unsqueeze0. cbn [map]. f_equal.
    rewrite (map2_app_shape _ _ _ _ _ H0 H1). f_equal.
    specialize (Heven eq_refl). apply Z.even_spec in Heven. destruct Heven as [k Hk].
    rewrite Hk, (Z.mul_comm 2 k), Z.div_mul by lia. lia.
  - eexists. split; [reflexivity |]. rewrite H. now rewrite zeros_shape.
Qed.

Lemma start_input_valid (n : nat) :
  (0 < tagset_size self)%Z -> valid_input n (tagset_size self) (start_input self n).
Proof.
  intros Hpos. unfold start_input, zeros_long, valid_input, shape2.
  rewrite map_repeat. split; [reflexivity |].
  apply Forall_forall. intros r Hr. apply repeat_spec in Hr. subst r.
  constructor; [lia | constructor].
Qed.

(** The padded token indexes of an accepted batch are rows of the table. *)
Lemma batch_sequence_in_table (b : batch) :
  accepted self b ->
  forallb (forallb (fun i => (0 <=? i)%Z && (i <? num_embeddings self)%Z))
          (fst (fst (batch_sequence padding_index b))) = true.
Proof.
  intros (_ & Htok & Hpad & _). unfold batch_sequence. cbn [fst].
  apply forallb_forall. intros r Hr. apply in_map_iff in Hr. destruct Hr as (e & <- & He).
  apply forallb_forall. intros i Hi. unfold pad_to in Hi. apply in_app_or in Hi.
  assert (Hi' : (0 <= i < num_embeddings self)%Z).
  { destruct Hi as [Hi | Hi].
    - apply in_map_iff in Hi. destruct Hi as (tl & <- & Htl).
      rewrite Forall_forall in Htok. specialize (Htok e He).
      rewrite Forall_forall in Htok. exact (Htok tl Htl).
    - apply repeat_spec in Hi. now subst i. }
  apply andb_true_intro. split; [apply Z.leb_le | apply Z.ltb_lt]; lia.
Qed.

Lemma accepted_step (b : batch) :
  decodes self -> accepted self b -> step_ok (length b).
Proof.
  intros (_ & _ & _ & _ & Hn2) (HT & _ & _ & Hval). split; [exact Hn2 |].
  assert (0 < length b).
  { destruct b; [cbn in HT; lia | cbn; lia]. }
  split; [assumption | nia].
Qed.

Lemma forward_decode_Ok (b : batch) (st : module_state) :
  decodes self -> accepted self b -> state_ok self st ->
  exists d st',
    forward_decode self b st = (Ok (d, snd (fst (batch_sequence padding_index b))), st') /\
    length (results d) = max_length b /\
    Forall (step_output (length b) (Z.to_nat (tagset_size self))) (results d) /\
    state_ok self st'.
Proof.
  intros Hdec Hacc Hst.
  pose proof (accepted_step b Hdec Hacc) as Hstep.
  pose proof (batch_sequence_in_table b Hacc) as Htable.
  destruct Hdec as (Hbuilt & Hpos & Heven & Hn1 & Hn2).
  destruct (built_inv self Hbuilt) as (Hghs & _).
  destruct Hacc as (HT & _).
  destruct (renormalises_Ok _ Hn1) as [r1 Hr1].
  unfold forward_decode, embedding_encoder_forward.
  unfold bind at 2. unfold bind at 2. unfold lift at 1. rewrite Hr1, Htable.
  unfold ret at 1. rewrite bind_run, bind_run. cbn [other embedding_decoder_weight fst snd].
  match goal with
  | |- context [gru_forward gru_encoder ?k ?hs ?x0 ?h] => set (x := x0)
  end.
  assert (Hx : shape2 x = repeat (max_length b) (length b)).
  { subst x. rewrite drop_shape, embedding_encoder_shape. apply batch_sequence_shape. }
  assert (H1 : map shape2 (init_hidden_encoder self (length b))
               = repeat (repeat (Z.to_nat (gru_encoder_hidden_size self)) (length x))
                        (if bidirectional self then 2 else 1)).
  { rewrite (shape2_length _ _ _ Hx). unfold init_hidden_encoder. rewrite Hghs.
    destruct (bidirectional self); rewrite zeros_shape; [reflexivity |].
    now rewrite Z.div_1_r. }
  assert (H2 : 0 < size1 x).
  { rewrite (size1_shape _ b Hx). exact HT. }
  rewrite (bind_Ok _ _ _ _ _ (gru_forward_Ok gru_encoder _ _ x _ _ H1 H2)).
  cbn [fst snd].
  match goal with
  | |- context [bridge self (snd (gru_encoder ?o ?x ?h))] =>
      destruct (bridge_shape o x (length b) Heven) as (hd & Hb & Hhd);
      assert (Hsz : size1 (fst (gru_encoder o x h)) = max_length b)
  end.
  { apply size1_shape. now rewrite gru_encoder_shape. }
  rewrite (bind_lift _ _ _ _ Hb), Hsz.
  match goal with
  | |- context [bind (for_range _ (decode_step self) ?d0) _ ?st0] =>
      destruct (for_range_decode_Ok (max_length b) (length b) d0 st0 Hpos Hstep)
        as (d & st' & Hf & Hl & (_ & Hres & _) & Hst')
  end.
  { exact Hst. }
  { split; [apply start_input_valid; exact Hpos |]. split; [constructor | exact Hhd]. }
  rewrite (bind_Ok _ _ _ _ _ Hf). unfold ret.
  exists d, st'. repeat split; assumption.
Qed.

Lemma concat_length_uniform {A} (rows : list (list A)) (c : nat) :
  Forall (fun r => length r = c) rows -> length (concat rows) = length rows * c.
Proof.
  induction 1 as [|r rows Hr _ IH]; cbn [concat length]; [reflexivity |].
  rewrite length_app, Hr, IH. lia.
Qed.

Lemma nth_error_concat_uniform {A} (rows : list (list A)) (c n t : nat) :
  Forall (fun r => length r = c) rows -> t < c ->
  nth_error (concat rows) (n * c + t)
  = match nth_error rows n with
    | Some r => nth_error r t
    | None => None
    end.
Proof.
  intros Hrows Ht. revert n. induction Hrows as [|r rows Hr _ IH]; intros n.
  - cbn [concat]. destruct n; now rewrite ?nth_error_nil.
  - cbn [concat]. destruct n as [|n]; cbn [nth_error].
    + cbn [Nat.mul Nat.add]. apply nth_error_app1. lia.
    + rewrite nth_error_app2 by (cbn [Nat.mul]; lia).
      replace (Datatypes.S n * c + t - length r) with (n * c + t) by (cbn [Nat.mul]; lia).
      apply IH.
Qed.

Lemma pad_to_fill {A} (n : nat) (fill : A) (l : list A) (t : nat) :
  length l <= t < n -> nth_error (pad_to n fill l) t = Some fill.
Proof.
  intros H. unfold pad_to. rewrite nth_error_app2 by lia.
  apply nth_error_repeat. lia.
Qed.

Lemma flat_labels_padding (b : batch) (n t : nat) (e : example) :
  nth_error b n = Some e -> length e <= t < max_length b ->
  nth_error (flat_labels padding_index b) (n * max_length b + t) = Some (-1)%Z.
Proof.
  intros Hn Ht. unfold flat_labels.
  rewrite nth_error_concat_uniform with (c := max_length b); [| | lia].
  - unfold batch_sequence. cbn [fst snd].
    rewrite (map_nth_error _ _ _ Hn). apply pad_to_fill. now rewrite length_map.
  - apply (shape2_rows _ (length b)). apply batch_sequence_shape.
Qed.

(** C4.  On a module that can decode and a batch that its layers accept,
    whatever the lengths of the examples, the decoding loop of [forward] ends
    after exactly as many steps as the longest example has tokens; every step
    yields an output for every example of the batch, and in the flattened
    gold labels the positions from the length of an example on hold -1. *)
Theorem decoder_loop_steps (b : batch) (st : module_state) :
  decodes self ->
  accepted self b ->
  state_ok self st ->
  exists d labels st',
    forward_decode self b st = (Ok (d, labels), st') /\
    length (results d) = max_length b /\
    Forall (fun o => length o = length b) (results d) /\
    concat labels = flat_labels padding_index b /\
    forall n e t,
      nth_error b n = Some e -> length e <= t < max_length b ->
      nth_error (concat labels) (n * max_length b + t) = Some (-1)%Z.
Proof.
  intros Hdec Hacc Hst.
  destruct (forward_decode_Ok b st Hdec Hacc Hst) as (d & st' & Hf & Hl & Hres & _).
  exists d, (snd (fst (batch_sequence padding_index b))), st'.
  split; [exact Hf |]. split; [exact Hl |]. split.
  - eapply Forall_impl; [| exact Hres]. intros o [Ho _].
    exact (shape2_length _ _ _ Ho).
  - split; [reflexivity |]. intros n e t Hn Ht.
    exact (flat_labels_padding b n t e Hn Ht).
Qed.

(** C5.  The first input of the decoder is the index 0 for every example of
    the batch: the sum computed on line 97 is not stored, and it is itself a
    tensor of zeros. *)
Theorem start_input_zero (m : EncoderDecoderRNN) (n : nat) :
  start_input m n = repeat [0%Z] n /\
  torch_add (zeros_long n 1) (tagset_size m) (zeros_long n 1) = repeat [0%Z] n.
Proof.
  split; [reflexivity |].
  unfold zeros_long, torch_add. induction n as [|n IH]; cbn [repeat map2] in *; [reflexivity |].
  rewrite IH. f_equal. f_equal. lia.
Qed.

(** The table of a new module has a row for every tag and one more, which the
    index [tagset_size] selects. *)
Lemma new_module_table (m : EncoderDecoderRNN) (o : aux) :
  (0 <= tagset_size m)%Z ->
  embedding_decoder_num m = (tagset_size m + 1)%Z ->
  state_ok m (new_module m o) /\
  embedding_row (embedding_decoder_weight (new_module m o)) (tagset_size m)
  = Ok (map (init_weight (Z.to_nat (tagset_size m)))
            (seq 0 (Z.to_nat (decoder_embedding_size m)))).
Proof.
  intros Hpos Hnum. unfold state_ok, new_module, new_embedding. cbn [embedding_decoder_weight].
  rewrite Hnum. split; [now rewrite length_map, length_seq |].
  unfold embedding_row. destruct (Z.ltb_spec (tagset_size m) 0) as [? | _]; [lia |].
  rewrite nth_error_map, nth_error_seq.
  destruct (Nat.ltb_spec (Z.to_nat (tagset_size m)) (Z.to_nat (tagset_size m + 1))) as [_ | ?];
    [reflexivity | lia].
Qed.

(** The entry of a three-dimensional tensor at positions [n] and [t] of its
    first two dimensions. *)
Definition entry (y : T3) (n t : nat) : option (list R) :=
  match nth_error y n with
  | Some r => nth_error r t
  | None => None
  end.

(** The log-probabilities that step [t] of the decoder gave for example [n]. *)
Definition pick (outs : list T3) (t n : nat) : option (list R) :=
  match nth_error outs t with
  | Some o => entry o n 0
  | None => None
  end.

Lemma entry_map2_app (a o : T3) (n t : nat) :
  length a = length o ->
  entry (map2 (@app (list R)) a o) n t
  = match nth_error a n, nth_error o n with
    | Some ra, Some ro => nth_error (ra ++ ro) t
    | _, _ => None
    end.
Proof.
  unfold entry. revert o n. induction a as [|ra a IH]; intros [|ro o] n Hl; try discriminate.
  - now destruct n.
  - destruct n as [|n]; cbn [map2 nth_error]; [reflexivity |].
    apply IH. now injection Hl.
Qed.

Lemma Forall2_map2_app {A} (P : A -> Prop) (a o : list (list A)) :
  Forall (Forall P) a -> Forall (Forall P) o -> Forall (Forall P) (map2 (@app A) a o).
Proof.
  intros Ha. revert o. induction Ha as [|ra a Hra _ IH]; intros o Ho; [constructor |].
  destruct Ho as [|ro o Hro Ho]; [constructor |].
  cbn [map2]. constructor; [apply Forall_app; now split | now apply IH].
Qed.

Lemma cat_fold (n c : nat) (rest pre : list T3) (acc : T3) :
  Forall (step_output n c) rest ->
  shape2 acc = repeat (length pre) n ->
  Forall (Forall (fun row => length row = c)) acc ->
  (forall i t, i < n -> t < length pre -> entry acc i t = pick pre t i) ->
  exists y,
    fold_left
      (fun acc y =>
         rbind acc (fun a =>
           if Nat.eqb (length a) (length y) then Ok (map2 (@app (list R)) a y)
           else Raise (RuntimeError "Sizes of tensors must match except in dimension 1")))
      rest (Ok acc) = Ok y /\
    shape2 y = repeat (length pre + length rest) n /\
    Forall (Forall (fun row => length row = c)) y /\
    (forall i t, i < n -> t < length pre + length rest ->
       entry y i t = pick (pre ++ rest) t i).
Proof.
  intros Hrest. revert pre acc.
  induction Hrest as [|o rest [Ho Hoc] _ IH]; intros pre acc Hs Hc He; cbn [fold_left].
  - exists acc. rewrite Nat.add_0_r, app_nil_r. repeat split; assumption.
  - cbn [rbind].
    rewrite (shape2_length _ _ _ Hs), (shape2_length _ _ _ Ho), Nat.eqb_refl.
    destruct (IH (pre ++ [o]) (map2 (@app (list R)) acc o)) as (y & Hy & Hsy & Hcy & Hey).
    + rewrite length_app. cbn [length]. now apply map2_app_shape.
    + now apply Forall2_map2_app.
    + intros i t Hi Ht. rewrite length_app in Ht. cbn [length] in Ht.
      rewrite entry_map2_app
        by now rewrite (shape2_length _ _ _ Hs), (shape2_length _ _ _ Ho).
      pose proof (shape2_rows _ _ _ Hs) as Hra. pose proof (shape2_rows _ _ _ Ho) as Hro.
      destruct (nth_error acc i) as [ra|] eqn:Ea.
      2:{ apply nth_error_None in Ea. rewrite (shape2_length _ _ _ Hs) in Ea. lia. }
      destruct (nth_error o i) as [ro|] eqn:Eo.
      2:{ apply nth_error_None in Eo. rewrite (shape2_length _ _ _ Ho) in Eo. lia. }
      assert (Hla : length ra = length pre).
      { eapply Forall_forall in Hra; [exact Hra | eapply nth_error_In; exact Ea]. }
      unfold pick. destruct (Nat.eq_dec t (length pre)) as [-> | Hne].
      * rewrite nth_error_app2 by lia. rewrite nth_error_app2 by lia.
        rewrite Hla, Nat.sub_diag. cbn [nth_error]. unfold entry. now rewrite Eo.
      * rewrite nth_error_app1 by lia. rewrite nth_error_app1 by lia.
        specialize (He i t Hi ltac:(lia)). unfold entry, pick in He.
        now rewrite Ea in He.
    + exists y. split; [exact Hy |]. rewrite length_app in Hsy. cbn [length] in Hsy.
      split; [now rewrite <- Nat.add_assoc in Hsy |]. split; [exact Hcy |].
      intros i t Hi Ht. rewrite <- app_assoc in Hey. apply Hey; [exact Hi |].
      rewrite length_app. cbn [length] in *. lia.
Qed.

Lemma cat_dim1_Ok (n c : nat) (outs : list T3) :
  outs <> [] -> Forall (step_output n c) outs ->
  exists y, cat_dim1 outs = Ok y /\
            shape2 y = repeat (length outs) n /\
            Forall (Forall (fun row => length row = c)) y /\
            (forall i t, i < n -> t < length outs -> entry y i t = pick outs t i).
Proof.
  destruct outs as [|x rest]; [congruence | intros _ Houts].
  pose proof (Forall_inv Houts) as [Hx Hxc]. apply Forall_inv_tail in Houts.
  unfold cat_dim1.
  destruct (cat_fold n c rest [x] x Houts Hx Hxc) as (y & Hy & Hs & Hc & He).
  { intros i t Hi Ht. cbn [length] in Ht. assert (t = 0) as -> by lia. reflexivity. }
  exists y. split; [exact Hy |]. split; [exact Hs |]. split; [exact Hc | exact He].
Qed.

Lemma chunks_concat {A} (c fuel : nat) (rows : list (list A)) :
  0 < c -> Forall (fun r => length r = c) rows -> length rows <= fuel ->
  chunks fuel c (concat rows) = rows.
Proof.
  intros Hc Hrows. revert fuel. induction Hrows as [|r rows Hr _ IH]; intros fuel Hf.
  - destruct fuel; reflexivity.
  - destruct fuel as [|fuel]; [cbn in Hf; lia |].
    cbn [concat chunks]. destruct (r ++ concat rows) as [|a l] eqn:E.
    + apply (f_equal (@length A)) in E. rewrite length_app in E. cbn in E. lia.
    + rewrite <- E. rewrite firstn_app, skipn_app, Hr, Nat.sub_diag.
      rewrite firstn_all2 by lia. rewrite skipn_all2 by lia. cbn [firstn skipn app].
      rewrite app_nil_r. f_equal. apply IH. cbn in Hf. lia.
Qed.

Lemma view_rows_Ok (c : Z) (y : T3) :
  (0 < c)%Z -> Forall (Forall (fun row => length row = Z.to_nat c)) y ->
  view_rows c y = Ok (concat y).
Proof.
  intros Hc Hy. unfold view_rows.
  destruct (Z.leb_spec c 0) as [? | _]; [lia |].
  assert (Hrows : Forall (fun row => length row = Z.to_nat c) (concat y))
    by now apply Forall_concat.
  rewrite (concat_length_uniform _ _ Hrows), Nat.Div0.mod_mul. cbn [Nat.eqb].
  f_equal. apply chunks_concat; [lia | exact Hrows |].
  assert (0 < Z.to_nat c) by lia. nia.
Qed.

Lemma pad_to_nth {A} (n : nat) (fill : A) (l : list A) (t : nat) :
  length l <= n -> t < n -> nth_error (pad_to n fill l) t = Some (nth t l fill).
Proof.
  intros Hl Ht. unfold pad_to. destruct (Nat.lt_ge_cases t (length l)) as [H | H].
  - rewrite nth_error_app1 by lia. now apply nth_error_nth'.
  - rewrite nth_error_app2 by lia. rewrite nth_overflow by lia.
    apply nth_error_repeat. lia.
Qed.

(** C8.  On a module that can decode, for a batch of N examples that its
    layers accept and of which the longest has T tokens, [forward] returns
    N x T rows of [tagset_size] log-probabilities and N x T gold labels; row
    and label [n * T + t] are the output of step [t] of the decoder for
    example [n] and the label of its token [t], or -1 past its end. *)
Theorem forward_shape (b : batch) (st : module_state) :
  decodes self ->
  accepted self b ->
  state_ok self st ->
  let N := length b in
  let T := max_length b in
  exists d logp labels st',
    fst (forward_decode self b st) = Ok (d, labels) /\
    forward self b st = (Ok (logp, concat labels), st') /\
    length logp = N * T /\
    Forall (fun row => length row = Z.to_nat (tagset_size self)) logp /\
    length (concat labels) = N * T /\
    forall n t e, nth_error b n = Some e -> t < T ->
      (exists row, pick (results d) t n = Some row /\
                   nth_error logp (n * T + t) = Some row) /\
      nth_error (concat labels) (n * T + t) = Some (nth t (map snd e) (-1)%Z).
Proof.
  intros Hdec Hacc Hst N T.
  assert (Hpos : (0 < tagset_size self)%Z) by apply Hdec.
  assert (HT : 0 < max_length b) by apply Hacc.
  destruct (forward_decode_Ok b st Hdec Hacc Hst) as (d & st' & Hf & Hl & Hres & _).
  destruct (cat_dim1_Ok N (Z.to_nat (tagset_size self)) (results d))
    as (y & Hy & Hs & Hc & He); [| exact Hres |].
  { intros E. rewrite E in Hl. cbn in Hl. unfold T in HT. lia. }
  rewrite Hl in Hs, He. fold T in Hs, He.
  pose proof (batch_sequence_shape b) as [_ Hlab]. fold N T in Hlab.
  exists d, (concat y), (snd (fst (batch_sequence padding_index b))), st'.
  split; [now rewrite Hf |]. split.
  { unfold forward. rewrite (bind_Ok _ _ _ _ _ Hf). cbn [fst snd].
    unfold bind, lift, ret. rewrite Hy. now rewrite (view_rows_Ok _ _ Hpos Hc). }
  split.
  { rewrite (concat_length_uniform _ _ (shape2_rows _ _ _ Hs)).
    now rewrite (shape2_length _ _ _ Hs). }
  split; [now apply Forall_concat |]. split.
  { rewrite (concat_length_uniform _ _ (shape2_rows _ _ _ Hlab)).
    now rewrite (shape2_length _ _ _ Hlab). }
  intros n t e Hn Ht.
  assert (HnN : n < N) by (apply nth_error_Some; congruence).
  split.
  - rewrite (nth_error_concat_uniform _ T n t (shape2_rows _ _ _ Hs) Ht).
    specialize (He n t HnN Ht). unfold entry in He.
    destruct (nth_error y n) as [r|] eqn:Er.
    2:{ apply nth_error_None in Er. rewrite (shape2_length _ _ _ Hs) in Er. lia. }
    destruct (nth_error r t) as [row|] eqn:Erow.
    + exists row. split; [now rewrite <- He | reflexivity].
    + apply nth_error_None in Erow.
      pose proof (shape2_rows _ _ _ Hs) as Hr. eapply Forall_forall in Hr;
        [| eapply nth_error_In; exact Er]. lia.
  - rewrite (nth_error_concat_uniform _ T n t (shape2_rows _ _ _ Hlab) Ht).
    unfold batch_sequence. cbn [fst snd]. rewrite (map_nth_error _ _ _ Hn).
    apply pad_to_nth; [| exact Ht]. rewrite length_map.
    apply max_length_ge. eapply nth_error_In; exact Hn.
Qed.

(** What a forward pass shows when the gold labels it returns are left out:
    the scores, or the exception, and the state of the module. *)
Definition scores {A B} (r : result (A * B) * module_state) : result A * module_state :=
  (rbind (fst r) (fun p => Ok (fst p)), snd r).

Lemma scores_bind {A B C} (m : M module_state C) (k1 k2 : C -> M module_state (A * B))
    (st : module_state) :
  (forall c st', scores (k1 c st') = scores (k2 c st')) ->
  scores (bind m k1 st) = scores (bind m k2 st).
Proof.
  intros H. unfold bind. destruct (m st) as [[c | e] st']; [apply H | reflexivity].
Qed.

Lemma tokens_determine_batch (b1 b2 : batch) :
  map (map fst) b1 = map (map fst) b2 ->
  length b1 = length b2 /\
  fst (fst (batch_sequence padding_index b1)) = fst (fst (batch_sequence padding_index b2)).
Proof.
  intros H.
  assert (Hlen : map (@length (Z * Z)) b1 = map (@length (Z * Z)) b2).
  { apply (f_equal (map (@length Z))) in H. rewrite !map_map in H.
    erewrite map_ext in H; [| intros e; apply length_map].
    symmetry in H. erewrite map_ext in H; [| intros e; apply length_map]. now symmetry. }
  split.
  - apply (f_equal (@length nat)) in Hlen. now rewrite !length_map in Hlen.
  - unfold batch_sequence, max_length. cbn [fst]. rewrite Hlen.
    generalize (fold_right Nat.max 0 (map (@length (Z * Z)) b2)) as T. intros T.
    rewrite <- (map_map (map fst) (pad_to T padding_index) b1).
    rewrite <- (map_map (map fst) (pad_to T padding_index) b2).
    now rewrite H.
Qed.

(** The strict order of the scores: no score is below itself, and what is
    above a score is not below anything that the score is not below. *)
Hypothesis Rltb_irrefl : forall a, Rltb a a = false.
Hypothesis Rltb_above :
  forall a b c, Rltb a b = true -> Rltb a c = false -> Rltb b c = false.

(** [i] is the index of an entry of [row] that no entry exceeds. *)
Definition largest_at (row : list R) (i : Z) : Prop :=
  (0 <= i)%Z /\
  exists vi, nth_error row (Z.to_nat i) = Some vi /\
             forall v, In v row -> Rltb vi v = false.

Lemma argmax_from_largest (row pre : list R) (best : R) (ibest : nat) :
  nth_error pre ibest = Some best ->
  (forall v, In v pre -> Rltb best v = false) ->
  exists vj, nth_error (pre ++ row) (argmax_from best ibest (length pre) row) = Some vj /\
             forall v, In v (pre ++ row) -> Rltb vj v = false.
Proof.
  revert pre best ibest.
  induction row as [|x row IH]; intros pre best ibest Hbest Hmax; cbn [argmax_from].
  - rewrite app_nil_r. eauto.
  - replace (pre ++ x :: row) with ((pre ++ [x]) ++ row) by now rewrite <- app_assoc.
    replace (Datatypes.S (length pre)) with (length (pre ++ [x]))
      by (rewrite length_app; cbn [length]; lia).
    destruct (Rltb best x) eqn:E; apply IH.
    + rewrite nth_error_app2 by lia. now rewrite Nat.sub_diag.
    + intros v Hv. apply in_app_or in Hv. destruct Hv as [Hv | [<- | []]].
      * exact (Rltb_above best x v E (Hmax v Hv)).
      * apply Rltb_irrefl.
    + rewrite nth_error_app1; [exact Hbest |]. apply nth_error_Some. congruence.
    + intros v Hv. apply in_app_or in Hv. destruct Hv as [Hv | [<- | []]];
        [exact (Hmax v Hv) | exact E].
Qed.

(** [argmax] gives the index of a largest entry. *)
Lemma argmax_largest (row : list R) (i : Z) : argmax row = Ok i -> largest_at row i.
Proof.
  destruct row as [|x row]; [discriminate |]. cbn [argmax]. intros H. inversion H; subst i.
  split; [lia |]. rewrite Nat2Z.id.
  apply (argmax_from_largest row [x] x 0 eq_refl).
  intros v [<- | []]. apply Rltb_irrefl.
Qed.

Lemma mapr_Forall2 {A B} (f : A -> result B) (l : list A) (ys : list B) :
  mapr f l = Ok ys -> Forall2 (fun x y => f x = Ok y) l ys.
Proof.
  revert ys. induction l as [|x l IH]; intros ys H; cbn [mapr] in H.
  - inversion H. constructor.
  - apply rbind_Ok_inv in H. destruct H as (y & Hy & H).
    apply rbind_Ok_inv in H. destruct H as (ys' & Hys & H).
    inversion H; subst ys. constructor; [exact Hy | exact (IH ys' Hys)].
Qed.

(** The indexes of [topk(1)], squeezed, select a largest entry of every row
    of every example. *)
Lemma topk1_largest (o : T3) (topi : list (list (list Z))) :
  topk1 o = Ok topi -> Forall2 (Forall2 largest_at) o (squeeze1 topi).
Proof.
  unfold topk1, squeeze1. intros H. apply mapr_Forall2 in H.
  induction H as [|rows ys o topi Hrows _ IH]; cbn [map]; constructor; [| exact IH].
  apply mapr_Forall2 in Hrows. clear -Hrows Rltb_irrefl Rltb_above.
  induction Hrows as [|row y rows ys Hrow _ IH]; cbn [concat]; [constructor |].
  apply rbind_Ok_inv in Hrow. destruct Hrow as (i & Hi & Hy). inversion Hy; subst y.
  cbn [app]. constructor; [exact (argmax_largest row i Hi) | exact IH].
Qed.

(** C6.  After every step of the decoding loop the input of the next step
    is, for every example of the batch, the index of a largest
    log-probability of the output of this step, in any state of the module,
    in training mode or not; and the scores of [forward] are those of any
    batch with the same tokens, whatever its gold labels. *)
Theorem greedy_feedback :
  (forall m n d st d' st',
     for_range (Datatypes.S n) (decode_step m) d st = (Ok d', st') ->
     exists mid st_mid o topi,
       for_range n (decode_step m) d st = (Ok mid, st_mid) /\
       decoder_forward m (decoder_input mid) (hidden_decoder mid) st_mid
       = (Ok (o, hidden_decoder d'), st') /\
       results d' = results mid ++ [o] /\
       topk1 o = Ok topi /\
       decoder_input d' = squeeze1 topi /\
       Forall2 (Forall2 largest_at) o (decoder_input d')) /\
  (forall m b1 b2 st,
     map (map fst) b1 = map (map fst) b2 ->
     scores (forward m b1 st) = scores (forward m b2 st)).
Proof.
  split.
  - intros m n d st d' st' H. rewrite for_range_succ in H.
    apply bind_Ok_inv in H. destruct H as (mid & st_mid & Hmid & Hstep).
    exists mid, st_mid. unfold decode_step in Hstep.
    apply bind_Ok_inv in Hstep. destruct Hstep as ([o h] & st1 & Hf & Hrest).
    cbn [fst snd] in Hrest.
    apply bind_Ok_inv in Hrest. destruct Hrest as (topi & st2 & Ht & Hret).
    apply lift_Ok in Ht. destruct Ht as [Ht ->].
    unfold ret in Hret. inversion Hret; subst. cbn [results decoder_input hidden_decoder].
    exists o, topi. repeat split; try assumption. exact (topk1_largest o topi Ht).
  - intros m b1 b2 st H. unfold forward.
    pose proof (tokens_determine_batch b1 b2 H) as [Hl Hd].
    assert (Hs : scores (forward_decode m b1 st) = scores (forward_decode m b2 st)).
    { unfold forward_decode. rewrite Hl, Hd.
      repeat (apply scores_bind; intros ? ?). reflexivity. }
    unfold bind at 1 4.
    destruct (forward_decode m b1 st) as [[[d1 l1] | e1] s1];
      destruct (forward_decode m b2 st) as [[[d2 l2] | e2] s2];
      unfold scores in Hs; cbn [fst snd rbind] in Hs; inversion Hs; subst;
      [| reflexivity].
    cbn [fst snd]. unfold bind, lift, ret, scores.
    destruct (cat_dim1 (results d2)) as [y | e]; [| reflexivity].
    destruct (view_rows (tagset_size m) y) as [logp | e]; reflexivity.
Qed.

(** C7.  The hidden state handed to the decoder: for a bidirectional encoder,
    the two direction slices of its final hidden state joined along the
    feature axis, of size twice the half of [hidden_dim], which is
    [hidden_dim] when that is even; otherwise the final hidden state of the
    encoder as it is. *)
Theorem bridge_hidden_state (o : aux) (data : T3) (n : nat) :
  let h := snd (gru_encoder o data (init_hidden_encoder self n)) in
  (bidirectional self = true ->
   exists h0 h1,
     h = [h0; h1] /\
     bridge self h = Ok [map2 (@app R) h0 h1] /\
     shape2 (map2 (@app R) h0 h1) = repeat (2 * Z.to_nat (hidden_dim self / 2)) n /\
     (Z.even (hidden_dim self) = true ->
      shape2 (map2 (@app R) h0 h1) = repeat (Z.to_nat (hidden_dim self)) n)) /\
  (bidirectional self = false -> bridge self h = Ok h).
Proof.
  cbv zeta. pose proof (gru_encoder_hidden o data (init_hidden_encoder self n)) as H.
  unfold bridge, init_hidden_encoder in *.
  destruct (bidirectional self); split; try discriminate; intros _; [| reflexivity].
  rewrite zeros_shape in H.
  destruct (snd (gru_encoder o data _)) as [|h0 [|h1 [|h2 h]]]; try discriminate.
  cbn in H. injection H as H0 H1.
  exists h0, h1. split; [reflexivity |].
  cbn [index0 nth_error rbind]. unfold cat2_dim1.
  rewrite (shape2_length _ _ _ H0), (shape2_length _ _ _ H1), Nat.eqb_refl.
  cbn [rbind]. split; [reflexivity |].
  assert (Hs : shape2 (map2 (@app R) h0 h1) = repeat (2 * Z.to_nat (hidden_dim self / 2)) n).
  { replace (2 * Z.to_nat (hidden_dim self / 2))
      with (Z.to_nat (hidden_dim self / 2) + Z.to_nat (hidden_dim self / 2)) by lia.
    now apply map2_app_shape. }
  split; [exact Hs |]. intros He. rewrite Hs. f_equal.
  apply Z.even_spec in He. destruct He as [k Hk]. rewrite Hk.
  rewrite (Z.mul_comm 2 k), Z.div_mul by lia. lia.
Qed.

(** * Further properties of the launcher *)

(** The class of a constructed model. *)
Definition model_class (m : model) : string :=
  match m with
  | Encoder _ => "encoder.EncoderDecoderRNN"
  | Other cls _ => cls
  end.

Lemma assert_Ok (b : bool) (msg : string) (u : unit) : assert b msg = Ok u -> b = true.
Proof. destruct b; [reflexivity | discriminate]. Qed.

(** What [parse_opts] returns for the numbers and names it has checked. *)
Lemma parse_opts_Ok (opts : list (string * string)) (res : params) :
  parse_opts opts = Ok res ->
  exists lr drop_ decay embedding_norm batch_ epochs hidden_size,
    valid_config lr drop_ decay embedding_norm batch_ epochs hidden_size
      (get_or_empty opts "--sequence") (get_or_empty opts "--model")
      (get_or_empty opts "--dataset") = true /\
    res = [ ("lr", VFloat lr); ("drop", VFloat drop_); ("decay", VFloat decay);
            ("embedding_norm", VFloat embedding_norm); ("batch", VInt batch_);
            ("epochs", VInt epochs); ("hidden_size", VInt hidden_size);
            ("model", VStr (get_or_empty opts "--model"));
            ("dataset", VStr (get_or_empty opts "--dataset"));
            ("sequence", VStr (get_or_empty opts "--sequence"));
            ("save", get_or_none opts "--save");
            ("write", get_or_none opts "--write");
            ("dev", VBool (dict_mem String.eqb opts "--dev"));
            ("bidirectional", VBool (dict_mem String.eqb opts "--bidirectional"));
            ("unfreeze", VBool (dict_mem String.eqb opts "--unfreeze")) ]
          ++ (if String.eqb (get_or_empty opts "--dataset") "movies"
              then [("embedding",
                     match dict_get String.eqb opts "--embedding" with
                     | Some s => VStr s
                     | None => VStr "../data/movies/w2v_trimmed.pickle"
                     end)]
              else [])
          ++ [("char_embedding", get_or_none opts "--char_embedding")].
Proof.
  unfold parse_opts. intros H.
  repeat match type of H with
         | rbind _ _ = Ok _ =>
             apply rbind_Ok_inv in H; let a := fresh "a" in let E := fresh "E" in
             destruct H as (a & E & H)
         end.
  repeat match goal with
         | E : assert _ _ = Ok _ |- _ => apply assert_Ok in E
         end.
  inversion H; subst res; clear H.
  eexists _, _, _, _, _, _, _. split; [| reflexivity].
  unfold valid_config, listed_valid.
  repeat match goal with
         | E : _ = true |- _ => rewrite E; clear E
         end.
  reflexivity.
Qed.

Lemma parse_args_Ok (argv : list string) (res : params) :
  parse_args argv = Ok res -> exists opts, parse_opts opts = Ok res.
Proof.
  unfold parse_args. destruct (getopt argv longopts) as [[o rest] | e]; [| discriminate].
  destruct (dict_mem String.eqb (dict_of o) "--help"); [discriminate | eauto].
Qed.

(** X7.  Every dictionary that [parse_args] returns is a valid configuration:
    its learning rate, batch size, epoch count and hidden size are positive,
    its dropout, decay and embedding norm are not negative, and its model,
    sequence and dataset are among the supported ones. *)
Theorem parse_args_returns_valid (argv : list string) (res : params) :
  parse_args argv = Ok res ->
  exists lr drop_ decay embedding_norm batch_ epochs hidden_size sequence model_ dataset,
    subscript res "lr" = Ok (VFloat lr) /\
    subscript res "drop" = Ok (VFloat drop_) /\
    subscript res "decay" = Ok (VFloat decay) /\
    subscript res "embedding_norm" = Ok (VFloat embedding_norm) /\
    subscript res "batch" = Ok (VInt batch_) /\
    subscript res "epochs" = Ok (VInt epochs) /\
    subscript res "hidden_size" = Ok (VInt hidden_size) /\
    subscript res "sequence" = Ok (VStr sequence) /\
    subscript res "model" = Ok (VStr model_) /\
    subscript res "dataset" = Ok (VStr dataset) /\
    valid_config lr drop_ decay embedding_norm batch_ epochs hidden_size
      sequence model_ dataset = true.
Proof.
  intros H. apply parse_args_Ok in H. destruct H as [opts H].
  apply parse_opts_Ok in H.
  destruct H as (lr & drop_ & decay & norm & batch_ & epochs & hidden & Hv & ->).
  exists lr, drop_, decay, norm, batch_, epochs, hidden.
  eexists _, _, _. repeat split; try reflexivity. exact Hv.
Qed.

Lemma eq_str_true (v : value) (s : string) : eq_str v s = true -> v = VStr s.
Proof.
  destruct v; try discriminate. cbn. intros H. apply String.eqb_eq in H. now subst.
Qed.

(** X8.  The dictionary of [parse_args] holds the key [embedding] for the
    dataset movies only: for the other supported datasets, atis and vui,
    [pick_model_transform] ends at once in a [KeyError] and constructs
    nothing. *)
Theorem launcher_needs_movies (argv : list string) (ps : params) (w : world) :
  parse_args argv = Ok ps ->
  subscript ps "dataset" <> Ok (VStr "movies") ->
  pick_model_transform ps w = (Raise (KeyError "embedding"), w).
Proof.
  intros H Hd. apply parse_args_Ok in H. destruct H as [opts H].
  apply parse_opts_Ok in H. destruct H as (? & ? & ? & ? & ? & ? & ? & _ & ->).
  unfold pick_model_transform. unfold bind at 1, lift.
  destruct (String.eqb (get_or_empty opts "--dataset") "movies") eqn:E.
  - exfalso. apply Hd. apply String.eqb_eq in E. cbn. now rewrite E.
  - reflexivity.
Qed.

Lemma instantiate_Ok (cls : string) (args : result (list value)) (w w' : world)
    (m : option model) :
  instantiate cls args w = (Ok m, w') ->
  exists om, m = Some (Other cls om) /\
             files w' = files w /\ log w' = log w ++ [Construct cls].
Proof.
  unfold instantiate. intros H.
  apply bind_Ok_inv in H. destruct H as (a & w1 & H1 & H).
  apply lift_Ok in H1. destruct H1 as [_ ->].
  apply bind_Ok_inv in H. destruct H as ([] & w2 & H2 & H).
  unfold emit, modify in H2. inversion H2; subst w2; clear H2.
  apply bind_Ok_inv in H. destruct H as (om & w3 & H3 & H).
  apply lift_Ok in H3. destruct H3 as [_ ->].
  unfold ret in H. inversion H; subst. exists om. repeat split.
Qed.

Lemma pick_model_Some (ps : params) (w2v c2v : value) (cv : vocab) (w w' : world)
    (m : option model) :
  pick_model ps w2v c2v cv w = (Ok m, w') ->
  (m = None /\ w' = w) \/
  exists n m',
    m = Some m' /\
    subscript ps "model" = Ok (VStr n) /\ py_in n possible_models = true /\
    n <> "encoder" /\ model_class m' = class_of n /\
    files w' = files w /\ log w' = log w ++ [Construct (class_of n)].
Proof.
  unfold pick_model. intros H.
  apply bind_Ok_inv in H. destruct H as (mv & w1 & H1 & H).
  apply lift_Ok in H1. destruct H1 as [Hm ->].
  destruct (eq_str mv "recurrent" || eq_str mv "gru" || eq_str mv "rnn") eqn:E1.
  { right. apply instantiate_Ok in H. destruct H as (om & -> & Hf & Hl).
    apply orb_prop in E1. destruct E1 as [E1 | E1]; [apply orb_prop in E1; destruct E1 as [E1 | E1] |];
      apply eq_str_true in E1; subst mv;
      eexists _, _; (split; [reflexivity |]); (split; [exact Hm |]);
      repeat split; try assumption; try reflexivity; discriminate. }
  destruct (eq_str mv "lstm2ch") eqn:E2.
  { right. apply instantiate_Ok in H. destruct H as (om & -> & Hf & Hl).
    apply eq_str_true in E2; subst mv.
    eexists _, _; (split; [reflexivity |]); (split; [exact Hm |]);
      repeat split; try assumption; try reflexivity; discriminate. }
  destruct (eq_str mv "encoder") eqn:E3.
  { exfalso.
    apply bind_Ok_inv in H. destruct H as (a & w1 & H1 & H).
    apply lift_Ok in H1. destruct H1 as [Ha ->].
    destruct (encoder_args_form _ _ _ _ Ha) as (h & d & b & f & n1 & n2 & ->).
    apply bind_Ok_inv in H. destruct H as ([] & w2 & _ & H).
    apply bind_Ok_inv in H. destruct H as (e & w3 & H3 & _).
    apply lift_Ok in H3. destruct H3 as [H3 _].
    rewrite encoder_call_raises in H3. discriminate. }
  destruct (eq_str mv "attention") eqn:E4.
  { right. apply instantiate_Ok in H. destruct H as (om & -> & Hf & Hl).
    apply eq_str_true in E4; subst mv.
    eexists _, _; (split; [reflexivity |]); (split; [exact Hm |]);
      repeat split; try assumption; try reflexivity; discriminate. }
  destruct (eq_str mv "conv") eqn:E5.
  { right. apply instantiate_Ok in H. destruct H as (om & -> & Hf & Hl).
    apply eq_str_true in E5; subst mv.
    eexists _, _; (split; [reflexivity |]); (split; [exact Hm |]);
      repeat split; try assumption; try reflexivity; discriminate. }
  destruct (eq_str mv "init_hidden") eqn:E6.
  { right. apply instantiate_Ok in H. destruct H as (om & -> & Hf & Hl).
    apply eq_str_true in E6; subst mv.
    eexists _, _; (split; [reflexivity |]); (split; [exact Hm |]);
      repeat split; try assumption; try reflexivity; discriminate. }
  destruct (eq_str mv "lstmcrf") eqn:E7.
  { right. apply instantiate_Ok in H. destruct H as (om & -> & Hf & Hl).
    apply eq_str_true in E7; subst mv.
    eexists _, _; (split; [reflexivity |]); (split; [exact Hm |]);
      repeat split; try assumption; try reflexivity; discriminate. }
  left. unfold ret in H. inversion H. now split.
Qed.

(** What a return of [pick_model_transform] tells. *)
Lemma pick_model_transform_Ok (ps : params) (w w' : world)
    (r : model * init_transform * drop_transform) :
  pick_model_transform ps w = (Ok r, w') ->
  exists n,
    subscript ps "model" = Ok (VStr n) /\ py_in n possible_models = true /\
    n <> "encoder" /\ model_class (fst (fst r)) = class_of n /\
    subscript ps "dataset" = Ok (VStr "movies") /\
    files w' = files w /\
    log w' = log w ++ [Construct (class_of n); Print "total trainable parameters"].
Proof.
  unfold pick_model_transform. intros H.
  repeat match type of H with
         | bind (lift _) _ _ = (Ok _, _) =>
             apply bind_Ok_inv in H;
             let a := fresh "a" in let s := fresh "s" in let E := fresh "E" in
             destruct H as (a & s & E & H); apply lift_Ok in E; destruct E as [E ->]
         end.
  apply bind_Ok_inv in H. destruct H as (picked & w1 & Hp & H).
  apply bind_Ok_inv in H. destruct H as (m & w2 & Hm & H).
  apply lift_Ok in Hm. destruct Hm as [Hm ->].
  apply bind_Ok_inv in H. destruct H as ([] & w3 & He & H).
  unfold emit, modify in He. inversion He; subst w3; clear He.
  unfold ret in H. inversion H; subst r w'; clear H. cbn [fst snd files log].
  destruct (pick_model_Some _ _ _ _ _ _ _ Hp) as [[-> _] | (n & m' & -> & Hn & Hin & Hne & Hc & Hf & Hl)];
    [discriminate |].
  cbn in Hm. inversion Hm; subst m'.
  exists n. repeat split; try assumption.
  - match goal with
    | E : local "class_vocab" (if eq_str ?d "movies" then _ else _) = Ok _,
      D : subscript ps "dataset" = Ok ?d |- _ =>
        destruct (eq_str d "movies") eqn:Em; [| discriminate E];
        apply eq_str_true in Em; now rewrite D, Em
    end.
  - rewrite Hl, <- app_assoc. reflexivity.
Qed.

(** X9.  When [pick_model_transform] returns, the dataset is movies, the
    model is not the encoder and is of the class that its name selects, and
    the run has instantiated that one class and touched no file. *)
Theorem pick_model_transform_returns (ps : params) (w w' : world)
    (m : model) (i : init_transform) (d : drop_transform) :
  pick_model_transform ps w = (Ok (m, i, d), w') ->
  exists n,
    subscript ps "model" = Ok (VStr n) /\ py_in n possible_models = true /\
    n <> "encoder" /\ model_class m = class_of n /\
    subscript ps "dataset" = Ok (VStr "movies") /\
    files w' = files w /\
    log w' = log w ++ [Construct (class_of n); Print "total trainable parameters"].
Proof.
  intros H. exact (pick_model_transform_Ok ps w w' (m, i, d) H).
Qed.

(** * Further properties of the encoder-decoder model *)

(** What [forward] returns on a module that can decode, for a batch that its
    layers accept. *)
Lemma forward_rows (b : batch) (st : module_state) :
  decodes self -> accepted self b -> state_ok self st ->
  exists logp st',
    forward self b st = (Ok (logp, flat_labels padding_index b), st') /\
    length logp = length b * max_length b /\
    Forall (fun row => length row = Z.to_nat (tagset_size self)) logp /\
    state_ok self st'.
Proof.
  intros Hdec Hacc Hst.
  assert (Hpos : (0 < tagset_size self)%Z) by apply Hdec.
  assert (HT : 0 < max_length b) by apply Hacc.
  destruct (forward_decode_Ok b st Hdec Hacc Hst) as (d & st' & Hf & Hl & Hres & Hst').
  destruct (cat_dim1_Ok (length b) (Z.to_nat (tagset_size self)) (results d))
    as (y & Hy & Hs & Hc & _); [| exact Hres |].
  { intros E. rewrite E in Hl. cbn in Hl. lia. }
  exists (concat y), st'. split.
  { unfold forward. rewrite (bind_Ok _ _ _ _ _ Hf). cbn [fst snd].
    unfold bind, lift, ret. rewrite Hy. now rewrite (view_rows_Ok _ _ Hpos Hc). }
  split.
  { rewrite (concat_length_uniform _ _ (shape2_rows _ _ _ Hs)).
    now rewrite (shape2_length _ _ _ Hs), Hl. }
  split; [now apply Forall_concat | exact Hst'].
Qed.

Lemma argmax_dim1_range (c : nat) (logp : T2) :
  0 < c -> Forall (fun row => length row = c) logp ->
  exists idx, argmax_dim1 logp = Ok idx /\ length idx = length logp /\
              Forall (fun i => (0 <= i < Z.of_nat c)%Z) idx.
Proof.
  intros Hc H. unfold argmax_dim1. induction H as [|row logp Hrow _ IH]; cbn [mapr].
  - exists []. repeat split; constructor.
  - destruct (argmax_bound row) as (i & Hi & Hb).
    { intros ->. cbn in Hrow. lia. }
    destruct IH as (idx & Hidx & Hl & Hr). rewrite Hi, Hidx. cbn [rbind].
    exists (i :: idx). split; [reflexivity |]. split; [cbn [length]; now rewrite Hl |].
    constructor; [lia | exact Hr].
Qed.

(** X11.  The labels predicted from the scores of [forward] are labels of the
    tag set: on a module that can decode and a batch that its layers accept,
    [forward] returns and the arg-max of every returned row is at least 0 and
    below [tagset_size], so never the start index. *)
Theorem forward_predictions_in_range (b : batch) (st : module_state) :
  decodes self ->
  accepted self b ->
  state_ok self st ->
  exists logp labels st' idx,
    forward self b st = (Ok (logp, labels), st') /\
    argmax_dim1 logp = Ok idx /\
    length idx = length labels /\
    Forall (fun i => (0 <= i < tagset_size self)%Z) idx.
Proof.
  intros Hdec Hacc Hst.
  assert (Hpos : (0 < tagset_size self)%Z) by apply Hdec.
  destruct (forward_rows b st Hdec Hacc Hst) as (logp & st' & Hf & Hl & Hrows & _).
  destruct (argmax_dim1_range (Z.to_nat (tagset_size self)) logp) as (idx & Hi & Hli & Hr);
    [lia | exact Hrows |].
  exists logp, (flat_labels padding_index b), st', idx.
  split; [exact Hf |]. split; [exact Hi |]. split.
  - rewrite Hli, Hl. unfold flat_labels.
    pose proof (batch_sequence_shape b) as [_ Hlab].
    rewrite (concat_length_uniform _ _ (shape2_rows _ _ _ Hlab)).
    now rewrite (shape2_length _ _ _ Hlab).
  - eapply Forall_impl; [| exact Hr]. cbv beta. intros i Hi'. lia.
Qed.

Lemma no_token_examples (b : batch) : max_length b = 0 -> b = repeat [] (length b).
Proof.
  intros HT. induction b as [|e b IH]; [reflexivity |].
  pose proof (max_length_ge (e :: b) e ltac:(now left)) as He.
  assert (Hb : max_length b = 0).
  { unfold max_length in *. cbn [map fold_right] in HT. lia. }
  cbn [length repeat]. rewrite <- (IH Hb).
  rewrite HT in He. destruct e; [reflexivity | cbn [length] in He; lia].
Qed.

(** X13.  A batch of examples without any token makes [forward] raise on
    line 93: the encoder refuses a sequence without a step, before the
    decoding loop is reached.  The tag-embedding table is as before the
    call. *)
Theorem forward_no_token_raises (b : batch) (st : module_state) :
  built self ->
  max_norm_ok (max_norm_emb1 self) = true ->
  b <> [] ->
  max_length b = 0 ->
  fst (forward self b st)
  = Raise (RuntimeError "Expected sequence length to be larger than 0 in RNN") /\
  embedding_decoder_weight (snd (forward self b st)) = embedding_decoder_weight st.
Proof.
  intros Hbuilt Hn1 _ HT.
  destruct (built_inv self Hbuilt) as (Hghs & _).
  destruct (renormalises_Ok _ Hn1) as [r1 Hr1].
  assert (Htable : forallb (forallb (fun i => (0 <=? i)%Z && (i <? num_embeddings self)%Z))
                     (fst (fst (batch_sequence padding_index b))) = true).
  { unfold batch_sequence. cbn [fst]. rewrite HT. rewrite (no_token_examples b HT).
    rewrite map_repeat. cbn [map pad_to length repeat app Nat.sub].
    apply forallb_forall. intros r Hr. apply repeat_spec in Hr. now subst r. }
  assert (H : exists st1,
             forward self b st
             = (Raise (RuntimeError "Expected sequence length to be larger than 0 in RNN"),
                st1) /\
             embedding_decoder_weight st1 = embedding_decoder_weight st).
  { unfold forward, forward_decode, embedding_encoder_forward.
    unfold bind at 1. unfold bind at 2. unfold bind at 2. unfold lift at 1.
    rewrite Hr1, Htable. unfold ret at 1. rewrite bind_run, bind_run.
    cbn [other embedding_decoder_weight fst snd].
    match goal with
    | |- context [gru_forward gru_encoder ?k ?hs ?x0 ?h] => set (x := x0)
    end.
    assert (Hx : shape2 x = repeat (max_length b) (length b)).
    { subst x. rewrite drop_shape, embedding_encoder_shape. apply batch_sequence_shape. }
    unfold bind at 1. unfold gru_forward.
    destruct (list_eq_dec _ _ _) as [_ | Hne].
    - rewrite (size1_shape _ b Hx), HT. cbn [Nat.eqb]. unfold raise.
      eexists. split; reflexivity.
    - exfalso. apply Hne. rewrite (shape2_length _ _ _ Hx).
      unfold init_hidden_encoder. rewrite Hghs.
      destruct (bidirectional self); rewrite zeros_shape; [reflexivity |].
      now rewrite Z.div_1_r. }
  destruct H as (st1 & -> & Hw). split; [reflexivity | exact Hw].
Qed.

Lemma predict_batch_encoder (acc : list (list Z)) (e : example) (st : module_state) :
  decodes self -> accepted self [e] -> state_ok self st ->
  exists idx st',
    predict_batch (Encoder self) acc e st = (Ok (acc ++ [idx]), st') /\
    length idx = length e /\
    Forall (fun i => (0 <= i < tagset_size self)%Z) idx /\
    state_ok self st'.
Proof.
  intros Hdec Hacc Hst.
  assert (Hpos : (0 < tagset_size self)%Z) by apply Hdec.
  assert (HT : max_length [e] = length e).
  { unfold max_length. cbn [map fold_right]. apply Nat.max_0_r. }
  destruct (forward_rows [e] st Hdec Hacc Hst) as (logp & st' & Hf & Hl & Hrows & Hst').
  destruct (argmax_dim1_range (Z.to_nat (tagset_size self)) logp) as (idx & Hi & Hli & Hr);
    [lia | exact Hrows |].
  exists idx, st'. cbn [predict_batch]. rewrite (bind_Ok _ _ _ _ _ Hf). cbn [fst].
  unfold bind, lift, ret. rewrite Hi. split; [reflexivity |].
  split; [rewrite Hli, Hl, HT; cbn [length]; lia |].
  split; [| exact Hst'].
  eapply Forall_impl; [| exact Hr]. cbv beta. intros i Hi'. lia.
Qed.

(** X14.  For an encoder-decoder model that can decode and data of which
    every example is, on its own, a batch that the layers accept, [predict]
    returns one sequence per example, in the order of the data, with one
    label per token, every label at least 0 and below [tagset_size]. *)
Theorem predict_one_label_per_token (data : list example) (st : module_state) :
  decodes self ->
  state_ok self st ->
  Forall (fun e => accepted self [e]) data ->
  exists ys st',
    predict (Encoder self) data st = (Ok ys, st') /\
    map (@length Z) ys = map (@length (Z * Z)) data /\
    Forall (Forall (fun i => (0 <= i < tagset_size self)%Z)) ys /\
    state_ok self st'.
Proof.
  intros Hdec Hst Hdata. unfold predict.
  assert (H : forall acc st0, state_ok self st0 ->
            exists ys st',
              for_each (predict_batch (Encoder self)) data acc st0 = (Ok (acc ++ ys), st') /\
              map (@length Z) ys = map (@length (Z * Z)) data /\
              Forall (Forall (fun i => (0 <= i < tagset_size self)%Z)) ys /\
              state_ok self st').
  { induction Hdata as [|e data He _ IH]; intros acc st0 Hst0; cbn [for_each].
    - exists [], st0. unfold ret. rewrite app_nil_r. repeat split; [constructor | exact Hst0].
    - destruct (predict_batch_encoder acc e st0 Hdec He Hst0)
        as (idx & st1 & Hp & Hl & Hr & Hst1).
      rewrite (bind_Ok _ _ _ _ _ Hp).
      destruct (IH (acc ++ [idx]) st1 Hst1) as (ys & st' & Hf & Hm & Hy & Hst').
      exists (idx :: ys), st'. rewrite Hf, <- app_assoc. split; [reflexivity |].
      split; [cbn [map]; now rewrite Hl, Hm |]. split; [now constructor | exact Hst']. }
  destruct (H [] st Hst) as (ys & st' & Hf & Hm & Hy & Hst').
  exists ys, st'. now repeat split.
Qed.

Lemma update_at_other {A} (f : A -> A) (i j : nat) (l : list A) :
  i <> j -> nth_error (update_at f i l) j = nth_error l j.
Proof.
  revert i j. induction l as [|x l IH]; intros [|i] [|j] H; cbn [update_at nth_error];
    try reflexivity; try congruence.
  apply IH. congruence.
Qed.

(** The table after a computation has as many rows as before, and the row of
    index [tagset_size] is as before. *)
Definition spared (st st' : module_state) : Prop :=
  length (embedding_decoder_weight st') = length (embedding_decoder_weight st) /\
  nth_error (embedding_decoder_weight st') (Z.to_nat (tagset_size self))
  = nth_error (embedding_decoder_weight st) (Z.to_nat (tagset_size self)).

(** A computation that spares the row whatever its outcome, and whose result,
    when it has one, satisfies [Q]. *)
Definition keeps_row {A} (m : M module_state A) (Q : A -> Prop) : Prop :=
  forall st, spared st (snd (m st)) /\ forall a, fst (m st) = Ok a -> Q a.

(** Indexes of tags, all below the index of the start token. *)
Definition below_start (input : list (list Z)) : Prop :=
  Forall (Forall (fun i => (0 <= i < tagset_size self)%Z)) input.

Lemma spared_refl (st : module_state) : spared st st.
Proof. now split. Qed.

Lemma keeps_row_bind {A B} (m : M module_state A) (k : A -> M module_state B)
    (P : A -> Prop) (Q : B -> Prop) :
  keeps_row m P -> (forall a, P a -> keeps_row (k a) Q) -> keeps_row (bind m k) Q.
Proof.
  intros Hm Hk st. unfold bind. destruct (Hm st) as [[Hl Hr] HP].
  destruct (m st) as [[a | e] st1]; cbn [fst snd] in *.
  - destruct (Hk a (HP a eq_refl) st1) as [[Hl1 Hr1] HQ].
    split; [| exact HQ]. split; congruence.
  - split; [now split | discriminate].
Qed.

Lemma keeps_row_same {A} (m : M module_state A) (Q : A -> Prop) :
  (forall st, embedding_decoder_weight (snd (m st)) = embedding_decoder_weight st) ->
  (forall st a, fst (m st) = Ok a -> Q a) ->
  keeps_row m Q.
Proof.
  intros Hs HQ st. split; [| apply HQ]. unfold spared. now rewrite Hs.
Qed.

Lemma keeps_row_run {A} (f : aux -> A * aux) : keeps_row (run f) (fun _ => True).
Proof.
  apply keeps_row_same; [| trivial]. intros st. unfold run. now destruct (f (other st)).
Qed.

Lemma keeps_row_pure {A} (r : result A) : keeps_row (lift r) (fun _ => True).
Proof. now apply keeps_row_same. Qed.

Lemma keeps_row_gru (gru : aux -> T3 -> T3 -> T3 * T3) (slices : nat) (hidden_size : Z)
    (x h : T3) :
  keeps_row (gru_forward gru slices hidden_size x h) (fun _ => True).
Proof.
  apply keeps_row_same; [| trivial]. intros st. unfold gru_forward.
  destruct (list_eq_dec _ _ _); [destruct (Nat.eqb (size1 x) 0) |]; reflexivity.
Qed.

Lemma keeps_row_bnorm (x : T4) : keeps_row (bnorm_forward self x) (fun _ => True).
Proof.
  apply keeps_row_same; [| trivial]. intros st. unfold bnorm_forward, bind, read, run, raise.
  destruct (training (other st) && _); [reflexivity |].
  now destruct (bnorm x (other st)).
Qed.

Lemma renorm_rows_frame (idx : list Z) (w w' : T2) (k : nat) :
  Forall (fun i => (0 <= i < Z.of_nat k)%Z) idx ->
  fold_left (fun w i => rbind w (fun w' => renorm_row w' i)) idx (Ok w) = Ok w' ->
  length w' = length w /\ nth_error w' k = nth_error w k.
Proof.
  intros Hidx. revert w. induction Hidx as [|i idx Hi _ IH]; intros w H; cbn [fold_left] in H.
  - inversion H. now split.
  - cbn [rbind] in H. unfold renorm_row in H.
    destruct ((i <? 0)%Z || Nat.leb (length w) (Z.to_nat i)).
    + exfalso. clear -H. induction idx as [|j idx IHidx]; cbn [fold_left rbind] in H;
        [discriminate | auto].
    + destruct (IH _ H) as [Hl Hr]. rewrite Hl, Hr, update_at_length.
      split; [reflexivity |]. apply update_at_other. lia.
Qed.

Lemma keeps_row_embedding_decoder (input : list (list Z)) :
  (0 <= tagset_size self)%Z -> below_start input ->
  keeps_row (embedding_decoder self input) (fun _ => True).
Proof.
  intros Hpos Hin st. split; [| trivial]. unfold embedding_decoder, bind, lift.
  destruct (renormalises (max_norm_emb2 self)) as [[|] | e]; cbn [snd];
    try (now split).
  destruct (fold_left _ (concat input) (Ok (embedding_decoder_weight st))) as [w | e] eqn:E;
    cbn [snd]; [| apply spared_refl].
  unfold spared. cbn [embedding_decoder_weight].
  apply (renorm_rows_frame (concat input)); [| exact E].
  apply Forall_concat. eapply Forall_impl; [| exact Hin]. intros r Hr.
  eapply Forall_impl; [| exact Hr]. cbv beta. intros i Hi. lia.
Qed.

Lemma keeps_row_decoder_forward (input : list (list Z)) (hidden : T3) :
  (0 <= tagset_size self)%Z -> below_start input ->
  keeps_row (decoder_forward self input hidden)
    (fun r => Forall (Forall (fun row => length row = Z.to_nat (tagset_size self))) (fst r)).
Proof.
  intros Hpos Hin. unfold decoder_forward.
  eapply keeps_row_bind; [exact (keeps_row_embedding_decoder input Hpos Hin) | intros x _].
  eapply keeps_row_bind; [apply keeps_row_run | intros x1 _].
  eapply keeps_row_bind; [apply keeps_row_gru | intros g _].
  eapply keeps_row_bind; [apply keeps_row_bnorm | intros y _].
  eapply keeps_row_bind; [apply keeps_row_run | intros y1 _].
  eapply keeps_row_bind.
  { apply (keeps_row_same _
             (Forall (Forall (fun row => length row = Z.to_nat (tagset_size self)))));
      [reflexivity |].
    intros st a H. unfold read in H. cbn [fst] in H. inversion H; subst a.
    apply Forall_forall. intros r Hr.
    apply in_map_iff in Hr. destruct Hr as (r1 & <- & _).
    apply Forall_forall. intros row Hrow.
    apply in_map_iff in Hrow. destruct Hrow as (row1 & <- & _).
    apply out_shape. }
  intros y2 Hy2. apply keeps_row_same; [reflexivity |].
  intros st a H. unfold ret in H. cbn [fst] in H. inversion H; subst a. cbn [fst].
  apply Forall_forall. intros r Hr.
  apply in_map_iff in Hr. destruct Hr as (r1 & <- & Hr1).
  apply Forall_forall. intros row Hrow.
  apply in_map_iff in Hrow. destruct Hrow as (row1 & <- & Hrow1).
  rewrite softmax_shape.
  rewrite Forall_forall in Hy2. specialize (Hy2 r1 Hr1).
  rewrite Forall_forall in Hy2. exact (Hy2 row1 Hrow1).
Qed.

Lemma argmax_range (row : list R) (i : Z) :
  argmax row = Ok i -> (0 <= i < Z.of_nat (length row))%Z.
Proof.
  intros H. destruct row as [|v row]; [discriminate |].
  destruct (argmax_bound (v :: row)) as (i' & Hi' & Hb); [discriminate |].
  rewrite H in Hi'. now inversion Hi'; subst.
Qed.

Lemma topk1_range (c : nat) (o : T3) (topi : list (list (list Z))) :
  Forall (Forall (fun row => length row = c)) o ->
  topk1 o = Ok topi ->
  Forall (Forall (fun i => (0 <= i < Z.of_nat c)%Z)) (squeeze1 topi).
Proof.
  unfold topk1, squeeze1. intros Ho H. apply mapr_Forall2 in H.
  induction H as [|rows ys o topi Hrows _ IH]; cbn [map]; constructor.
  - apply Forall_inv in Ho. apply mapr_Forall2 in Hrows. clear -Hrows Ho.
    induction Hrows as [|row y rows ys Hrow _ IH]; cbn [concat]; [constructor |].
    apply rbind_Ok_inv in Hrow. destruct Hrow as (i & Hi & Hy). inversion Hy; subst y.
    cbn [app]. constructor.
    + apply argmax_range in Hi. apply Forall_inv in Ho. lia.
    + apply IH. exact (Forall_inv_tail Ho).
  - apply IH. exact (Forall_inv_tail Ho).
Qed.

Lemma keeps_row_decode_step (d : decoder_state) :
  (0 <= tagset_size self)%Z -> below_start (decoder_input d) ->
  keeps_row (decode_step self d) (fun d' => below_start (decoder_input d')).
Proof.
  intros Hpos Hin. unfold decode_step.
  eapply keeps_row_bind;
    [exact (keeps_row_decoder_forward _ (hidden_decoder d) Hpos Hin) | intros r Hr].
  eapply keeps_row_bind.
  { apply (keeps_row_same _ (fun topi => topk1 (fst r) = Ok topi)); [reflexivity |].
    intros st a H. exact H. }
  intros topi Ht. apply keeps_row_same; [reflexivity |].
  intros st a H. unfold ret in H. cbn [fst] in H. inversion H; subst a.
  cbn [decoder_input]. unfold below_start.
  pose proof (topk1_range _ _ _ Hr Ht) as Hrange.
  eapply Forall_impl; [| exact Hrange]. intros r0 Hr0.
  eapply Forall_impl; [| exact Hr0]. cbv beta. intros i Hi. lia.
Qed.

Lemma keeps_row_for_range (k : nat) (d : decoder_state) :
  (0 <= tagset_size self)%Z -> below_start (decoder_input d) ->
  keeps_row (for_range k (decode_step self) d) (fun d' => below_start (decoder_input d')).
Proof.
  intros Hpos. revert d. induction k as [|k IH]; intros d Hin; cbn [for_range].
  - apply keeps_row_same; [reflexivity |].
    intros st a H. unfold ret in H. cbn [fst] in H. now inversion H; subst.
  - eapply keeps_row_bind; [exact (keeps_row_decode_step d Hpos Hin) | exact IH].
Qed.

Lemma keeps_row_forward (b : batch) :
  (0 < tagset_size self)%Z -> keeps_row (forward self b) (fun _ => True).
Proof.
  intros Hpos. unfold forward, forward_decode, embedding_encoder_forward.
  eapply keeps_row_bind with (P := fun _ => True); [| intros dl _].
  - eapply keeps_row_bind with (P := fun _ => True); [| intros x _].
    { eapply keeps_row_bind; [apply keeps_row_pure | intros r _].
      eapply keeps_row_bind with (P := fun _ => True); [| intros u _; apply keeps_row_run].
      destruct (forallb _ _); now apply keeps_row_same. }
    eapply keeps_row_bind; [apply keeps_row_run | intros x1 _].
    eapply keeps_row_bind; [apply keeps_row_gru | intros e _].
    eapply keeps_row_bind; [apply keeps_row_pure | intros hd _].
    eapply keeps_row_bind.
    { apply keeps_row_for_range; [lia |]. cbn [decoder_input].
      unfold below_start, start_input, zeros_long.
      apply Forall_forall. intros r Hr. apply repeat_spec in Hr. subst r.
      apply Forall_forall. intros i Hi. apply repeat_spec in Hi. subst i. lia. }
    intros d _. now apply keeps_row_same.
  - eapply keeps_row_bind; [apply keeps_row_pure | intros y _].
    eapply keeps_row_bind; [apply keeps_row_pure | intros logp _].
    now apply keeps_row_same.
Qed.

(** X15.  With at least one tag, [forward] never uses the row of the start
    token: whatever the batch and the state of the module, and whether the
    call returns or raises, the row of index [tagset_size] of the
    tag-embedding table is afterwards as it was, and the table has as many
    rows as before.  The indexes fed to the tag embedding are those of tags:
    the renormalisation touches only rows that are looked up. *)
Theorem forward_spares_start_row (b : batch) (st : module_state) :
  (0 < tagset_size self)%Z ->
  length (embedding_decoder_weight (snd (forward self b st)))
  = length (embedding_decoder_weight st) /\
  nth_error (embedding_decoder_weight (snd (forward self b st)))
            (Z.to_nat (tagset_size self))
  = nth_error (embedding_decoder_weight st) (Z.to_nat (tagset_size self)).
Proof.
  intros Hpos. exact (proj1 (keeps_row_forward b Hpos st)).
Qed.



(** * The files that [write_predictions] leaves alone *)

Lemma dict_get_set_other {V} (d : list (string * V)) (k k' : string) (v : V) :
  String.eqb k' k = false ->
  dict_get String.eqb (dict_set String.eqb d k v) k' = dict_get String.eqb d k'.
Proof.
  intros Hne. induction d as [|[k0 v0] d IH]; cbn [dict_set dict_get].
  - now rewrite Hne.
  - destruct (String.eqb k k0) eqn:E; cbn [dict_get].
    + apply String.eqb_eq in E. subst k0. now rewrite Hne.
    + destruct (String.eqb k' k0); [reflexivity | exact IH].
Qed.

(** The files other than [path] are the same in [f'] as in [f]. *)
Definition same_elsewhere (path : string) (f f' : fs) : Prop :=
  forall p, String.eqb p path = false ->
            dict_get String.eqb f' p = dict_get String.eqb f p.

Lemma same_elsewhere_refl (path : string) (f : fs) : same_elsewhere path f f.
Proof. now intros p _. Qed.

Lemma same_elsewhere_trans (path : string) (f g h : fs) :
  same_elsewhere path f g -> same_elsewhere path g h -> same_elsewhere path f h.
Proof.
  intros H1 H2 p Hp. now rewrite (H2 p Hp), (H1 p Hp).
Qed.

Lemma fs_write_elsewhere (path s : string) (f : fs) :
  same_elsewhere path f (snd (fs_write path s f)).
Proof.
  intros p Hp. unfold fs_write, modify. cbn [snd].
  destruct (dict_get String.eqb f path); now apply dict_get_set_other.
Qed.

Lemma write_sequence_elsewhere (index_to_class : list (Z * string)) (indexed : bool)
    (path : string) (rows : list (item * item * item)) (f : fs) :
  same_elsewhere path f (snd (write_sequence index_to_class indexed path rows f)).
Proof.
  revert f. induction rows as [|[[w c] p] rows IH]; intros f; cbn [write_sequence].
  - apply same_elsewhere_refl.
  - unfold bind at 1, lift.
    destruct (if indexed then getitem index_to_class c else Ok (py_str c)) as [conc | e];
      [| apply same_elsewhere_refl].
    unfold bind at 1.
    destruct (getitem index_to_class p) as [pred | e]; [| apply same_elsewhere_refl].
    unfold bind at 1.
    pose proof (fs_write_elsewhere path
                  (py_str w +++ " " +++ conc +++ " " +++ pred +++ nl) f) as Hw.
    destruct (fs_write path _ f) as [[[] | e] f1] eqn:E; cbn [snd] in Hw.
    + eapply same_elsewhere_trans; [exact Hw | apply IH].
    + exact Hw.
Qed.

Lemma write_examples_elsewhere (index_to_class : list (Z * string)) (indexed : bool)
    (path : string) (seqs : list (list item * list item * list item)) (f : fs) :
  same_elsewhere path f (snd (write_examples index_to_class indexed path seqs f)).
Proof.
  revert f. induction seqs as [|[[t l] p] seqs IH]; intros f; cbn [write_examples].
  - apply same_elsewhere_refl.
  - unfold bind at 1.
    pose proof (write_sequence_elsewhere index_to_class indexed path (zip3 t l p) f) as H1.
    destruct (write_sequence _ _ _ _ f) as [[[] | e] f1]; cbn [snd] in H1; [| exact H1].
    unfold bind at 1.
    pose proof (fs_write_elsewhere path nl f1) as H2.
    destruct (fs_write path nl f1) as [[[] | e] f2]; cbn [snd] in H2.
    + eapply same_elsewhere_trans; [exact H1 |].
      eapply same_elsewhere_trans; [exact H2 | apply IH].
    + eapply same_elsewhere_trans; [exact H1 | exact H2].
Qed.

Lemma write_predictions_elsewhere (tokens labels predictions : list (list item))
    (path : string) (indexed_labels : bool) (class_vocab : vocab) (files : fs) :
  same_elsewhere path files
    (snd (write_predictions tokens labels predictions path indexed_labels class_vocab files)).
Proof.
  unfold write_predictions, fs_open, modify. unfold bind at 1.
  eapply same_elsewhere_trans; [| apply write_examples_elsewhere].
  intros p Hp. now apply dict_get_set_other.
Qed.

(** * Further properties of the training and evaluation loops *)

Lemma scheduler_steps_app (l l' : list event) :
  scheduler_steps (l ++ l') = scheduler_steps l + scheduler_steps l'.
Proof.
  unfold scheduler_steps. now rewrite filter_app, length_app.
Qed.

(** What a step of the CRF leaves: the files, and a log without a new step
    of the scheduler. *)
Definition quiet (t t' : trainer) : Prop :=
  files (tworld t') = files (tworld t) /\
  scheduler_steps (log (tworld t')) = scheduler_steps (log (tworld t)).

(** The loss of the CRF and its gradient can be computed. *)
Definition trainable (o : other_model) : Prop :=
  (forall b st, exists l st', neg_log_likelihood o b st = (Ok l, st')) /\
  (forall l st, exists st', backward l st = (Ok tt, st')).

Lemma train_batch_crf (o : other_model) (acc : tally) (b : batch) (t : trainer) :
  trainable o ->
  exists acc' t',
    train_batch (Other "lstmcrf.LstmCrf" o) acc b t = (Ok acc', t') /\ quiet t t'.
Proof.
  intros [Hnll Hback]. destruct (Hnll b (tnet t)) as (l & st' & Hl).
  destruct (Hback l st') as (st2 & Hb).
  unfold train_batch. cbn [String.eqb Ascii.eqb Bool.eqb].
  unfold bind, in_net, in_world, net_do, emit, modify, ret, bind. rewrite Hl.
  cbn. rewrite Hb.
  cbn. eexists _, _. split; [reflexivity |]. unfold quiet. cbn.
  split; [reflexivity |].
  unfold scheduler_steps. rewrite !filter_app, !length_app. cbn. lia.
Qed.

Lemma for_each_train_crf (o : other_model) (batches : list batch) (acc : tally)
    (t : trainer) :
  trainable o ->
  exists acc' t',
    for_each (train_batch (Other "lstmcrf.LstmCrf" o)) batches acc t = (Ok acc', t') /\
    quiet t t'.
Proof.
  intros Hnll. revert acc t. induction batches as [|b batches IH]; intros acc t; cbn [for_each].
  - exists acc, t. unfold ret. split; [reflexivity |]. now split.
  - destruct (train_batch_crf o acc b t Hnll) as (acc1 & t1 & H1 & Hf1 & Hs1).
    rewrite (bind_Ok _ _ _ _ _ H1).
    destruct (IH acc1 t1) as (acc' & t' & H & Hf & Hs).
    exists acc', t'. split; [exact H |]. split; congruence.
Qed.

Lemma train_epoch_crf (train_data : list example) (o : other_model) (batch_size : Z)
    (t : trainer) :
  trainable o ->
  exists t',
    train_epoch train_data (Other "lstmcrf.LstmCrf" o) None batch_size tt t = (Ok tt, t') /\
    files (tworld t') = files (tworld t) /\
    scheduler_steps (log (tworld t')) = Datatypes.S (scheduler_steps (log (tworld t))).
Proof.
  intros Hnll. unfold train_epoch. cbn [is_LstmCrf String.eqb Ascii.eqb Bool.eqb negb].
  unfold bind at 1. unfold net_do at 1, bind at 1, in_net at 1, in_world at 1, emit, modify.
  cbv beta iota. cbn [fst snd tworld tnet passes files log].
  unfold bind at 1, next_pass at 1. cbv beta iota. cbn [tworld tnet passes].
  match goal with
  | |- context [bind (for_each _ ?bs no_tally) _ ?t0] =>
      destruct (for_each_train_crf o bs no_tally t0 Hnll) as (acc & t1 & Hf & Hq1 & Hq2)
  end.
  rewrite (bind_Ok _ _ _ _ _ Hf).
  cbn [tworld files log] in Hq1, Hq2.
  unfold bind, net_do, in_net, in_world, emit, modify, ret, bind. cbn.
  eexists. split; [reflexivity |]. cbn. split; [exact Hq1 |].
  unfold scheduler_steps in *. rewrite !filter_app, !length_app in *. cbn in *. lia.
Qed.

(** X16.  For the CRF model on training data that is not empty, with a
    positive batch size, a learning rate and a decay that the optimiser
    accepts, without development data and as long as its loss and the
    gradient of the loss can be computed, [train_model] makes exactly
    [epochs] steps of the scheduler, one per epoch, returns, and writes no
    file. *)
Theorem train_model_crf_completes (train_data : list example) (o : other_model)
    (batch_size : Z) (lr : value) (epochs : nat) (decay : value) (t : trainer) :
  trainable o ->
  train_data <> [] ->
  (0 < batch_size)%Z ->
  Adam lr decay = Ok tt ->
  exists t',
    train_model train_data (Other "lstmcrf.LstmCrf" o) None batch_size lr epochs decay t
    = (Ok tt, t') /\
    files (tworld t') = files (tworld t) /\
    scheduler_steps (log (tworld t')) = scheduler_steps (log (tworld t)) + epochs.
Proof.
  intros Hnll Hdata Hsize Hadam. unfold train_model.
  rewrite (bind_lift _ _ _ _ Hadam).
  assert (Hloader : new_loader train_data batch_size = Ok tt).
  { unfold new_loader. destruct train_data; [congruence |].
    destruct (Z.leb_spec batch_size 0); [lia | reflexivity]. }
  rewrite (bind_lift _ _ _ _ Hloader).
  assert (H : forall n t0, exists t1,
             for_range n (train_epoch train_data (Other "lstmcrf.LstmCrf" o) None batch_size)
               tt t0 = (Ok tt, t1) /\
             files (tworld t1) = files (tworld t0) /\
             scheduler_steps (log (tworld t1)) = scheduler_steps (log (tworld t0)) + n).
  { induction n as [|n IH]; intros t0; cbn [for_range].
    - exists t0. unfold ret. repeat split. lia.
    - destruct (train_epoch_crf train_data o batch_size t0 Hnll) as (t1 & H1 & Hf1 & Hs1).
      rewrite (bind_Ok _ _ _ _ _ H1).
      destruct (IH t1) as (t2 & H2 & Hf2 & Hs2).
      exists t2. split; [exact H2 |]. split; [congruence | lia]. }
  destruct (H epochs t) as (t1 & H1 & Hf1 & Hs1).
  rewrite (bind_Ok _ _ _ _ _ H1).
  unfold in_world, emit, modify. cbn.
  eexists. split; [reflexivity |]. cbn. split; [exact Hf1 |].
  unfold scheduler_steps in *. rewrite !filter_app, !length_app in *. cbn in *. lia.
Qed.

(** X17.  Unless the dataset of the global parameters is movies,
    [evaluate_model] raises: in a batch or, the batches done, on its class
    vocabulary, which was never bound. *)
Theorem evaluate_model_needs_movies (dev_data : list example) (m : model)
    (batch_size : Z) (t : trainer) :
  subscript global_params "dataset" <> Ok (VStr "movies") ->
  raises (evaluate_model dev_data m batch_size) t.
Proof.
  intros Hd. unfold evaluate_model.
  do 6 (apply raises_bind; intros ? ? ?).
  match goal with
  | H : lift (subscript global_params "dataset") _ = (Ok ?a, _) |- _ =>
      apply lift_Ok in H; destruct H as [H _];
      destruct (eq_str a "movies") eqn:E
  end.
  - exfalso. apply Hd. apply eq_str_true in E. congruence.
  - eexists (UnboundLocalError "class_vocab"), _. reflexivity.
Qed.

(** The files are as before the computation, whatever its outcome. *)
Definition keeps_files {A} (m : M trainer A) : Prop :=
  forall t, files (tworld (snd (m t))) = files (tworld t).

Lemma keeps_bind {A B} (m : M trainer A) (k : A -> M trainer B) :
  keeps_files m -> (forall a, keeps_files (k a)) -> keeps_files (bind m k).
Proof.
  intros Hm Hk t. unfold bind. specialize (Hm t).
  destruct (m t) as [[a | e] t1]; cbn [snd] in *; [| exact Hm].
  now rewrite (Hk a t1).
Qed.

Lemma keeps_in_net {A} (m : M module_state A) : keeps_files (in_net m).
Proof.
  intros t. unfold in_net. now destruct (m (tnet t)).
Qed.

Lemma keeps_emit (e : event) : keeps_files (in_world (emit e)).
Proof. now intros t. Qed.

Lemma keeps_lift {A} (r : result A) : keeps_files (lift r).
Proof. now intros t. Qed.

Lemma keeps_ret {A} (a : A) : keeps_files (ret a).
Proof. now intros t. Qed.

Lemma keeps_for_each {A B} (body : A -> B -> M trainer A) (l : list B) (a : A) :
  (forall a x, keeps_files (body a x)) -> keeps_files (for_each body l a).
Proof.
  intros Hb. revert a. induction l as [|x l IH]; intros a; cbn [for_each].
  - apply keeps_ret.
  - apply keeps_bind; [apply Hb | exact IH].
Qed.

Lemma keeps_evaluate_batch (m : model) (acc : tally) (b : batch) :
  keeps_files (evaluate_batch m acc b).
Proof.
  unfold evaluate_batch. destruct m as [e | cls o]; [| destruct (String.eqb cls _)];
    repeat first [ apply keeps_bind; [| intros ?]
                 | apply keeps_in_net | apply keeps_emit | apply keeps_lift
                 | apply keeps_ret ].
Qed.

Lemma keeps_Ok {A} (m : M trainer A) (t t' : trainer) (r : result A) :
  keeps_files m -> m t = (r, t') -> files (tworld t') = files (tworld t).
Proof.
  intros Hk H. specialize (Hk t). now rewrite H in Hk.
Qed.

Lemma dict_get_removed {V} (d : list (string * V)) (path : string) :
  dict_get String.eqb (filter (fun kv => negb (String.eqb (fst kv) path)) d) path = None.
Proof.
  induction d as [|[k v] d IH]; cbn [filter fst]; [reflexivity |].
  destruct (String.eqb k path) eqn:E; cbn [negb]; [exact IH |].
  cbn [dict_get]. rewrite String.eqb_sym, E. exact IH.
Qed.

Lemma dict_get_kept {V} (d : list (string * V)) (path p : string) :
  String.eqb p path = false ->
  dict_get String.eqb (filter (fun kv => negb (String.eqb (fst kv) path)) d) p
  = dict_get String.eqb d p.
Proof.
  intros Hp. induction d as [|[k v] d IH]; cbn [filter fst]; [reflexivity |].
  destruct (String.eqb k path) eqn:E; cbn [negb dict_get].
  - apply String.eqb_eq in E. subst k. now rewrite Hp.
  - now rewrite IH.
Qed.

Lemma call_write_predictions_six (a b c : list (list Z)) (path : string) (cv : vocab) :
  call_write_predictions [seqs a; seqs b; seqs c; VStr path; VBool true; VVocab cv]
  = bind (lift (Ok true))
         (fun i => write_predictions (map (map IInt) a) (map (map IInt) b)
                     (map (map IInt) c) path i cv).
Proof. reflexivity. Qed.

(** X18.  When [evaluate_model] returns it has removed its prediction file,
    and every other file is as it was before the call. *)
Theorem evaluate_model_cleans_up (dev_data : list example) (m : model)
    (batch_size : Z) (t t' : trainer) :
  evaluate_model dev_data m batch_size t = (Ok tt, t') ->
  dict_get String.eqb (files (tworld t')) "../output/dev_pred.txt" = None /\
  same_elsewhere "../output/dev_pred.txt" (files (tworld t)) (files (tworld t')).
Proof.
  unfold evaluate_model. intros H.
  apply bind_Ok_inv in H. destruct H as ([] & t0 & H0 & H).
  apply lift_Ok in H0. destruct H0 as [_ ->].
  apply bind_Ok_inv in H. destruct H as (batches & t1 & H1 & H).
  assert (F1 : files (tworld t1) = files (tworld t)).
  { unfold next_pass in H1. now inversion H1. }
  apply bind_Ok_inv in H. destruct H as (acc & t2 & H2 & H).
  pose proof (keeps_Ok _ _ _ _
                (keeps_for_each _ batches no_tally (keeps_evaluate_batch m)) H2) as F2.
  apply bind_Ok_inv in H. destruct H as ([] & t3 & H3 & H).
  assert (F3 : files (tworld t3) = files (tworld t2)).
  { destruct (negb (is_LstmCrf m));
      [exact (keeps_Ok _ _ _ _ (keeps_emit _) H3) | exact (keeps_Ok _ _ _ _ (keeps_ret _) H3)]. }
  apply bind_Ok_inv in H. destruct H as ([] & t4 & H4 & H).
  pose proof (keeps_Ok _ _ _ _ (keeps_emit _) H4) as F4.
  apply bind_Ok_inv in H. destruct H as (dataset & t5 & H5 & H).
  apply lift_Ok in H5. destruct H5 as [_ ->].
  apply bind_Ok_inv in H. destruct H as (cv & t6 & H6 & H).
  apply lift_Ok in H6. destruct H6 as [_ ->].
  apply bind_Ok_inv in H. destruct H as ([] & t7 & H7 & H).
  assert (F7 : same_elsewhere "../output/dev_pred.txt" (files (tworld t4)) (files (tworld t7))).
  { unfold in_world, with_files in H7. rewrite call_write_predictions_six in H7.
    unfold bind at 1, lift in H7.
    pose proof (write_predictions_elsewhere (map (map IInt) (golds acc))
                  (map (map IInt) (golds acc)) (map (map IInt) (preds acc))
                  "../output/dev_pred.txt" true cv (files (tworld t4))) as Hw.
    destruct (write_predictions _ _ _ _ _ _ (files (tworld t4))) as [r f].
    inversion H7; subst. exact Hw. }
  apply bind_Ok_inv in H. destruct H as (dataset' & t8 & H8 & H).
  apply lift_Ok in H8. destruct H8 as [_ ->].
  apply bind_Ok_inv in H. destruct H as ([] & t9 & H9 & H).
  pose proof (keeps_Ok _ _ _ _ (keeps_emit _) H9) as F9.
  apply bind_Ok_inv in H. destruct H as ([] & t10 & H10 & H).
  assert (F10 : files (tworld t10)
                = filter (fun kv => negb (String.eqb (fst kv) "../output/dev_pred.txt"))
                         (files (tworld t9))).
  { unfold in_world, with_files, fs_remove, modify in H10. now inversion H10. }
  pose proof (keeps_Ok _ _ _ _ (keeps_emit _) H) as F11.
  rewrite F11, F10. split; [apply dict_get_removed |].
  intros p Hp. rewrite (dict_get_kept _ _ _ Hp), F9.
  rewrite (F7 p Hp), F4, F3, F2, F1. reflexivity.
Qed.

Lemma train_model_first_epoch_raises (train_data : list example) (m : model)
    (dev_data : option (list example)) (batch_size : Z) (lr : value) (epochs : nat)
    (decay : value) (t : trainer) :
  is_LstmCrf m = false -> 0 < epochs ->
  raises (train_model train_data m dev_data batch_size lr epochs decay) t.
Proof.
  intros Hm He. destruct epochs as [|n]; [lia |].
  unfold train_model. apply raises_bind. intros [] t0 Hl0.
  apply lift_Ok in Hl0. destruct Hl0 as [_ ->].
  apply raises_bind. intros [] t1 Hl.
  apply lift_Ok in Hl. destruct Hl as [_ ->]. cbn [for_range].
  destruct (train_epoch_raises train_data m dev_data batch_size t Hm) as (e & t' & H).
  exists e, t'. unfold bind at 1. unfold bind at 1. now rewrite H.
Qed.

Lemma class_of_crf (n : string) :
  py_in n possible_models = true -> class_of n = "lstmcrf.LstmCrf" -> n = "lstmcrf".
Proof.
  unfold py_in. intros H Hc. apply existsb_exists in H. destruct H as (x & Hx & E).
  apply String.eqb_eq in E. subst x. cbn in Hx.
  repeat (destruct Hx as [<- | Hx]; [first [reflexivity | discriminate Hc] |]).
  contradiction.
Qed.

Lemma training_args_positive (argv : list string) (a : train_args) :
  parse_args argv = Ok global_params -> training_args = Ok a -> 0 < epochs_arg a.
Proof.
  intros Hp Ha. apply parse_args_Ok in Hp. destruct Hp as [opts Hp].
  apply parse_opts_Ok in Hp.
  destruct Hp as (lr & dr & de & no & ba & ep & hi & Hv & Hgp).
  unfold training_args in Ha. rewrite Hgp in Ha. cbn in Ha.
  inversion Ha; subst a. cbn [epochs_arg].
  unfold valid_config, listed_valid in Hv.
  repeat (apply andb_prop in Hv; destruct Hv as [Hv ?]).
  match goal with
  | E : (0 <? ep)%Z = true |- _ => apply Z.ltb_lt in E; lia
  end.
Qed.

(** X19.  Started on the parameters that [parse_args] returned, the script
    after line 405 runs to its end only for the model lstmcrf on the dataset
    movies: in every other configuration it raises, when the model is built
    or in [train_model] at the latest. *)
Theorem script_completes_only_for_crf (argv : list string) (t t' : trainer) :
  parse_args argv = Ok global_params ->
  script t = (Ok tt, t') ->
  subscript global_params "model" = Ok (VStr "lstmcrf") /\
  subscript global_params "dataset" = Ok (VStr "movies").
Proof.
  intros Hparse H. unfold script in H.
  apply bind_Ok_inv in H. destruct H as (r & t1 & Hpick & H).
  unfold in_world in Hpick.
  destruct (pick_model_transform global_params (tworld t)) as [[r' | e] w1] eqn:Ep;
    [| discriminate Hpick].
  inversion Hpick; subst r' t1; clear Hpick.
  destruct (pick_model_transform_Ok _ _ _ _ Ep) as (n & Hn & Hin & _ & Hc & Hd & _ & _).
  split; [| exact Hd].
  assert (Hcrf : is_LstmCrf (fst (fst r)) = true).
  { destruct (is_LstmCrf (fst (fst r))) eqn:Ecrf; [reflexivity | exfalso].
    apply bind_Ok_inv in H. destruct H as (dev & t2 & _ & H).
    apply bind_Ok_inv in H. destruct H as (dataset & t3 & _ & H).
    assert (Hraise : forall data dd a tt0, training_args = Ok a ->
              forall u tt1,
                train_model data (fst (fst r)) dd
                  (batch_arg a) (lr_arg a) (epochs_arg a) (decay_arg a) tt0
                <> (Ok u, tt1)).
    { intros data dd a tt0 Ha u tt1 Ht.
      destruct (train_model_first_epoch_raises data (fst (fst r)) dd
                  (batch_arg a) (lr_arg a) (epochs_arg a) (decay_arg a) tt0 Ecrf
                  (training_args_positive argv a Hparse Ha)) as (e & t'' & He).
      rewrite He in Ht. discriminate Ht. }
    destruct dev.
    - do 6 (apply bind_Ok_inv in H; destruct H as (? & ? & ? & H)).
      match goal with
      | Ha : lift training_args _ = (Ok ?a, _) |- _ =>
          apply lift_Ok in Ha; destruct Ha as [Ha _]; exact (Hraise _ _ _ _ Ha _ _ H)
      end.
    - do 4 (apply bind_Ok_inv in H; destruct H as (? & ? & ? & H)).
      apply bind_Ok_inv in H. destruct H as (? & ? & Ht & _).
      match goal with
      | Ha : lift training_args _ = (Ok ?a, _) |- _ =>
          apply lift_Ok in Ha; destruct Ha as [Ha _]; exact (Hraise _ _ _ _ Ha _ _ Ht)
      end. }
  assert (Hcls : model_class (fst (fst r)) = "lstmcrf.LstmCrf").
  { destruct (fst (fst r)) as [e | cls o]; cbn in Hcrf |- *; [discriminate |].
    now apply String.eqb_eq in Hcrf. }
  rewrite Hc in Hcls. now rewrite Hn, (class_of_crf n Hin Hcls).
Qed.

End Program.

(** * Properties *)

(** ** The prediction file *)

Lemma append_assoc (a b c : string) : (a +++ b) +++ c = a +++ (b +++ c).
Proof.
  induction a as [|ch a IH]; simpl; [reflexivity | now rewrite IH].
Qed.

Lemma append_empty_r (a : string) : a +++ "" = a.
Proof.
  induction a as [|ch a IH]; simpl; [reflexivity | now rewrite IH].
Qed.

Lemma dict_get_set_same {V} (d : list (string * V)) (k : string) (v : V) :
  dict_get String.eqb (dict_set String.eqb d k v) k = Some v.
Proof.
  induction d as [|[k' v'] d IH]; simpl.
  - now rewrite String.eqb_refl.
  - destruct (String.eqb k k') eqn:E; simpl.
    + now rewrite String.eqb_refl.
    + now rewrite E.
Qed.

Lemma dict_set_set_same {V} (d : list (string * V)) (k : string) (v v' : V) :
  dict_set String.eqb (dict_set String.eqb d k v) k v' = dict_set String.eqb d k v'.
Proof.
  induction d as [|[k0 v0] d IH]; simpl.
  - now rewrite String.eqb_refl.
  - destruct (String.eqb k k0) eqn:E; simpl.
    + now rewrite String.eqb_refl.
    + now rewrite E, IH.
Qed.

Lemma fs_write_set (files : fs) (path c s : string) :
  fs_write path s (dict_set String.eqb files path c)
  = (Ok tt, dict_set String.eqb files path (c +++ s)).
Proof.
  unfold fs_write, modify. now rewrite dict_get_set_same, dict_set_set_same.
Qed.

Lemma zip3_map {A B C D} (f : D -> A) (g : D -> B) (h : D -> C) (l : list D) :
  zip3 (map f l) (map g l) (map h l) = map (fun x => (f x, g x, h x)) l.
Proof.
  induction l as [|x l IH]; simpl; [reflexivity | now rewrite IH].
Qed.

Lemma getitem_known (index_to_class : list (Z * string)) (z : Z) :
  dict_mem Z.eqb index_to_class z = true ->
  getitem index_to_class (IInt z) = Ok (class_name index_to_class z).
Proof.
  unfold dict_mem, getitem, class_name.
  destruct (dict_get Z.eqb index_to_class z); [reflexivity | discriminate].
Qed.

Lemma write_sequence_lines (index_to_class : list (Z * string)) (path : string)
    (ex : list (item * Z * Z)) :
  (forall t, In t ex ->
     dict_mem Z.eqb index_to_class (snd (fst t)) = true /\
     dict_mem Z.eqb index_to_class (snd t) = true) ->
  forall (files : fs) (c : string),
    write_sequence index_to_class true path
      (map (fun t => (fst (fst t), IInt (snd (fst t)), IInt (snd t))) ex)
      (dict_set String.eqb files path c)
    = (Ok tt,
       dict_set String.eqb files path
         (c +++ fold_right (fun t rest => render_line index_to_class t +++ rest) "" ex)).
Proof.
  induction ex as [|t ex IH]; intros Hk files c; cbn [map write_sequence fold_right fst snd].
  - unfold ret. now rewrite append_empty_r.
  - destruct (Hk t (or_introl eq_refl)) as [Hg Hp].
    unfold bind at 1, lift. rewrite (getitem_known _ _ Hg).
    unfold bind at 1. rewrite (getitem_known _ _ Hp).
    unfold bind at 1. rewrite fs_write_set.
    rewrite IH by (intros t' Ht'; apply Hk; now right).
    f_equal. f_equal. unfold render_line. now rewrite !append_assoc.
Qed.

Lemma render_example_lines (index_to_class : list (Z * string)) (ex : list (item * Z * Z)) :
  render_example index_to_class ex
  = fold_right (fun t rest => render_line index_to_class t +++ rest) "" ex +++ nl.
Proof.
  unfold render_example.
  induction ex as [|t ex IH]; cbn [fold_right]; [reflexivity | now rewrite IH, append_assoc].
Qed.

Lemma write_examples_render (index_to_class : list (Z * string)) (path : string)
    (examples : list (list (item * Z * Z))) :
  known index_to_class examples ->
  forall (files : fs) (c : string),
    write_examples index_to_class true path
      (zip3 (tokens_of examples) (labels_of examples) (predictions_of examples))
      (dict_set String.eqb files path c)
    = (Ok tt, dict_set String.eqb files path (c +++ render index_to_class examples)).
Proof.
  unfold tokens_of, labels_of, predictions_of. rewrite zip3_map.
  induction examples as [|ex examples IH]; intros Hk files c;
    cbn [map write_examples fold_right render].
  - unfold ret. now rewrite append_empty_r.
  - rewrite zip3_map. unfold bind at 1.
    rewrite write_sequence_lines by (intros t Ht; apply (Hk ex t); [now left | exact Ht]).
    unfold bind at 1. rewrite fs_write_set.
    rewrite IH by (intros ex' t Hex Ht; apply (Hk ex' t); [now right | exact Ht]).
    f_equal. f_equal. now rewrite render_example_lines, !append_assoc.
Qed.

(** C10.  For aligned triples whose indexes are all in the inverted
    vocabulary, [write_predictions] with indexed labels leaves at [path]
    exactly one line [token gold predicted] per token, the indexes written as
    class names, and an empty line after each example. *)
Theorem write_predictions_format (examples : list (list (item * Z * Z)))
    (path : string) (class_vocab : vocab) (files : fs) :
  known (invert class_vocab) examples ->
  write_predictions (tokens_of examples) (labels_of examples) (predictions_of examples)
    path true class_vocab files
  = (Ok tt, dict_set String.eqb files path (render (invert class_vocab) examples)).
Proof.
  intros Hk. unfold write_predictions, fs_open, modify. unfold bind at 1.
  now rewrite (write_examples_render _ _ _ Hk files "").
Qed.

(** The example of the interface: tokens a and b, gold 0 and 1, predictions
    0 and 2, classes O, PER and LOC. *)
Lemma write_predictions_format_example :
  known (invert [("O", 0%Z); ("PER", 1%Z); ("LOC", 2%Z)])
        [[(IStr "a", 0%Z, 0%Z); (IStr "b", 1%Z, 2%Z)]] /\
  write_predictions [[IStr "a"; IStr "b"]] [[IInt 0; IInt 1]] [[IInt 0; IInt 2]]
    "out.txt" true [("O", 0%Z); ("PER", 1%Z); ("LOC", 2%Z)] []
  = (Ok tt, [("out.txt", "a O O" +++ nl +++ "b PER LOC" +++ nl +++ nl)]).
Proof.
  assert (H : known (invert [("O", 0%Z); ("PER", 1%Z); ("LOC", 2%Z)])
                [[(IStr "a", 0%Z, 0%Z); (IStr "b", 1%Z, 2%Z)]]).
  { intros ex t [<- | []] [<- | [<- | []]]; split; reflexivity. }
  split; [exact H |].
  exact (write_predictions_format
           [[(IStr "a", 0%Z, 0%Z); (IStr "b", 1%Z, 2%Z)]]
           "out.txt" [("O", 0%Z); ("PER", 1%Z); ("LOC", 2%Z)] [] H).
Defined.

(** ** Regrouping *)

Lemma regroup_fold_count (pairs : list (Z * Z)) (st : regroup_state) :
  let st' := fold_left regroup_step pairs st in
  length (y_true st') = length (y_true st) + count_occ Z.eq_dec (map snd pairs) (-1)%Z /\
  length (y_predicted st')
  = length (y_predicted st) + count_occ Z.eq_dec (map snd pairs) (-1)%Z.
Proof.
  revert st. induction pairs as [|[i l] pairs IH]; intros st; cbn [fold_left map snd count_occ].
  - split; lia.
  - specialize (IH (regroup_step st (i, l))). cbn zeta in IH.
    destruct IH as [IH1 IH2]. rewrite IH1, IH2.
    unfold regroup_step; cbn [fst snd].
    destruct (Z.eq_dec l (-1)) as [-> | Hne].
    + change ((-1 =? -1)%Z) with true.
      cbn [negb y_true y_predicted]. rewrite !length_app. cbn [length]. split; lia.
    + destruct (Z.eqb_spec l (-1)) as [? | _]; [contradiction |].
      cbn [negb y_true y_predicted]. split; lia.
Qed.

(** A batch adds one pair of sequences per gold label -1 of its flattened
    stream, whatever the number of its examples. *)
Lemma regroup_batch_count (indices labels : list Z) (yp yt : list (list Z)) :
  length indices = length labels ->
  length (fst (regroup_batch indices labels yp yt))
  = length yp + count_occ Z.eq_dec labels (-1)%Z /\
  length (snd (regroup_batch indices labels yp yt))
  = length yt + count_occ Z.eq_dec labels (-1)%Z.
Proof.
  intros Hl. unfold regroup_batch. cbn [fst snd].
  pose proof (regroup_fold_count (combine indices labels)
                {| tmp_pred := []; tmp_true := []; y_predicted := yp; y_true := yt |}) as H.
  cbn zeta in H. cbn [y_true y_predicted] in H.
  assert (Hs : map snd (combine indices labels) = labels).
  { clear H. revert labels Hl. induction indices as [|i indices IH]; intros [|l labels] Hl;
      try discriminate; cbn [combine map snd]; [reflexivity |].
    f_equal. apply IH. now inversion Hl. }
  rewrite Hs in H. destruct H as [H1 H2]. now split.
Qed.

(** C1.  A batch of two examples, of lengths 1 and 2: the flattened gold
    stream holds one -1, the padding of the first example, and regrouping
    yields one pair for the two examples; the second example is lost.  A batch
    of one example yields nothing. *)
Theorem regroup_batch_loses_examples (p0 p1 p2 p3 : Z) :
  let b := [[(5, 0)]; [(6, 1); (7, 2)]]%Z in
  flat_labels 99 b = [0; -1; 1; 2]%Z /\
  regroup_batch [p0; p1; p2; p3] (flat_labels 99 b) [] [] = ([[p0]], [[0%Z]]) /\
  regroup_batch [p0; p1] (flat_labels 99 [[(6, 1); (7, 2)]]%Z) [] [] = ([], []).
Proof.
  cbv zeta. repeat split; reflexivity.
Qed.

(** * The model on concrete collaborators *)

(** Stand-ins for the collaborators: conversions that read plain decimal
    digits, options given as alternating names and values, a generator of a
    small vocabulary, and layers that keep the shape of their input. *)
Fixpoint digits_value (s : string) (acc : Z) : option Z :=
  match s with
  | EmptyString => Some acc
  | String c s' =>
      let n := nat_of_ascii c in
      if Nat.leb 48 n && Nat.leb n 57
      then digits_value s' (10 * acc + Z.of_nat (n - 48))%Z
      else None
  end.

Definition toy_int (s : string) : result Z :=
  match s with
  | EmptyString => Raise (ValueError "invalid literal for int()")
  | _ => match digits_value s 0 with
         | Some z => Ok z
         | None => Raise (ValueError "invalid literal for int()")
         end
  end.

Definition toy_float (_ : string) : result float :=
  Raise (ValueError "could not convert string to float").

Fixpoint pair_up (l : list string) : list (string * string) :=
  match l with
  | k :: v :: l' => (k, v) :: pair_up l'
  | _ => []
  end.

Definition toy_getopt (args _ : list string)
    : result (list (string * string) * list string) :=
  Ok (pair_up args, []).

Definition toy_generator (_ : value) : result (vocab * value) :=
  Ok ([("<UNK>", 0%Z); ("<padding>", 1%Z)], VArray 2 4).

Definition toy_classes : vocab := [("O", 0%Z); ("PER", 1%Z); ("LOC", 2%Z)].

Definition toy_InitTransform (_ : value) (_ _ : vocab) (_ : option vocab) : result unit :=
  Ok tt.

Definition toy_DropTransform (_ : float) (_ _ : Z) : result unit := Ok tt.

Definition toy_construct (_ : string) (_ : list value) : result unit := Ok tt.

Definition toy_embedding_encoder (idx : list (list Z)) (o : unit)
    : list (list (list Z)) * unit :=
  (map (map (fun i => [i])) idx, o).

Definition toy_id {A} (x : A) (o : unit) : A * unit := (x, o).

Definition toy_gru (_ : unit) (x h : list (list (list Z)))
    : list (list (list Z)) * list (list (list Z)) :=
  (x, h).

Definition toy_out (_ : unit) (_ : list Z) : list Z := [1; 3; 2]%Z.

(** The module is in training mode. *)
Definition toy_training (_ : unit) : bool := true.

(** A gradient that can be computed. *)
Definition toy_backward (_ : Z) (st : module_state Z unit)
    : result unit * module_state Z unit :=
  (Ok tt, st).

(** Options that name a model and a dataset and ask for two epochs, and the
    parameters [parse_args] returns for them. *)
Definition toy_options (model_ dataset : string) : list string :=
  ["--model"; model_; "--sequence"; "tokens"; "--dataset"; dataset; "--epochs"; "2"].

Definition toy_params (model_ dataset : string) : params :=
  match parse_args toy_float toy_int toy_getopt (toy_options model_ dataset) with
  | Ok res => res
  | Raise _ => []
  end.

Definition toy_world : world := {| files := [("notes.txt", "kept")]; log := [] |}.

Definition toy_self : EncoderDecoderRNN :=
  {| device := VNone; hidden_dim := 4; tagset_size := 3; embedding_dim := 4;
     decoder_embedding_size := 2; w2v_weights := VArray 10 4;
     bidirectional := true; drop_rate := VFloat 0.5%float; freeze := VBool true;
     max_norm_emb1 := VInt 10; max_norm_emb2 := VInt 10;
     gru_encoder_hidden_size := 2; embedding_decoder_num := 4 |}.

(** The same module with an odd hidden size. *)
Definition toy_odd : EncoderDecoderRNN :=
  {| device := VNone; hidden_dim := 3; tagset_size := 3; embedding_dim := 4;
     decoder_embedding_size := 2; w2v_weights := VArray 10 4;
     bidirectional := true; drop_rate := VFloat 0.5%float; freeze := VBool true;
     max_norm_emb1 := VInt 10; max_norm_emb2 := VInt 10;
     gru_encoder_hidden_size := 1; embedding_decoder_num := 4 |}.

Definition toy_forward : EncoderDecoderRNN -> batch -> M (module_state Z unit) (T2 Z * list Z) :=
  forward Z 0%Z Z.ltb unit toy_embedding_encoder toy_id toy_gru toy_gru toy_id toy_training toy_out
    (fun row => row) (fun row => row) 9%Z.

Definition toy_forward_decode :=
  forward_decode Z 0%Z Z.ltb unit toy_embedding_encoder toy_id toy_gru toy_gru toy_id toy_training toy_out
    (fun row => row) (fun row => row) 9%Z.

Definition toy_module : module_state Z unit :=
  new_module Z unit (fun i j => Z.of_nat (i + j)) toy_self tt.

Definition toy_batch : batch := [[(5, 0)]; [(6, 1); (7, 2)]]%Z.

Definition toy_train_model :=
  train_model unit toy_classes Z 0%Z Z.ltb unit toy_embedding_encoder toy_id toy_gru
    toy_gru toy_id toy_training toy_out (fun row => row) (fun row => row) 9%Z
    (fun _ _ st => (Raise (RuntimeError "no such model"), st))
    (fun _ _ st => (Raise (RuntimeError "no such model"), st))
    (fun _ _ st => (Raise (RuntimeError "no such model"), st))
    (fun _ _ => Ok 0%Z) toy_backward (fun st => st) (fun st => st)
    (fun _ st => st) (fun _ st => st) (fun _ => 0%float) (fun _ => 0%float)
    (fun data _ _ => [data]) [("dataset", VStr "movies")].

Definition toy_trainer : trainer Z unit :=
  {| tworld := {| files := []; log := [] |}; tnet := toy_module; passes := 0 |}.

Definition toy_argv (hidden : string) : list string :=
  ["--model"; "encoder"; "--sequence"; "tokens"; "--dataset"; "movies";
   "--hidden_size"; hidden].

Definition toy_pick_model_transform :=
  pick_model_transform unit unit unit toy_generator toy_classes toy_InitTransform
    toy_DropTransform toy_construct.

(** Batches of one token per example. *)
Definition toy_short_batch : batch := [[(5, 0)]; [(6, 1)]]%Z.

(** The arguments that build [toy_self] and [toy_odd]. *)
Definition toy_args (hidden : Z) : list value :=
  [VNone; VArray 10 4; VInt 2; VInt hidden; VInt 3; VFloat 0.5%float; VBool true;
   VBool true; VInt 10; VInt 10].

Lemma toy_self_decodes : decodes toy_self.
Proof.
  split; [exists (toy_args 4), []; reflexivity |].
  repeat split; reflexivity.
Qed.

Lemma toy_batch_accepted : accepted 9%Z toy_self toy_batch.
Proof.
  split; [cbn; lia |]. split; [| split; cbn; lia].
  repeat constructor; cbn; lia.
Qed.

Lemma toy_embedding_encoder_shape (idx : list (list Z)) (o : unit) :
  shape2 (fst (toy_embedding_encoder idx o)) = shape2 idx.
Proof.
  unfold toy_embedding_encoder, shape2. cbn [fst]. rewrite map_map.
  apply map_ext. intros r. apply length_map.
Qed.

(** ** The launcher *)

(** C3 on stand-ins: on the parameters that [parse_args] returns for the
    encoder on movies the arguments of the call are evaluated, the class is
    instantiated and its constructor raises. *)
Lemma pick_model_transform_encoder_raises_witness :
  parse_args toy_float toy_int toy_getopt (toy_options "encoder" "movies")
  = Ok (toy_params "encoder" "movies") /\
  dict_get String.eqb (toy_params "encoder" "movies") "model" = Some (VStr "encoder") /\
  raises (toy_pick_model_transform (toy_params "encoder" "movies")) toy_world /\
  (exists a,
     encoder_args (toy_params "encoder" "movies") (VArray 2 4) toy_classes = Ok a /\
     EncoderDecoderRNN_init a [] = Raise (AttributeError "object has no attribute 'shape'")) /\
  toy_pick_model_transform (toy_params "encoder" "movies") toy_world
  = (Raise (AttributeError "object has no attribute 'shape'"),
     {| files := files toy_world; log := [Construct "encoder.EncoderDecoderRNN"] |}).
Proof.
  split; [reflexivity |]. split; [reflexivity |].
  destruct (pick_model_transform_encoder_raises unit unit unit toy_generator
              toy_classes toy_InitTransform toy_DropTransform toy_construct
              (toy_params "encoder" "movies") toy_world eq_refl)
    as (Hraises & Hcall & _ & Hexn).
  split; [exact Hraises |].
  destruct (encoder_args (toy_params "encoder" "movies") (VArray 2 4) toy_classes)
    as [a | e] eqn:Ha; [| discriminate Ha].
  split; [exists a; split; [reflexivity | exact (proj1 (Hcall _ _ a Ha))] |].
  destruct Hraises as (e & w' & Hrun).
  destruct (Hexn e w' Hrun) as (Hfiles & [Hlog | [Hlog ->]]).
  - exfalso. clear -Hrun Hlog.
    vm_compute in Hrun. inversion Hrun; subst. discriminate Hlog.
  - unfold toy_pick_model_transform. rewrite Hrun.
    destruct w' as [f l]. cbn in Hfiles, Hlog |- *. now subst.
Defined.

(** With every parameter present the exception is that of the constructor,
    raised when the class is instantiated. *)
Lemma pick_model_transform_encoder_trace :
  rbind (parse_args toy_float toy_int toy_getopt (toy_argv "100"))
        (fun ps => Ok (toy_pick_model_transform ps {| files := []; log := [] |}))
  = Ok (Raise (AttributeError "object has no attribute 'shape'"),
        {| files := []; log := [Construct "encoder.EncoderDecoderRNN"] |}).
Proof. vm_compute. reflexivity. Qed.

(** C9 on stand-ins: a valid configuration. *)
Lemma parse_args_valid_witness :
  valid_config 0.01%float 0%float 0%float 10%float 80 30 100 "tokens" "encoder" "movies"
  = true /\
  exists res,
    parse_args toy_float toy_int toy_getopt (toy_argv "100") = Ok res /\
    subscript res "lr" = Ok (VFloat 0.01%float) /\
    subscript res "hidden_size" = Ok (VInt 100) /\
    subscript res "model" = Ok (VStr "encoder").
Proof.
  split; [reflexivity |].
  destruct (proj1 (parse_args_valid toy_float toy_int toy_getopt unit unit unit
                     toy_generator toy_classes toy_InitTransform toy_DropTransform
                     toy_construct (toy_argv "100") [] (pair_up (toy_argv "100"))
                     0.01%float 0%float 0%float 10%float 80%Z 30%Z 100%Z
                     eq_refl eq_refl eq_refl eq_refl eq_refl eq_refl eq_refl eq_refl eq_refl)
                  eq_refl)
    as (res & Hres & Hlr & _ & _ & _ & _ & _ & Hh & Hm & _).
  exists res. repeat split; assumption.
Defined.

(** C9 as stated fails: every listed condition holds and the hidden size is
    0; [parse_args] fails on its assertion.  With [--help] it leaves with
    status 0 whatever the configuration. *)
Lemma parse_args_hidden_size_counterexample :
  listed_valid 0.01%float 0%float 0%float 10%float 80 30 "tokens" "encoder" "movies" = true /\
  parse_args toy_float toy_int toy_getopt (toy_argv "0")
  = Raise (AssertionError "hidden size should be greater than 0") /\
  parse_args toy_float toy_int toy_getopt (toy_argv "100" ++ ["--help"; ""])
  = Raise (SystemExit 0).
Proof. repeat split; reflexivity. Qed.

(** ** The training loop *)

(** C2 on stand-ins: two epochs asked of the encoder-decoder model. *)
Lemma train_model_raises_witness :
  is_LstmCrf unit (Encoder unit toy_self) = false /\
  0 < 2 /\
  raises (toy_train_model toy_batch (Encoder unit toy_self) None 80%Z
            (VFloat 0.01%float) 2 (VFloat 0%float)) toy_trainer.
Proof.
  split; [reflexivity |]. split; [lia |].
  apply train_model_raises; [reflexivity | lia].
Defined.

(** On examples of one token, when the gradient of the loss can be
    computed, the run ends in the first epoch, after the step of the
    scheduler, on the call of [write_predictions] that lacks two arguments. *)
Lemma train_model_trace :
  let r := toy_train_model toy_short_batch (Encoder unit toy_self) None 80%Z
             (VFloat 0.01%float) 2 (VFloat 0%float) toy_trainer in
  fst r = Raise (TypeError
                   "write_predictions() missing required positional argument: indexed_labels") /\
  log (tworld Z unit (snd r))
  = [ZeroGrad; Forward; NllLoss; Backward; OptimizerStep; ZeroGrad; RecordLoss;
     SchedulerStep; Print "----- Training epoch stats for epoch -----";
     Print "Seconds for epoch"; Print "Train error"; Print "Train stats:"].
Proof. vm_compute. split; reflexivity. Qed.

(** ** The encoder-decoder model *)

(** C4 on stand-ins: a batch of lengths 1 and 2. *)
Lemma decoder_loop_steps_witness :
  decodes toy_self /\
  accepted 9%Z toy_self toy_batch /\
  state_ok Z unit toy_self toy_module /\
  exists d labels st',
    toy_forward_decode toy_self toy_batch toy_module = (Ok (d, labels), st') /\
    length (results Z d) = 2 /\
    nth_error (concat labels) 1 = Some (-1)%Z.
Proof.
  split; [exact toy_self_decodes |]. split; [exact toy_batch_accepted |].
  split; [reflexivity |].
  destruct (decoder_loop_steps Z 0%Z Z.ltb unit toy_embedding_encoder toy_id toy_gru
              toy_gru toy_id toy_training toy_out (fun row => row) (fun row => row) 9%Z
              toy_self
              toy_embedding_encoder_shape (fun _ _ => eq_refl) (fun _ _ _ => eq_refl)
              (fun _ _ _ => eq_refl) (fun _ _ _ => eq_refl) (fun _ _ _ => eq_refl)
              (fun _ _ => eq_refl) (fun _ _ => eq_refl) (fun _ => eq_refl)
              toy_batch toy_module toy_self_decodes toy_batch_accepted eq_refl)
    as (d & labels & st' & Hf & Hl & _ & _ & Hpad).
  exists d, labels, st'. split; [exact Hf |]. split; [exact Hl |].
  apply (Hpad 0 [(5, 0)]%Z 1 eq_refl). cbn. lia.
Defined.

(** C4 as stated fails: a bidirectional module with a hidden size of 3, which
    the constructor returns, hands the decoder a hidden state of 2 features;
    the first step of the loop raises on line 75 and the loop makes none of
    the two steps. *)
Lemma decoder_loop_odd_counterexample :
  EncoderDecoderRNN_init (toy_args 3) [] = Ok toy_odd /\
  max_length toy_batch = 2 /\
  fst (toy_forward_decode toy_odd toy_batch toy_module)
  = Raise (RuntimeError "Expected hidden size").
Proof. repeat split; reflexivity. Qed.

(** C8 on stand-ins. *)
Lemma forward_shape_witness :
  decodes toy_self /\
  accepted 9%Z toy_self toy_batch /\
  state_ok Z unit toy_self toy_module /\
  exists logp labels st',
    toy_forward toy_self toy_batch toy_module = (Ok (logp, labels), st') /\
    length logp = 2 * 2 /\
    Forall (fun row => length row = 3) logp /\
    length labels = 2 * 2.
Proof.
  split; [exact toy_self_decodes |]. split; [exact toy_batch_accepted |].
  split; [reflexivity |].
  destruct (forward_shape Z 0%Z Z.ltb unit toy_embedding_encoder toy_id toy_gru
              toy_gru toy_id toy_training toy_out (fun row => row) (fun row => row) 9%Z
              toy_self
              toy_embedding_encoder_shape (fun _ _ => eq_refl) (fun _ _ _ => eq_refl)
              (fun _ _ _ => eq_refl) (fun _ _ _ => eq_refl) (fun _ _ _ => eq_refl)
              (fun _ _ => eq_refl) (fun _ _ => eq_refl) (fun _ => eq_refl)
              toy_batch toy_module toy_self_decodes toy_batch_accepted eq_refl)
    as (d & logp & labels & st' & _ & Hf & Hl & Hrows & Hlab & _).
  exists logp, (concat labels), st'. repeat split; assumption.
Defined.

(** The flattened result on the batch of lengths 1 and 2. *)
Lemma forward_example :
  fst (toy_forward toy_self toy_batch toy_module)
  = Ok ([[1; 3; 2]; [1; 3; 2]; [1; 3; 2]; [1; 3; 2]]%Z, [0; -1; 1; 2]%Z).
Proof. vm_compute. reflexivity. Qed.

(** C8 as stated fails: for a batch whose one example has no token the
    encoder is given a sequence without a step and [forward] raises on
    line 93. *)
Lemma forward_empty_counterexample :
  max_length [[]] = 0 /\
  fst (toy_forward toy_self [[]] toy_module)
  = Raise (RuntimeError "Expected sequence length to be larger than 0 in RNN").
Proof. split; reflexivity. Qed.

(** [forward] raises as well on a module with an odd hidden size of two
    directions, on line 75. *)
Lemma forward_odd_example :
  fst (toy_forward toy_odd toy_batch toy_module)
  = Raise (RuntimeError "Expected hidden size").
Proof. reflexivity. Qed.

(** C6 on stand-ins: two steps of the loop on two examples. *)
Lemma greedy_feedback_witness :
  (forall a, Z.ltb a a = false) /\
  (forall a b c, Z.ltb a b = true -> Z.ltb a c = false -> Z.ltb b c = false) /\
  let step := decode_step Z 0%Z Z.ltb unit toy_id toy_gru toy_id toy_training toy_out
                (fun row => row) (fun row => row) toy_self in
  let d0 := {| decoder_input := start_input toy_self 2;
               hidden_decoder := zeros Z 0%Z 1 2 4;
               results := [] |} in
  exists mid st_mid d' st' o,
    for_range 1 step d0 toy_module = (Ok mid, st_mid) /\
    for_range 2 step d0 toy_module = (Ok d', st') /\
    results Z d' = results Z mid ++ [o] /\
    o = [[[1; 3; 2]]; [[1; 3; 2]]]%Z /\
    decoder_input Z d' = [[1]; [1]]%Z /\
    Forall2 (Forall2 (largest_at Z Z.ltb)) o (decoder_input Z d').
Proof.
  assert (Hirr : forall a, Z.ltb a a = false) by apply Z.ltb_irrefl.
  assert (Habove : forall a b c, Z.ltb a b = true -> Z.ltb a c = false -> Z.ltb b c = false).
  { intros a b c Hab Hac. apply Z.ltb_lt in Hab. apply Z.ltb_ge in Hac.
    apply Z.ltb_ge. lia. }
  split; [exact Hirr |]. split; [exact Habove |]. cbv zeta.
  match goal with
  | |- exists mid st_mid d' st' o, _ /\ for_range 2 ?step ?d0 ?st = _ /\ _ =>
      assert (Hrun : exists d' st',
                for_range 2 step d0 st = (Ok d', st') /\
                decoder_input Z d' = [[1]; [1]]%Z /\
                last (results Z d') [] = [[[1; 3; 2]]; [[1; 3; 2]]]%Z)
        by (vm_compute; eexists _, _; repeat split; reflexivity)
  end.
  destruct Hrun as (d' & st' & Hrun & Hin & Hlast).
  destruct (proj1 (greedy_feedback Z 0%Z Z.ltb unit toy_embedding_encoder toy_id toy_gru
                     toy_gru toy_id toy_training toy_out (fun row => row) (fun row => row)
                     9%Z Hirr Habove) toy_self 1 _ _ d' st' Hrun)
    as (mid & st_mid & o & topi & Hmid & _ & Hres & _ & _ & Hlargest).
  exists mid, st_mid, d', st', o. split; [exact Hmid |]. split; [exact Hrun |].
  split; [exact Hres |]. split; [| split; [exact Hin | exact Hlargest]].
  rewrite Hres, last_last in Hlast. exact Hlast.
Defined.

(** C7 on stand-ins: a hidden size of 4 and two examples. *)
Lemma bridge_hidden_state_witness :
  (forall (o : unit) (x h : T3 Z), map shape2 (snd (toy_gru o x h)) = map shape2 h) /\
  (bidirectional toy_self = true ->
   exists h0 h1,
     snd (toy_gru tt [] (init_hidden_encoder Z 0%Z toy_self 2)) = [h0; h1] /\
     bridge Z toy_self (snd (toy_gru tt [] (init_hidden_encoder Z 0%Z toy_self 2)))
     = Ok [map2 (@app Z) h0 h1] /\
     shape2 (map2 (@app Z) h0 h1) = repeat (2 * Z.to_nat (hidden_dim toy_self / 2)) 2 /\
     (Z.even (hidden_dim toy_self) = true ->
      shape2 (map2 (@app Z) h0 h1) = repeat (Z.to_nat (hidden_dim toy_self)) 2)) /\
  (bidirectional toy_self = false ->
   bridge Z toy_self (snd (toy_gru tt [] (init_hidden_encoder Z 0%Z toy_self 2)))
   = Ok (snd (toy_gru tt [] (init_hidden_encoder Z 0%Z toy_self 2)))).
Proof.
  split; [intros; reflexivity |].
  exact (bridge_hidden_state Z 0%Z unit toy_gru toy_self (fun _ _ _ => eq_refl) tt [] 2).
Defined.

(** C7 as stated fails: with a hidden size of 3 the two slices have one
    feature each and the state handed to the decoder has two, not three. *)
Lemma bridge_odd_counterexample :
  bidirectional toy_odd = true /\
  hidden_dim toy_odd = 3%Z /\
  init_hidden_encoder Z 0%Z toy_odd 1 = [[[0%Z]]; [[0%Z]]] /\
  bridge Z toy_odd (snd (toy_gru tt [] (init_hidden_encoder Z 0%Z toy_odd 1)))
  = Ok [[[0%Z; 0%Z]]].
Proof. repeat split; reflexivity. Qed.

(** * Further properties of the prediction file *)

(** X1.  Whether it returns or raises, [write_predictions] leaves every file
    other than [path] as it was, and what it leaves at [path] does not depend
    on what [path] held before: the file is opened for writing anew. *)
Theorem write_predictions_only_path (tokens labels predictions : list (list item))
    (path : string) (indexed_labels : bool) (class_vocab : vocab) (files : fs)
    (old : string) :
  same_elsewhere path files
    (snd (write_predictions tokens labels predictions path indexed_labels class_vocab files)) /\
  write_predictions tokens labels predictions path indexed_labels class_vocab
    (dict_set String.eqb files path old)
  = write_predictions tokens labels predictions path indexed_labels class_vocab files.
Proof.
  split.
  - apply write_predictions_elsewhere.
  - unfold write_predictions, fs_open, modify, bind.
    now rewrite dict_set_set_same.
Qed.

Lemma write_sequence_Ok_known (index_to_class : list (Z * string)) (path : string)
    (ex : list (item * Z * Z)) (f f' : fs) :
  write_sequence index_to_class true path
    (map (fun t => (fst (fst t), IInt (snd (fst t)), IInt (snd t))) ex) f = (Ok tt, f') ->
  forall t, In t ex ->
    dict_mem Z.eqb index_to_class (snd (fst t)) = true /\
    dict_mem Z.eqb index_to_class (snd t) = true.
Proof.
  revert f. induction ex as [|t0 ex IH]; intros f H t Ht; [contradiction |].
  cbn [map write_sequence fst snd] in H.
  apply bind_Ok_inv in H. destruct H as (conc & f1 & H1 & H).
  apply bind_Ok_inv in H. destruct H as (pred & f2 & H2 & H).
  apply bind_Ok_inv in H. destruct H as ([] & f3 & _ & H).
  unfold lift in H1, H2. unfold getitem, dict_mem in *.
  destruct Ht as [<- | Ht]; [| exact (IH f3 H t Ht)].
  destruct (dict_get Z.eqb index_to_class (snd (fst t0))); [| discriminate].
  destruct (dict_get Z.eqb index_to_class (snd t0)); [| discriminate].
  now split.
Qed.

Lemma write_examples_Ok_known (index_to_class : list (Z * string)) (path : string)
    (examples : list (list (item * Z * Z))) (f f' : fs) :
  write_examples index_to_class true path
    (zip3 (tokens_of examples) (labels_of examples) (predictions_of examples)) f
  = (Ok tt, f') ->
  known index_to_class examples.
Proof.
  unfold tokens_of, labels_of, predictions_of. rewrite zip3_map.
  revert f. induction examples as [|ex examples IH]; intros f H ex' t Hex Ht; [contradiction |].
  cbn [map write_examples] in H. rewrite zip3_map in H.
  apply bind_Ok_inv in H. destruct H as ([] & f1 & H1 & H).
  apply bind_Ok_inv in H. destruct H as ([] & f2 & _ & H).
  destruct Hex as [<- | Hex].
  - exact (write_sequence_Ok_known _ _ _ _ _ H1 t Ht).
  - exact (IH f2 H ex' t Hex Ht).
Qed.

(** X2.  With indexed labels and aligned sequences, [write_predictions]
    returns exactly when every gold and predicted index is a value of the
    class vocabulary; an index that is not ends the call in an exception. *)
Theorem write_predictions_returns_iff_known (examples : list (list (item * Z * Z)))
    (path : string) (class_vocab : vocab) (files : fs) :
  (exists files',
     write_predictions (tokens_of examples) (labels_of examples) (predictions_of examples)
       path true class_vocab files = (Ok tt, files'))
  <-> known (invert class_vocab) examples.
Proof.
  split.
  - intros [files' H]. unfold write_predictions in H.
    apply bind_Ok_inv in H. destruct H as ([] & f1 & _ & H).
    exact (write_examples_Ok_known _ _ _ _ _ H).
  - intros Hk. eexists. unfold write_predictions, fs_open, modify. unfold bind at 1.
    exact (write_examples_render _ _ _ Hk files "").
Qed.

(** The file for triples of a token, a gold label that is not indexed and a
    predicted index: the gold label is written as it is. *)
Definition render_plain_line (index_to_class : list (Z * string)) (t : item * item * Z)
    : string :=
  py_str (fst (fst t)) +++ " " +++ py_str (snd (fst t))
    +++ " " +++ class_name index_to_class (snd t) +++ nl.

Definition render_plain (index_to_class : list (Z * string))
    (examples : list (list (item * item * Z))) : string :=
  fold_right
    (fun ex rest =>
       fold_right (fun t r => render_plain_line index_to_class t +++ r) nl ex +++ rest)
    "" examples.

Lemma write_sequence_plain (index_to_class : list (Z * string)) (path : string)
    (ex : list (item * item * Z)) :
  (forall t, In t ex -> dict_mem Z.eqb index_to_class (snd t) = true) ->
  forall (files : fs) (c : string),
    write_sequence index_to_class false path
      (map (fun t => (fst (fst t), snd (fst t), IInt (snd t))) ex)
      (dict_set String.eqb files path c)
    = (Ok tt,
       dict_set String.eqb files path
         (c +++ fold_right (fun t r => render_plain_line index_to_class t +++ r) "" ex)).
Proof.
  induction ex as [|t ex IH]; intros Hk files c; cbn [map write_sequence fold_right fst snd].
  - unfold ret. now rewrite append_empty_r.
  - unfold bind at 1, lift. unfold bind at 1.
    rewrite (getitem_known _ _ (Hk t (or_introl eq_refl))).
    unfold bind at 1. rewrite fs_write_set.
    rewrite IH by (intros t' Ht'; apply Hk; now right).
    f_equal. f_equal. unfold render_plain_line. now rewrite !append_assoc.
Qed.

(** X3.  Without indexed labels, as the script calls it on the test data,
    [write_predictions] writes the gold label of each token as it is given and
    the class name of the predicted index, provided every predicted index is
    in the vocabulary. *)
Theorem write_predictions_plain_labels (examples : list (list (item * item * Z)))
    (path : string) (class_vocab : vocab) (files : fs) :
  (forall ex t, In ex examples -> In t ex ->
     dict_mem Z.eqb (invert class_vocab) (snd t) = true) ->
  write_predictions
    (map (map (fun t => fst (fst t))) examples)
    (map (map (fun t => snd (fst t))) examples)
    (map (map (fun t => IInt (snd t))) examples)
    path false class_vocab files
  = (Ok tt, dict_set String.eqb files path (render_plain (invert class_vocab) examples)).
Proof.
  intros Hk. unfold write_predictions, fs_open, modify. unfold bind at 1.
  rewrite zip3_map. generalize (invert class_vocab) Hk. clear Hk. intros i2c Hk.
  assert (H : forall c,
             write_examples i2c false path
               (map (fun x => (map (fun t => fst (fst t)) x, map (fun t => snd (fst t)) x,
                               map (fun t => IInt (snd t)) x)) examples)
               (dict_set String.eqb files path c)
             = (Ok tt, dict_set String.eqb files path (c +++ render_plain i2c examples))).
  { induction examples as [|ex examples IH]; intros c; cbn [map write_examples].
    - unfold ret. cbn [render_plain fold_right]. now rewrite append_empty_r.
    - rewrite zip3_map. unfold bind at 1.
      rewrite write_sequence_plain by (intros t Ht; apply (Hk ex t); [now left | exact Ht]).
      unfold bind at 1. rewrite fs_write_set.
      rewrite IH by (intros ex' t Hex Ht; apply (Hk ex' t); [now right | exact Ht]).
      f_equal. f_equal. unfold render_plain. cbn [fold_right].
      rewrite !append_assoc. f_equal.
      induction ex as [|t ex IHex]; cbn [fold_right]; [reflexivity |].
      rewrite !append_assoc. f_equal. apply IHex.
      intros ex' t' [<- | Hex] Ht'; [apply (Hk (t :: ex) t'); [now left | now right] |].
      apply (Hk ex' t'); [now right | exact Ht']. }
  exact (H "").
Qed.

Lemma write_predictions_plain_labels_example :
  (forall ex t,
     In ex [[(IStr "a", IStr "O", 0%Z); (IStr "b", IStr "B-x", 2%Z)]] -> In t ex ->
     dict_mem Z.eqb (invert [("O", 0%Z); ("PER", 1%Z); ("LOC", 2%Z)]) (snd t) = true) /\
  write_predictions [[IStr "a"; IStr "b"]] [[IStr "O"; IStr "B-x"]] [[IInt 0; IInt 2]]
    "out.txt" false [("O", 0%Z); ("PER", 1%Z); ("LOC", 2%Z)] []
  = (Ok tt, [("out.txt", "a O O" +++ nl +++ "b B-x LOC" +++ nl +++ nl)]).
Proof.
  assert (H : forall ex t,
            In ex [[(IStr "a", IStr "O", 0%Z); (IStr "b", IStr "B-x", 2%Z)]] -> In t ex ->
            dict_mem Z.eqb (invert [("O", 0%Z); ("PER", 1%Z); ("LOC", 2%Z)]) (snd t) = true).
  { intros ex t [<- | []] [<- | [<- | []]]; reflexivity. }
  split; [exact H |].
  exact (write_predictions_plain_labels
           [[(IStr "a", IStr "O", 0%Z); (IStr "b", IStr "B-x", 2%Z)]]
           "out.txt" [("O", 0%Z); ("PER", 1%Z); ("LOC", 2%Z)] [] H).
Defined.

Lemma dict_get_set_same_Z {V} (d : list (Z * V)) (k : Z) (v : V) :
  dict_get Z.eqb (dict_set Z.eqb d k v) k = Some v.
Proof.
  induction d as [|[k' v'] d IH]; cbn [dict_set dict_get].
  - now rewrite Z.eqb_refl.
  - destruct (Z.eqb k k') eqn:E; cbn [dict_get]; [now rewrite Z.eqb_refl | now rewrite E].
Qed.

Lemma dict_get_set_other_Z {V} (d : list (Z * V)) (k k' : Z) (v : V) :
  k' <> k -> dict_get Z.eqb (dict_set Z.eqb d k v) k' = dict_get Z.eqb d k'.
Proof.
  intros Hne. apply Z.eqb_neq in Hne.
  induction d as [|[k0 v0] d IH]; cbn [dict_set dict_get].
  - now rewrite Hne.
  - destruct (Z.eqb k k0) eqn:E; cbn [dict_get].
    + apply Z.eqb_eq in E. subst k0. now rewrite Hne.
    + destruct (Z.eqb k' k0); [reflexivity | exact IH].
Qed.

Lemma invert_fold_absent (l : vocab) (d : list (Z * string)) (v : Z) :
  ~ In v (map snd l) ->
  dict_get Z.eqb (fold_left (fun d kv => dict_set Z.eqb d (snd kv) (fst kv)) l d) v
  = dict_get Z.eqb d v.
Proof.
  revert d. induction l as [|[k0 v0] l IH]; intros d Hn; cbn [fold_left fst snd];
    [reflexivity |].
  rewrite IH by (intros H; apply Hn; now right).
  apply dict_get_set_other_Z. intros ->. apply Hn. now left.
Qed.

(** X4.  The inversion of a class vocabulary with pairwise distinct indexes
    maps the index of every class back to its name, and holds no other key. *)
Theorem invert_lookup (class_vocab : vocab) :
  NoDup (map snd class_vocab) ->
  (forall k v, In (k, v) class_vocab ->
     dict_get Z.eqb (invert class_vocab) v = Some k) /\
  (forall v, ~ In v (map snd class_vocab) ->
     dict_get Z.eqb (invert class_vocab) v = None).
Proof.
  intros Hnd. split.
  - unfold invert. generalize (@nil (Z * string)) as d.
    induction class_vocab as [|[k0 v0] l IH]; intros d k v Hin; [contradiction |].
    cbn [map snd] in Hnd. inversion Hnd as [|? ? Hnot Hnd']; subst.
    cbn [fold_left fst snd]. destruct Hin as [E | Hin].
    + inversion E; subst. rewrite invert_fold_absent by exact Hnot.
      apply dict_get_set_same_Z.
    + now apply IH.
  - intros v Hn. unfold invert. now rewrite invert_fold_absent.
Qed.

Lemma invert_lookup_example :
  NoDup (map snd [("O", 0%Z); ("PER", 1%Z); ("LOC", 2%Z)]) /\
  dict_get Z.eqb (invert [("O", 0%Z); ("PER", 1%Z); ("LOC", 2%Z)]) 1%Z = Some "PER".
Proof.
  assert (H : NoDup (map snd [("O", 0%Z); ("PER", 1%Z); ("LOC", 2%Z)])).
  { cbn. repeat constructor; cbn; intuition discriminate. }
  split; [exact H |].
  exact (proj1 (invert_lookup [("O", 0%Z); ("PER", 1%Z); ("LOC", 2%Z)] H)
               "PER" 1%Z (or_intror (or_introl eq_refl))).
Defined.

(** * Further properties of the regrouping *)

Lemma combine_fst_snd {A B} (l : list (A * B)) : combine (map fst l) (map snd l) = l.
Proof.
  induction l as [|[a b] l IH]; cbn [map combine fst snd]; [reflexivity | now rewrite IH].
Qed.

Lemma regroup_run (run : list (Z * Z)) (st : regroup_state) :
  Forall (fun il => snd il <> (-1)%Z) run ->
  fold_left regroup_step run st
  = {| tmp_pred := tmp_pred st ++ map fst run;
       tmp_true := tmp_true st ++ map snd run;
       y_predicted := y_predicted st;
       y_true := y_true st |}.
Proof.
  intros H. revert st. induction H as [|il run Hil _ IH]; intros st; cbn [fold_left map].
  - rewrite !app_nil_r. now destruct st.
  - rewrite IH. unfold regroup_step.
    apply Z.eqb_neq in Hil. rewrite Hil. cbn [negb tmp_pred tmp_true y_predicted y_true].
    now rewrite <- !app_assoc.
Qed.

Lemma regroup_terminator (p : Z) (st : regroup_state) :
  regroup_step st (p, (-1)%Z)
  = {| tmp_pred := []; tmp_true := [];
       y_predicted := y_predicted st ++ [tmp_pred st];
       y_true := y_true st ++ [tmp_true st] |}.
Proof. reflexivity. Qed.

(** The flattened stream of runs of pairs (index, gold label), each closed by
    a position of gold label -1 with the index [snd] of the run, and a last
    run that nothing closes. *)
Definition terminated (runs : list (list (Z * Z) * Z)) (rest : list (Z * Z))
    : list (Z * Z) :=
  concat (map (fun r => fst r ++ [(snd r, (-1)%Z)]) runs) ++ rest.

(** X5.  On a stream in which every run of labelled positions is closed by
    one position of gold label -1, the regrouping gives back exactly the
    runs, indexes and gold labels apart, after what was collected before; the
    run after the last -1 is dropped. *)
Theorem regroup_batch_terminated (runs : list (list (Z * Z) * Z)) (rest : list (Z * Z))
    (yp yt : list (list Z)) :
  Forall (fun r => Forall (fun il => snd il <> (-1)%Z) (fst r)) runs ->
  Forall (fun il => snd il <> (-1)%Z) rest ->
  regroup_batch (map fst (terminated runs rest)) (map snd (terminated runs rest)) yp yt
  = (yp ++ map (fun r => map fst (fst r)) runs,
     yt ++ map (fun r => map snd (fst r)) runs).
Proof.
  intros Hruns Hrest. unfold regroup_batch, terminated. rewrite combine_fst_snd.
  rewrite fold_left_app.
  assert (H : forall st,
             tmp_pred st = [] -> tmp_true st = [] ->
             fold_left regroup_step
               (concat (map (fun r => fst r ++ [(snd r, (-1)%Z)]) runs)) st
             = {| tmp_pred := []; tmp_true := [];
                  y_predicted := y_predicted st ++ map (fun r => map fst (fst r)) runs;
                  y_true := y_true st ++ map (fun r => map snd (fst r)) runs |}).
  { induction Hruns as [|r runs Hr _ IH]; intros st Hp Ht; cbn [map concat].
    - rewrite !app_nil_r. destruct st; cbn in *; now subst.
    - rewrite fold_left_app, fold_left_app. rewrite (regroup_run _ _ Hr).
      cbn [fold_left]. rewrite regroup_terminator.
      cbn [tmp_pred tmp_true y_predicted y_true]. rewrite Hp, Ht. cbn [app].
      rewrite IH by reflexivity. cbn [y_predicted y_true].
      now rewrite <- !app_assoc. }
  rewrite H by reflexivity. rewrite (regroup_run _ _ Hrest). reflexivity.
Qed.

Lemma regroup_batch_terminated_example :
  Forall (fun r => Forall (fun il => snd il <> (-1)%Z) (fst r))
         [([(10, 0); (11, 3)], 7); ([(12, 1)], 8)]%Z /\
  Forall (fun il => snd il <> (-1)%Z) [(13, 2)]%Z /\
  regroup_batch [10; 11; 7; 12; 8; 13]%Z [0; 3; -1; 1; -1; 2]%Z [] []
  = ([[10; 11]; [12]]%Z, [[0; 3]; [1]]%Z).
Proof.
  assert (H1 : Forall (fun r => Forall (fun il => snd il <> (-1)%Z) (fst r))
                 [([(10, 0); (11, 3)], 7); ([(12, 1)], 8)]%Z)
    by (repeat constructor; cbn; discriminate).
  assert (H2 : Forall (fun il => snd il <> (-1)%Z) [(13, 2)]%Z)
    by (repeat constructor; cbn; discriminate).
  split; [exact H1 |]. split; [exact H2 |].
  exact (regroup_batch_terminated [([(10, 0); (11, 3)], 7); ([(12, 1)], 8)]%Z
           [(13, 2)]%Z [] [] H1 H2).
Defined.

Lemma regroup_fold_aligned (pairs : list (Z * Z)) (st : regroup_state) :
  length (tmp_pred st) = length (tmp_true st) ->
  Forall (fun l => l <> (-1)%Z) (tmp_true st) ->
  map (@length Z) (y_predicted st) = map (@length Z) (y_true st) ->
  Forall (Forall (fun l => l <> (-1)%Z)) (y_true st) ->
  let st' := fold_left regroup_step pairs st in
  map (@length Z) (y_predicted st') = map (@length Z) (y_true st') /\
  Forall (Forall (fun l => l <> (-1)%Z)) (y_true st').
Proof.
  revert st. induction pairs as [|[i l] pairs IH]; intros st Ht Hn Ha Hf; cbn [fold_left].
  - now split.
  - apply IH; unfold regroup_step; cbn [fst snd];
      destruct (Z.eqb_spec l (-1)) as [-> | Hne];
      cbn [negb tmp_pred tmp_true y_predicted y_true];
      try assumption; try reflexivity; try constructor.
    + rewrite !length_app. cbn [length]. lia.
    + apply Forall_app. split; [exact Hn | now constructor].
    + rewrite !map_app. cbn [map]. now rewrite Ha, Ht.
    + apply Forall_app. split; [exact Hf | now constructor].
Qed.

(** X6.  The sequences of predictions and of gold labels that the regrouping
    collects stay aligned, pair by pair of the same length, whatever the
    lengths of the two streams, and no collected gold label is -1. *)
Theorem regroup_batch_aligned (indices labels : list Z) (yp yt : list (list Z)) :
  map (@length Z) yp = map (@length Z) yt ->
  Forall (Forall (fun l => l <> (-1)%Z)) yt ->
  map (@length Z) (fst (regroup_batch indices labels yp yt))
  = map (@length Z) (snd (regroup_batch indices labels yp yt)) /\
  Forall (Forall (fun l => l <> (-1)%Z)) (snd (regroup_batch indices labels yp yt)).
Proof.
  intros Ha Hf. unfold regroup_batch. cbn [fst snd].
  apply (regroup_fold_aligned (combine indices labels)
           {| tmp_pred := []; tmp_true := []; y_predicted := yp; y_true := yt |});
    cbn [tmp_pred tmp_true y_predicted y_true]; try assumption; [reflexivity | constructor].
Qed.

Lemma regroup_batch_aligned_example :
  map (@length Z) [[4%Z]] = map (@length Z) [[2%Z]] /\
  Forall (Forall (fun l => l <> (-1)%Z)) [[2%Z]] /\
  map (@length Z) (fst (regroup_batch [10; 11; 12]%Z [0; -1]%Z [[4%Z]] [[2%Z]]))
  = map (@length Z) (snd (regroup_batch [10; 11; 12]%Z [0; -1]%Z [[4%Z]] [[2%Z]])).
Proof.
  assert (H : Forall (Forall (fun l => l <> (-1)%Z)) [[2%Z]])
    by (repeat constructor; discriminate).
  split; [reflexivity |]. split; [exact H |].
  exact (proj1 (regroup_batch_aligned [10; 11; 12]%Z [0; -1]%Z [[4%Z]] [[2%Z]] eq_refl H)).
Defined.

(** * The further properties on concrete collaborators *)

(** A CRF stand-in: a constant likelihood, and the gold labels as the
    decoded path. *)
Definition toy_no_model {A} (_ : unit) (_ : batch) (st : module_state Z unit)
    : result A * module_state Z unit :=
  (Raise (RuntimeError "no such model"), st).

Definition toy_nll (_ : unit) (_ : batch) (st : module_state Z unit)
    : result Z * module_state Z unit :=
  (Ok 0%Z, st).

Definition toy_crf_call (_ : unit) (b : batch) (st : module_state Z unit)
    : result (list Z * list Z) * module_state Z unit :=
  (Ok (flat_map (map snd) b, flat_map (map snd) b), st).

Definition toy_predict :=
  predict unit Z 0%Z Z.ltb unit toy_embedding_encoder toy_id toy_gru toy_gru toy_id toy_training toy_out
    (fun row => row) (fun row => row) 9%Z toy_no_model toy_no_model.

Definition toy_train_crf :=
  train_model unit toy_classes Z 0%Z Z.ltb unit toy_embedding_encoder toy_id toy_gru
    toy_gru toy_id toy_training toy_out (fun row => row) (fun row => row) 9%Z
    toy_no_model toy_crf_call toy_nll
    (fun _ _ => Ok 0%Z) toy_backward (fun st => st) (fun st => st)
    (fun _ st => st) (fun _ st => st) (fun _ => 0%float) (fun _ => 0%float)
    (fun data _ _ => [data]) [("dataset", VStr "movies")].

Definition toy_evaluate_model (global_params : params) :=
  evaluate_model unit toy_classes Z 0%Z Z.ltb unit toy_embedding_encoder toy_id toy_gru
    toy_gru toy_id toy_training toy_out (fun row => row) (fun row => row) 9%Z
    toy_no_model toy_crf_call (fun _ _ => Ok 0%Z) (fun _ => 0%float)
    (fun data _ _ => [data]) global_params.

Definition toy_script (global_params : params) :=
  script unit unit unit toy_generator toy_classes toy_InitTransform toy_DropTransform
    toy_construct Z 0%Z Z.ltb unit toy_embedding_encoder toy_id toy_gru
    toy_gru toy_id toy_training toy_out (fun row => row) (fun row => row) 9%Z
    toy_no_model toy_crf_call toy_nll
    (fun _ _ => Ok 0%Z) toy_backward (fun st => st) (fun st => st)
    (fun _ st => st) (fun _ st => st) (fun _ => 0%float) (fun _ => 0%float)
    (fun data _ _ => [data]) global_params
    (fun _ _ _ => Ok toy_batch) (fun _ => Ok ([], [])) (fun _ => "weights").

(** ** The launcher *)

(** X7 on stand-ins: the options of a convolutional model on movies. *)
Lemma parse_args_returns_valid_example :
  parse_args toy_float toy_int toy_getopt (toy_options "conv" "movies")
  = Ok (toy_params "conv" "movies") /\
  exists lr drop_ decay embedding_norm batch_ hidden_size,
    subscript (toy_params "conv" "movies") "lr" = Ok (VFloat lr) /\
    valid_config lr drop_ decay embedding_norm batch_ 2 hidden_size
      "tokens" "conv" "movies" = true.
Proof.
  split; [reflexivity |].
  destruct (parse_args_returns_valid toy_float toy_int toy_getopt
              (toy_options "conv" "movies") (toy_params "conv" "movies") eq_refl)
    as (lr & dr & de & no & ba & ep & hi & sq & mo & da & Hlr & _ & _ & _ & _ & Hep
        & _ & Hsq & Hmo & Hda & Hv).
  exists lr, dr, de, no, ba, hi. split; [exact Hlr |].
  vm_compute in Hep, Hsq, Hmo, Hda.
  inversion Hep; inversion Hsq; inversion Hmo; inversion Hda; subst. exact Hv.
Defined.

(** X8 on stand-ins: the dataset atis. *)
Lemma launcher_needs_movies_example :
  parse_args toy_float toy_int toy_getopt (toy_options "conv" "atis")
  = Ok (toy_params "conv" "atis") /\
  subscript (toy_params "conv" "atis") "dataset" = Ok (VStr "atis") /\
  toy_pick_model_transform (toy_params "conv" "atis") toy_world
  = (Raise (KeyError "embedding"), toy_world).
Proof.
  split; [reflexivity |]. split; [reflexivity |].
  apply (launcher_needs_movies toy_float toy_int toy_getopt unit unit unit toy_generator
           toy_classes toy_InitTransform toy_DropTransform toy_construct
           (toy_options "conv" "atis")); [reflexivity | vm_compute; discriminate].
Defined.

(** X9 on stand-ins: the convolutional model on movies. *)
Lemma pick_model_transform_returns_example :
  toy_pick_model_transform (toy_params "conv" "movies") toy_world
  = (Ok (Other unit "conv.CNN" tt, tt, tt),
     {| files := files toy_world;
        log := [Construct "conv.CNN"; Print "total trainable parameters"] |}) /\
  exists n,
    subscript (toy_params "conv" "movies") "model" = Ok (VStr n) /\
    class_of n = "conv.CNN".
Proof.
  split; [reflexivity |].
  destruct (pick_model_transform_returns unit unit unit toy_generator toy_classes
              toy_InitTransform toy_DropTransform toy_construct
              (toy_params "conv" "movies") toy_world _ _ _ _ eq_refl)
    as (n & Hn & _ & _ & Hc & _).
  exists n. split; [exact Hn | symmetry; exact Hc].
Defined.

(** ** The encoder-decoder model *)

(** X11 on stand-ins: the batch of lengths 1 and 2. *)
Lemma forward_predictions_in_range_example :
  decodes toy_self /\
  accepted 9%Z toy_self toy_batch /\
  state_ok Z unit toy_self toy_module /\
  exists logp labels st' idx,
    toy_forward toy_self toy_batch toy_module = (Ok (logp, labels), st') /\
    argmax_dim1 Z Z.ltb logp = Ok idx /\
    Forall (fun i => (0 <= i < 3)%Z) idx.
Proof.
  split; [exact toy_self_decodes |]. split; [exact toy_batch_accepted |].
  split; [reflexivity |].
  destruct (forward_predictions_in_range Z 0%Z Z.ltb unit toy_embedding_encoder toy_id
              toy_gru toy_gru toy_id toy_training toy_out (fun row => row) (fun row => row)
              9%Z toy_self
              toy_embedding_encoder_shape (fun _ _ => eq_refl) (fun _ _ _ => eq_refl)
              (fun _ _ _ => eq_refl) (fun _ _ _ => eq_refl) (fun _ _ _ => eq_refl)
              (fun _ _ => eq_refl) (fun _ _ => eq_refl) (fun _ => eq_refl)
              toy_batch toy_module toy_self_decodes toy_batch_accepted eq_refl)
    as (logp & labels & st' & idx & Hf & Ha & _ & Hr).
  exists logp, labels, st', idx. repeat split; assumption.
Defined.

(** X13 on stand-ins: a batch of two examples without a token. *)
Lemma forward_no_token_raises_example :
  built toy_self /\
  max_norm_ok (max_norm_emb1 toy_self) = true /\
  max_length [[]; []] = 0 /\
  fst (toy_forward toy_self [[]; []] toy_module)
  = Raise (RuntimeError "Expected sequence length to be larger than 0 in RNN") /\
  embedding_decoder_weight Z unit (snd (toy_forward toy_self [[]; []] toy_module))
  = embedding_decoder_weight Z unit toy_module.
Proof.
  split; [exact (proj1 toy_self_decodes) |]. split; [reflexivity |].
  split; [reflexivity |].
  exact (forward_no_token_raises Z 0%Z Z.ltb unit toy_embedding_encoder toy_id
           toy_gru toy_gru toy_id toy_training toy_out (fun row => row) (fun row => row)
           9%Z toy_self
           toy_embedding_encoder_shape (fun _ _ => eq_refl)
           [[]; []] toy_module (proj1 toy_self_decodes) eq_refl
           ltac:(discriminate) eq_refl).
Defined.

Lemma toy_examples_accepted :
  Forall (fun e : example => accepted 9%Z toy_self [e]) toy_batch.
Proof.
  repeat constructor; cbn; lia.
Qed.

(** X14 on stand-ins: two examples, of one and of two tokens. *)
Lemma predict_one_label_per_token_example :
  decodes toy_self /\
  state_ok Z unit toy_self toy_module /\
  Forall (fun e : example => accepted 9%Z toy_self [e]) toy_batch /\
  exists ys st',
    toy_predict (Encoder unit toy_self) toy_batch toy_module = (Ok ys, st') /\
    map (@length Z) ys = [1; 2].
Proof.
  split; [exact toy_self_decodes |]. split; [reflexivity |].
  split; [exact toy_examples_accepted |].
  destruct (predict_one_label_per_token unit Z 0%Z Z.ltb unit toy_embedding_encoder toy_id
              toy_gru toy_gru toy_id toy_training toy_out (fun row => row) (fun row => row)
              9%Z toy_no_model toy_no_model toy_self
              toy_embedding_encoder_shape (fun _ _ => eq_refl) (fun _ _ _ => eq_refl)
              (fun _ _ _ => eq_refl) (fun _ _ _ => eq_refl) (fun _ _ _ => eq_refl)
              (fun _ _ => eq_refl) (fun _ _ => eq_refl) (fun _ => eq_refl)
              toy_batch toy_module toy_self_decodes eq_refl toy_examples_accepted)
    as (ys & st' & Hp & Hl & _).
  exists ys, st'. split; [exact Hp | exact Hl].
Defined.

(** X15 on stand-ins: the last row of the table after a batch that is
    decoded, and after one on which the decoder raises. *)
Lemma forward_spares_start_row_example :
  (0 < tagset_size toy_self)%Z /\
  (0 < tagset_size toy_odd)%Z /\
  nth_error (embedding_decoder_weight Z unit
               (snd (toy_forward toy_self toy_batch toy_module))) 3
  = Some [3; 4]%Z /\
  nth_error (embedding_decoder_weight Z unit
               (snd (toy_forward toy_odd toy_batch toy_module))) 3
  = Some [3; 4]%Z.
Proof.
  split; [reflexivity |]. split; [reflexivity |]. split.
  - exact (proj2 (forward_spares_start_row Z 0%Z Z.ltb unit toy_embedding_encoder toy_id
                    toy_gru toy_gru toy_id toy_training toy_out (fun row => row)
                    (fun row => row) 9%Z toy_self
                    (fun _ _ => eq_refl) (fun _ => eq_refl) toy_batch toy_module eq_refl)).
  - exact (proj2 (forward_spares_start_row Z 0%Z Z.ltb unit toy_embedding_encoder toy_id
                    toy_gru toy_gru toy_id toy_training toy_out (fun row => row)
                    (fun row => row) 9%Z toy_odd
                    (fun _ _ => eq_refl) (fun _ => eq_refl) toy_batch toy_module eq_refl)).
Defined.

(** ** The training and evaluation loops *)

(** X16 on stand-ins: two epochs of a CRF whose likelihood and gradient are
    computed. *)
Lemma train_model_crf_completes_example :
  trainable unit Z unit toy_nll toy_backward tt /\
  toy_batch <> [] /\
  (0 < 80)%Z /\
  Adam (VFloat 0.01%float) (VFloat 0%float) = Ok tt /\
  exists t',
    toy_train_crf toy_batch (Other unit "lstmcrf.LstmCrf" tt) None 80%Z
      (VFloat 0.01%float) 2 (VFloat 0%float) toy_trainer
    = (Ok tt, t') /\
    scheduler_steps (log (tworld Z unit t')) = 2.
Proof.
  assert (Htrain : trainable unit Z unit toy_nll toy_backward tt).
  { split; [intros b st; now exists 0%Z, st | intros l st; now exists st]. }
  split; [exact Htrain |]. split; [discriminate |]. split; [lia |].
  split; [reflexivity |].
  destruct (train_model_crf_completes unit toy_classes Z 0%Z Z.ltb unit
              toy_embedding_encoder toy_id toy_gru
              toy_gru toy_id toy_training toy_out (fun row => row) (fun row => row) 9%Z
              toy_no_model toy_crf_call toy_nll
              (fun _ _ => Ok 0%Z) toy_backward (fun st => st) (fun st => st)
              (fun _ st => st) (fun _ st => st) (fun _ => 0%float) (fun _ => 0%float)
              (fun data _ _ => [data]) [("dataset", VStr "movies")]
              toy_batch tt 80%Z (VFloat 0.01%float) 2 (VFloat 0%float) toy_trainer
              Htrain ltac:(discriminate) ltac:(lia) eq_refl)
    as (t' & Ht & _ & Hs).
  exists t'. split; [exact Ht | exact Hs].
Defined.

(** X17 on stand-ins: evaluation on the dataset atis. *)
Lemma evaluate_model_needs_movies_example :
  subscript (toy_params "conv" "atis") "dataset" = Ok (VStr "atis") /\
  raises (toy_evaluate_model (toy_params "conv" "atis") toy_batch
            (Encoder unit toy_self) 80%Z) toy_trainer.
Proof.
  split; [reflexivity |].
  apply evaluate_model_needs_movies. vm_compute. discriminate.
Defined.

(** X18 on stand-ins: an evaluation of the encoder-decoder model that finds a
    file of notes and an older prediction file. *)
Lemma evaluate_model_cleans_up_example :
  let t := {| tworld := {| files := [("notes.txt", "kept"); ("../output/dev_pred.txt", "old")];
                           log := [] |};
              tnet := toy_module; passes := 0 |} in
  let r := toy_evaluate_model [("dataset", VStr "movies")] toy_batch
             (Encoder unit toy_self) 80%Z t in
  fst r = Ok tt /\
  dict_get String.eqb (files (tworld Z unit (snd r))) "../output/dev_pred.txt" = None /\
  dict_get String.eqb (files (tworld Z unit (snd r))) "notes.txt" = Some "kept".
Proof.
  cbv zeta. unfold toy_evaluate_model. split; [vm_compute; reflexivity |].
  match goal with
  | |- dict_get _ (files (tworld _ _ (snd (?ev ?t)))) _ = _ /\ _ =>
      assert (Hrun : ev t = (Ok tt, snd (ev t))) by (vm_compute; reflexivity)
  end.
  apply evaluate_model_cleans_up in Hrun. destruct Hrun as [Hgone Hrest].
  split; [exact Hgone |]. pose proof (Hrest "notes.txt" eq_refl) as Hnotes.
  vm_compute in Hnotes |- *. exact Hnotes.
Defined.

(** X19 on stand-ins: the CRF on movies, two epochs, test mode. *)
Lemma script_completes_only_for_crf_example :
  parse_args toy_float toy_int toy_getopt (toy_options "lstmcrf" "movies")
  = Ok (toy_params "lstmcrf" "movies") /\
  fst (toy_script (toy_params "lstmcrf" "movies") toy_trainer) = Ok tt /\
  subscript (toy_params "lstmcrf" "movies") "model" = Ok (VStr "lstmcrf") /\
  subscript (toy_params "lstmcrf" "movies") "dataset" = Ok (VStr "movies").
Proof.
  split; [vm_compute; reflexivity |]. split; [vm_compute; reflexivity |].
  apply (script_completes_only_for_crf toy_float toy_int toy_getopt unit unit unit
           toy_generator toy_classes toy_InitTransform toy_DropTransform
           toy_construct Z 0%Z Z.ltb unit toy_embedding_encoder toy_id toy_gru
           toy_gru toy_id toy_training toy_out (fun row => row) (fun row => row) 9%Z
           toy_no_model toy_crf_call toy_nll
           (fun _ _ => Ok 0%Z) toy_backward (fun st => st) (fun st => st)
           (fun _ st => st) (fun _ st => st) (fun _ => 0%float) (fun _ => 0%float)
           (fun data _ _ => [data]) (toy_params "lstmcrf" "movies")
           (fun _ _ _ => Ok toy_batch) (fun _ => Ok ([], [])) (fun _ => "weights")
           (toy_options "lstmcrf" "movies") toy_trainer
           (snd (toy_script (toy_params "lstmcrf" "movies") toy_trainer)));
    vm_compute; reflexivity.
Defined.
